(** * expr: the tree-walking evaluator and the virtual machine

    A shallow embedding of the expression engine: the Go values the engine
    inspects through package [reflect], the tree-walking evaluator of package
    [expr] (eval.go, runtime.go, type.go), the operand helpers of package
    [vm], and the compiler and the loop of the machine as the specification
    describes them.  Integers are [Z] with the wrap-around of their width
    written out, float64 and float32 are the IEEE 754 binary formats of
    [SpecFloat].  The properties at the end compare the two evaluators. *)

From Stdlib Require Import ZArith List String Ascii Bool Lia.
From Stdlib Require Import Floats.SpecFloat.
Import ListNotations.

Set Implicit Arguments.
#[local] Set Warnings "-register-all".
Local Open Scope string_scope.
Local Open Scope Z_scope.

(** ** Go values *)

Module Go.

(** The ten integer types of Go; [int] and [uint] are 64 bits wide, as on the
    64-bit platforms the engine is built for. *)
Inductive ikind : Set :=
| Int | Int8 | Int16 | Int32 | Int64
| Uint | Uint8 | Uint16 | Uint32 | Uint64.

Inductive fkind : Set := Float32 | Float64.

Definition ikind_eqb (a b : ikind) : bool :=
  match a, b with
  | Int, Int | Int8, Int8 | Int16, Int16 | Int32, Int32 | Int64, Int64
  | Uint, Uint | Uint8, Uint8 | Uint16, Uint16 | Uint32, Uint32
  | Uint64, Uint64 => true
  | _, _ => false
  end.

Definition fkind_eqb (a b : fkind) : bool :=
  match a, b with
  | Float32, Float32 | Float64, Float64 => true
  | _, _ => false
  end.

Definition bits (k : ikind) : Z :=
  match k with
  | Int8 | Uint8 => 8
  | Int16 | Uint16 => 16
  | Int32 | Uint32 => 32
  | Int | Int64 | Uint | Uint64 => 64
  end.

Definition signed (k : ikind) : bool :=
  match k with
  | Int | Int8 | Int16 | Int32 | Int64 => true
  | _ => false
  end.

Definition min_int (k : ikind) : Z :=
  if signed k then - 2 ^ (bits k - 1) else 0.

Definition max_int (k : ikind) : Z :=
  if signed k then 2 ^ (bits k - 1) - 1 else 2 ^ bits k - 1.

(** Two's complement wrap-around of an integer result into the range of [k]. *)
Definition wrap (k : ikind) (z : Z) : Z :=
  if signed k
  then (z + 2 ^ (bits k - 1)) mod 2 ^ bits k - 2 ^ (bits k - 1)
  else z mod 2 ^ bits k.

(** *** Floating point *)

Definition float := spec_float.

Definition prec (k : fkind) : Z := match k with Float32 => 24 | Float64 => 53 end.
Definition emax (k : fkind) : Z := match k with Float32 => 128 | Float64 => 1024 end.

Definition fadd k := SFadd (prec k) (emax k).
Definition fsub k := SFsub (prec k) (emax k).
Definition fmul k := SFmul (prec k) (emax k).
Definition fdiv k := SFdiv (prec k) (emax k).
Definition feqb : float -> float -> bool := SFeqb.
Definition fltb : float -> float -> bool := SFltb.
Definition fleb : float -> float -> bool := SFleb.

(** The conversion [float64(z)] of an integer: round to nearest even. *)
Definition of_Z (k : fkind) (z : Z) : float :=
  binary_normalize (prec k) (emax k) z 0 false.

(** The integer part of a finite float (truncation toward zero); [None] for
    infinities and NaN. *)
Definition truncate (f : float) : option Z :=
  match f with
  | S754_zero _ => Some 0
  | S754_finite s m e => Some (cond_Zopp s (Z.shiftl (Zpos m) e))
  | S754_infinity _ | S754_nan => None
  end.

(** The conversions [int64(f)], [int(f)]: the language leaves the result open
    when the integer part does not fit; the amd64 instruction the compiler
    emits returns the smallest int64 there. *)
Definition to_int64 (f : float) : Z :=
  match truncate f with
  | Some z => if (min_int Int64 <=? z) && (z <=? max_int Int64) then z
              else min_int Int64
  | None => min_int Int64
  end.

(** *** Types and values *)

Inductive type : Set :=
| TBool
| TInt (k : ikind)
| TFloat (k : fkind)
| TString
| TInterface                                    (* interface{} *)
| TSlice (elem : type)
| TMap (key elem : type)
| TPtr (elem : type)
| TStruct (name : string) (fields : list (string * type))
| TFunc
| TValue.                                       (* reflect.Value *)

(** A value as it is stored in a variable of its type.  A variable of type
    [interface{}] holds [VIface None] (nil) or [VIface (Some x)] with [x] of a
    concrete type.  A pointer is nil or an address with what it points to.
    [VSlice] and [VMap] stand for non-nil slices and maps; a map is the list
    of its entries, with pairwise different keys.  [VRValue r] is a
    [reflect.Value] held as an ordinary struct value, as happens when the
    evaluator stores one in an [interface{}]. *)
Inductive value : Set :=
| VBool (b : bool)
| VInt (k : ikind) (z : Z)
| VFloat (k : fkind) (f : float)
| VString (s : string)
| VIface (x : option value)
| VSlice (elem : type) (xs : list value)
| VMap (key elem : type) (kvs : list (value * value))
| VStruct (name : string) (fields : list (string * value))
| VPtr (elem : type) (p : option (positive * value))
| VFunc
| VRValue (r : Value)
(** A [reflect.Value]: the zero Value, or a value with the type of the place
    it was read from (which may be [interface{}]). *)
with Value : Set :=
| Zero
| Val (x : value).

(** [interface{}]: nil or a value of a concrete type. *)
Definition any := option value.

Fixpoint typeof (v : value) : type :=
  match v with
  | VBool _ => TBool
  | VInt k _ => TInt k
  | VFloat k _ => TFloat k
  | VString _ => TString
  | VIface _ => TInterface
  | VSlice e _ => TSlice e
  | VMap k e _ => TMap k e
  | VStruct n fs => TStruct n (map (fun p => (fst p, typeof (snd p))) fs)
  | VPtr e _ => TPtr e
  | VFunc => TFunc
  | VRValue _ => TValue
  end.

Fixpoint type_eqb (a b : type) {struct a} : bool :=
  match a, b with
  | TBool, TBool | TString, TString | TInterface, TInterface
  | TFunc, TFunc | TValue, TValue => true
  | TInt k, TInt k' => ikind_eqb k k'
  | TFloat k, TFloat k' => fkind_eqb k k'
  | TSlice e, TSlice e' => type_eqb e e'
  | TPtr e, TPtr e' => type_eqb e e'
  | TMap k e, TMap k' e' => type_eqb k k' && type_eqb e e'
  | TStruct n fs, TStruct n' fs' =>
      String.eqb n n' &&
      (fix fields (l l' : list (string * type)) {struct l} : bool :=
         match l, l' with
         | [], [] => true
         | (f, t) :: r, (f', t') :: r' =>
             String.eqb f f' && type_eqb t t' && fields r r'
         | _, _ => false
         end) fs fs'
  | _, _ => false
  end.

End Go.

(** ** Syntax trees

    The nodes the evaluator walks.  [matchesNode], [methodNode] and
    [functionNode], whose evaluation calls into package [regexp] and into host
    functions, are left out of the development. *)

Module ast.

Inductive node : Set :=
| nilNode
| identifierNode (value : string)
| numberNode (value : Go.float)
| boolNode (value : bool)
| textNode (value : string)
| nameNode (name : string)
| unaryNode (operator : string) (n : node)
| binaryNode (operator : string) (left right : node)
| propertyNode (n : node) (property : string)
| indexNode (n index : node)
| builtinNode (name : string) (arguments : list node)
| conditionalNode (cond exp1 exp2 : node)
| arrayNode (nodes : list node)
| mapNode (pairs : list (node * node)).

End ast.

(** ** Messages, errors and panics

    An error made by [fmt.Errorf] and the text of a [panic(fmt.Sprintf ...)]
    are kept as the format with its arguments.  A panic carries a message of
    the program, or comes from inside package [reflect] (named by the method
    that raised it), or is a run-time error of the language. *)

Module fmt.

Inductive arg : Set :=
| ANode (n : ast.node)
| AValue (v : Go.Value)
| AAny (x : Go.any)
| AString (s : string)
| AInt (z : Z)
| AType (t : option Go.type)
| APanic (p : thrown)
with text : Set :=
| Sprintf (format : string) (args : list arg)
with thrown : Set :=
| Message (t : text)
| ReflectPanic (method : string)
| RuntimePanic (what : string).

End fmt.

Export fmt(thrown, Message, ReflectPanic, RuntimePanic).

(** The outcome of a call: a result, an [error] returned, or a panic.
    [Indeterminate] marks the few outcomes this development leaves open: those
    that depend on whether two [reflect.Value] structs hold the same data
    pointer or on their unexported fields, the result of [math.Pow], and the
    instructions of the machine whose helpers are not among the sources. *)
Inductive result (A : Type) : Type :=
| Ok (a : A)
| Error (e : fmt.text)
| Panic (p : thrown)
| Indeterminate.

Arguments Ok {A} a.
Arguments Error {A} e.
Arguments Panic {A} p.
Arguments Indeterminate {A}.

Definition bind {A B : Type} (r : result A) (k : A -> result B) : result B :=
  match r with
  | Ok a => k a
  | Error e => Error e
  | Panic p => Panic p
  | Indeterminate => Indeterminate
  end.

Notation "'let*' x ':=' r 'in' k" := (bind r (fun x => k))
  (at level 10, x pattern, r at level 100, k at level 200).

(** A [for ... range] loop over a list that threads a state and stops at the
    first error or panic. *)
Section Loop.
Context {A S : Type} (body : A -> S -> result S).

Fixpoint each (l : list A) (s : S) {struct l} : result S :=
  match l with
  | [] => Ok s
  | x :: rest => let* s' := body x s in each rest s'
  end.
End Loop.

Definition Errorf {A : Type} (format : string) (args : list fmt.arg) : result A :=
  Error (fmt.Sprintf format args).

Definition panicf {A : Type} (format : string) (args : list fmt.arg) : result A :=
  Panic (Message (fmt.Sprintf format args)).

(** ** Package reflect

    The operations of [reflect] the engine calls, on the values above.  Every
    struct field is exported, so a valid Value can always be turned back into
    an [interface{}]. *)

Module reflect.
Import Go.

Inductive kind : Set :=
| KInvalid | KBool | KInt (k : ikind) | KFloat (k : fkind) | KString
| KSlice | KMap | KStruct | KPtr | KInterface | KFunc.

Definition kind_of (t : type) : kind :=
  match t with
  | TBool => KBool
  | TInt k => KInt k
  | TFloat k => KFloat k
  | TString => KString
  | TInterface => KInterface
  | TSlice _ => KSlice
  | TMap _ _ => KMap
  | TPtr _ => KPtr
  | TStruct _ _ => KStruct
  | TFunc => KFunc
  | TValue => KStruct
  end.

Definition ValueOf (i : any) : Value :=
  match i with
  | None => Zero
  | Some x => Val x
  end.

Definition Kind (v : Value) : kind :=
  match v with
  | Zero => KInvalid
  | Val x => kind_of (typeof x)
  end.

Definition IsValid (v : Value) : bool :=
  match v with Zero => false | Val _ => true end.

Definition CanInterface (v : Value) : result bool :=
  match v with
  | Zero => Panic (ReflectPanic "CanInterface")
  | Val _ => Ok true
  end.

Definition TypeOf (v : Value) : result type :=
  match v with
  | Zero => Panic (ReflectPanic "Type")
  | Val x => Ok (typeof x)
  end.

(** [v.Interface()]: for a Value of kind Interface, what the interface holds. *)
Definition Interface (v : Value) : result any :=
  match v with
  | Zero => Panic (ReflectPanic "Interface")
  | Val (VIface i) => Ok i
  | Val x => Ok (Some x)
  end.

Definition IsNil (v : Value) : result bool :=
  match v with
  | Val (VIface None) | Val (VPtr _ None) => Ok true
  | Val (VIface (Some _)) | Val (VPtr _ (Some _)) => Ok false
  | Val (VSlice _ _) | Val (VMap _ _ _) | Val VFunc => Ok false
  | _ => Panic (ReflectPanic "IsNil")
  end.

Definition BoolOf (v : Value) : result bool :=
  match v with
  | Val (VBool b) => Ok b
  | _ => Panic (ReflectPanic "Bool")
  end.

Definition FloatOf (v : Value) : result float :=
  match v with
  | Val (VFloat _ f) => Ok f
  | _ => Panic (ReflectPanic "Float")
  end.

Definition IntOf (v : Value) : result Z :=
  match v with
  | Val (VInt k z) => if signed k then Ok z else Panic (ReflectPanic "Int")
  | _ => Panic (ReflectPanic "Int")
  end.

Definition UintOf (v : Value) : result Z :=
  match v with
  | Val (VInt k z) => if signed k then Panic (ReflectPanic "Uint") else Ok z
  | _ => Panic (ReflectPanic "Uint")
  end.

Definition ikind_String (k : ikind) : string :=
  match k with
  | Int => "int" | Int8 => "int8" | Int16 => "int16" | Int32 => "int32"
  | Int64 => "int64" | Uint => "uint" | Uint8 => "uint8"
  | Uint16 => "uint16" | Uint32 => "uint32" | Uint64 => "uint64"
  end.

Fixpoint type_String (t : type) : string :=
  match t with
  | TBool => "bool"
  | TInt k => ikind_String k
  | TFloat Float32 => "float32"
  | TFloat Float64 => "float64"
  | TString => "string"
  | TInterface => "interface {}"
  | TSlice e => "[]" ++ type_String e
  | TMap k e => "map[" ++ type_String k ++ "]" ++ type_String e
  | TPtr e => "*" ++ type_String e
  | TStruct n _ => n
  | TFunc => "func()"
  | TValue => "reflect.Value"
  end.

(** [v.String()] does not panic: for a Value that is not a string it names
    the type. *)
Definition StringOf (v : Value) : string :=
  match v with
  | Zero => "<invalid Value>"
  | Val (VString s) => s
  | Val x => "<" ++ type_String (typeof x) ++ " Value>"
  end.

Definition Index (v : Value) (i : Z) : result Value :=
  match v with
  | Val (VSlice _ xs) =>
      if i <? 0 then Panic (ReflectPanic "Index")
      else match nth_error xs (Z.to_nat i) with
           | Some x => Ok (Val x)
           | None => Panic (ReflectPanic "Index")
           end
  | Val (VString s) =>
      if i <? 0 then Panic (ReflectPanic "Index")
      else match String.get (Z.to_nat i) s with
           | Some c => Ok (Val (VInt Uint8 (Z.of_nat (nat_of_ascii c))))
           | None => Panic (ReflectPanic "Index")
           end
  | _ => Panic (ReflectPanic "Index")
  end.

Definition Elem (v : Value) : result Value :=
  match v with
  | Val (VPtr _ None) => Ok Zero
  | Val (VPtr _ (Some (_, x))) => Ok (Val x)
  | Val (VIface None) => Ok Zero
  | Val (VIface (Some x)) => Ok (Val x)
  | _ => Panic (ReflectPanic "Elem")
  end.

Fixpoint field (name : string) (fs : list (string * value)) : Value :=
  match fs with
  | [] => Zero
  | (f, x) :: rest => if String.eqb f name then Val x else field name rest
  end.

(** A [reflect.Value] struct has the three unexported fields typ, ptr and
    flag, which cannot be turned into an [interface{}]. *)
Definition FieldByName (v : Value) (name : string) : result Value :=
  match v with
  | Val (VStruct _ fs) => Ok (field name fs)
  | Val (VRValue _) =>
      if String.eqb name "typ" || String.eqb name "ptr" || String.eqb name "flag"
      then Indeterminate
      else Ok Zero
  | _ => Panic (ReflectPanic "FieldByName")
  end.

(** *** Comparison and maps

    Answers are three-valued: [None] where the answer depends on the identity
    of the data pointers of two [reflect.Value] structs.  Two slices, or two
    maps, are never the same object. *)

Definition and3 (a b : option bool) : option bool :=
  match a, b with
  | Some false, _ | _, Some false => Some false
  | Some true, Some true => Some true
  | _, _ => None
  end.

(** The operator [==] on two values of one comparable type. *)
Fixpoint go_eq (a b : value) {struct a} : option bool :=
  match a, b with
  | VBool x, VBool y => Some (Bool.eqb x y)
  | VInt k x, VInt k' y => Some (ikind_eqb k k' && (x =? y))
  | VFloat k x, VFloat k' y => Some (fkind_eqb k k' && feqb x y)
  | VString x, VString y => Some (String.eqb x y)
  | VIface None, VIface None => Some true
  | VIface (Some x), VIface (Some y) =>
      if type_eqb (typeof x) (typeof y) then go_eq x y else Some false
  | VPtr _ None, VPtr _ None => Some true
  | VPtr _ (Some (p, _)), VPtr _ (Some (q, _)) => Some (Pos.eqb p q)
  | VStruct _ fs, VStruct _ gs =>
      (fix fields (l l' : list (string * value)) {struct l} : option bool :=
         match l, l' with
         | [], [] => Some true
         | (_, x) :: r, (_, y) :: r' => and3 (go_eq x y) (fields r r')
         | _, _ => Some false
         end) fs gs
  | VRValue Zero, VRValue Zero => Some true
  | VRValue (Val x), VRValue (Val y) =>
      if type_eqb (typeof x) (typeof y) then None else Some false
  | _, _ => Some false
  end.

(** Whether a value can be a map key: slices, maps and functions cannot, nor
    can an interface or a struct that holds one. *)
Fixpoint hashable (a : value) : bool :=
  match a with
  | VSlice _ _ | VMap _ _ _ | VFunc => false
  | VIface (Some x) => hashable x
  | VStruct _ fs =>
      (fix fields (l : list (string * value)) : bool :=
         match l with
         | [] => true
         | (_, x) :: r => hashable x && fields r
         end) fs
  | _ => true
  end.

Fixpoint mapaccess (k : value) (kvs : list (value * value))
  : result (option value) :=
  match kvs with
  | [] => Ok None
  | (k', v) :: rest =>
      match go_eq k' k with
      | Some true => Ok (Some v)
      | Some false => mapaccess k rest
      | None => match mapaccess k rest with
                | Ok None => Indeterminate
                | r => r
                end
      end
  end.

(** The assignment [m[k] = v], which always succeeds: the entry of an equal
    key is replaced, and a new key is entered after the others.  Where the
    equality of the new key with an old one depends on the identity of two
    [reflect.Value]s, both entries are kept: the list then holds every entry
    the map may have, [mapaccess] answers [Indeterminate] where that identity
    decides, and the number of entries is not known ([settled]). *)
Fixpoint mapassign (k v : value) (kvs : list (value * value))
  : result (list (value * value)) :=
  match kvs with
  | [] => Ok [(k, v)]
  | (k', v') :: rest =>
      match go_eq k' k with
      | Some true => Ok ((k', v) :: rest)
      | Some false | None =>
          let* rest' := mapassign k v rest in Ok ((k', v') :: rest')
      end
  end.

(** Whether the keys of a map are known to differ from one another, so that
    the entries listed are the entries of the map. *)
Fixpoint settled (kvs : list (value * value)) : bool :=
  match kvs with
  | [] => true
  | (k, _) :: rest =>
      forallb (fun kv => match go_eq k (fst kv) with
                         | Some false => true
                         | _ => false
                         end) rest
      && settled rest
  end.

Definition Len (v : Value) : result Z :=
  match v with
  | Val (VSlice _ xs) => Ok (Z.of_nat (List.length xs))
  | Val (VMap _ _ kvs) =>
      if settled kvs then Ok (Z.of_nat (List.length kvs)) else Indeterminate
  | Val (VString s) => Ok (Z.of_nat (String.length s))
  | _ => Panic (ReflectPanic "Len")
  end.

(** A value is assignable to a place of its own type and to an
    [interface{}], which then holds it. *)
Definition assignTo (x : value) (dst : type) : option value :=
  if type_eqb (typeof x) dst then Some x
  else match dst with
       | TInterface => Some (VIface (Some x))
       | _ => None
       end.

Definition MapIndex (v key : Value) : result Value :=
  match v, key with
  | Val (VMap kt _ kvs), Val k =>
      match assignTo k kt with
      | Some k' =>
          if hashable k'
          then let* r := mapaccess k' kvs in
               Ok (match r with Some x => Val x | None => Zero end)
          else Panic (RuntimePanic "hash of unhashable type")
      | None => Panic (ReflectPanic "MapIndex")
      end
  | _, _ => Panic (ReflectPanic "MapIndex")
  end.

Fixpoint deepValueEqual (a b : value) {struct a} : option bool :=
  if negb (type_eqb (typeof a) (typeof b)) then Some false else
  match a, b with
  | VBool x, VBool y => Some (Bool.eqb x y)
  | VInt _ x, VInt _ y => Some (x =? y)
  | VFloat _ x, VFloat _ y => Some (feqb x y)
  | VString x, VString y => Some (String.eqb x y)
  | VIface None, VIface None => Some true
  | VIface (Some x), VIface (Some y) => deepValueEqual x y
  | VSlice _ xs, VSlice _ ys =>
      (fix elems (l l' : list value) {struct l} : option bool :=
         match l, l' with
         | [], [] => Some true
         | x :: r, y :: r' => and3 (deepValueEqual x y) (elems r r')
         | _, _ => Some false
         end) xs ys
  | VMap _ _ kvs, VMap _ _ kvs' =>
      if negb (settled kvs && settled kvs') then None
      else if Nat.eqb (List.length kvs) (List.length kvs')
      then (fix entries (l : list (value * value)) {struct l} : option bool :=
              match l with
              | [] => Some true
              | (k, x) :: r =>
                  and3 (match mapaccess k kvs' with
                        | Ok (Some y) => deepValueEqual x y
                        | Ok None => Some false
                        | _ => None
                        end)
                       (entries r)
              end) kvs
      else Some false
  | VStruct _ fs, VStruct _ gs =>
      (fix fields (l l' : list (string * value)) {struct l} : option bool :=
         match l, l' with
         | [], [] => Some true
         | (_, x) :: r, (_, y) :: r' => and3 (deepValueEqual x y) (fields r r')
         | _, _ => Some false
         end) fs gs
  | VPtr _ None, VPtr _ None => Some true
  | VPtr _ (Some (p, x)), VPtr _ (Some (q, y)) =>
      if Pos.eqb p q then Some true else deepValueEqual x y
  | VRValue Zero, VRValue Zero => Some true
  | VRValue (Val _), VRValue (Val _) => None
  | _, _ => Some false
  end.

Definition DeepEqual (x y : any) : result bool :=
  match x, y with
  | None, None => Ok true
  | Some a, Some b =>
      match deepValueEqual a b with
      | Some r => Ok r
      | None => Indeterminate
      end
  | _, _ => Ok false
  end.

End reflect.

(** ** Package expr: runtime.go *)

Module expr.
Import Go ast fmt reflect.

Definition quote : string := String (ascii_of_nat 34) EmptyString.

Definition fzero : float := S754_zero false.

(** [var null = reflect.ValueOf(nil)] *)
Definition null : Value := ValueOf None.

(** type.go, [dereference] and [isNumberType]; a [reflect.Type] may be nil. *)
Fixpoint dereference_ (t : type) : type :=
  match t with
  | TPtr e => dereference_ e
  | _ => t
  end.

Definition dereference (ntype : option type) : option type :=
  match ntype with
  | None => None
  | Some t => Some (dereference_ t)
  end.

Definition isNumberType (t : option type) : bool :=
  match dereference t with
  | Some t' => match kind_of t' with
               | KFloat _ | KInt _ => true
               | _ => false
               end
  | None => false
  end.

Definition toBool (n : node) (v : Value) : result bool :=
  match Kind v with
  | KBool => BoolOf v
  | _ => panicf "cannot convert %v (type %T) to type bool" [ANode n; AValue v]
  end.

Definition toText (n : node) (v : Value) : result string :=
  match Kind v with
  | KString => Ok (StringOf v)
  | _ => panicf "cannot convert %v (type %T) to type string" [ANode n; AValue v]
  end.

(** [v.Float()] of a float32 is its exact float64; [v.Int()] and [v.Uint()]
    are converted with [float64(...)]. *)
Definition cast (v : Value) : float * bool :=
  match v with
  | Val (VFloat _ f) => (f, true)
  | Val (VInt _ z) => (of_Z Float64 z, true)
  | _ => (fzero, false)
  end.

Definition toNumber (n : node) (v : Value) : result float :=
  let (f, ok) := cast v in
  if ok then Ok f
  else panicf "cannot convert %v (type %T) to type float64" [ANode n; AValue v].

Definition isNumber (v : Value) : result bool :=
  let* t := TypeOf v in
  Ok (match kind_of t with KFloat Float64 => true | _ => false end).

Definition canBeNumber (v : Value) : result bool :=
  let* t := TypeOf v in
  Ok (isNumberType (Some t)).

(** The comparison of an [interface{}] with a float64: equal when the
    interface holds a float64 of that value. *)
Definition any_eq_float64 (i : any) (f : float) : bool :=
  match i with
  | Some (VFloat Float64 x) => feqb x f
  | _ => false
  end.

Definition equal (left right : Value) : result bool :=
  let* ln := isNumber left in
  let* rc := (if ln then canBeNumber right else Ok false) in
  if ln && rc then
    let (r, _) := cast right in
    let* li := Interface left in
    Ok (any_eq_float64 li r)
  else
    let* lc := canBeNumber left in
    let* rn := (if lc then isNumber right else Ok false) in
    if lc && rn then
      let (l, _) := cast left in
      let* ri := Interface right in
      Ok (any_eq_float64 ri l)
    else
      let* li := Interface left in
      let* ri := Interface right in
      DeepEqual li ri.

(** [extract] follows pointers and interfaces; the recursion is on the value
    looked into.  For a slice or a string the index is [int(n)]. *)
Fixpoint extract_in (x : value) (i : Value) {struct x} : result (Value * bool) :=
  match x with
  | VSlice _ _ | VString _ =>
      let (n, ok) := cast i in
      if ok then
        let* value := Index (Val x) (to_int64 n) in
        Ok (value, true)
      else Ok (null, false)
  | VMap _ _ _ =>
      let* value := MapIndex (Val x) i in
      Ok (value, true)
  | VStruct _ _ | VRValue _ =>
      let* value := FieldByName (Val x) (StringOf i) in
      Ok (value, true)
  | VPtr _ (Some (_, y)) => extract_in y i
  | VIface (Some y) => extract_in y i
  | _ => Ok (null, false)
  end.

Definition extract (v i : Value) : result (Value * bool) :=
  match v with
  | Zero => Ok (null, false)
  | Val x => extract_in x i
  end.

(** The loop of [contains] over the elements of a slice. *)
Fixpoint contains_slice (needle : Value) (xs : list value) : result bool :=
  match xs with
  | [] => Ok false
  | y :: rest =>
      let* e := equal (Val y) needle in
      if e then Ok true else contains_slice needle rest
  end.

(** [contains] first asks [array.Interface() != nil], which panics on the
    zero Value and is false for a nil interface.  For a map and for a struct
    the needle, already a [reflect.Value], is passed to [reflect.ValueOf]
    again. *)
Fixpoint contains_in (needle : Value) (x : value) {struct x} : result bool :=
  match x with
  | VIface None => Ok false
  | VSlice _ xs => contains_slice needle xs
  | VMap _ _ _ =>
      let n := ValueOf (Some (VRValue needle)) in
      if negb (IsValid n)
      then Errorf "cannot use %T as index to %T" [AValue needle; AValue (Val x)]
      else
        let* value := MapIndex (Val x) n in
        if IsValid value then Ok true else Ok false
  | VStruct _ _ | VRValue _ =>
      let n := ValueOf (Some (VRValue needle)) in
      if negb (IsValid n) ||
         negb (match Kind n with KString => true | _ => false end)
      then Errorf "cannot use %T as field name of %T"
                  [AValue needle; AValue (Val x)]
      else
        let* value := FieldByName (Val x) (StringOf n) in
        if IsValid value then Ok true else Ok false
  | VPtr _ (Some (_, y)) => contains_in needle y
  | VPtr _ None => Panic (ReflectPanic "Interface")
  | _ =>
      Errorf ("operator " ++ quote ++ "in" ++ quote ++ " not defined on %T")
             [AValue (Val x)]
  end.

Definition contains (needle array : Value) : result bool :=
  match array with
  | Zero => Panic (ReflectPanic "Interface")
  | Val x => contains_in needle x
  end.

Definition isNil (v : Value) : result bool :=
  if negb (IsValid v) then Ok true else IsNil v.

(** ** Package expr: eval.go *)

Definition op_is (operator name : string) : bool := String.eqb operator name.

(** [make([]float64, size)] panics for a negative size. *)
Definition makeRange (min max : Z) : result Value :=
  let size := wrap Int64 (wrap Int64 (max - min) + 1) in
  if 1000000 <? size then
    Errorf "range %v..%v exceeded max size of 1e6" [AInt min; AInt max]
  else if size <? 0 then Panic (RuntimePanic "makeslice: len out of range")
  else
    Ok (Val (VSlice (TFloat Float64)
               (map (fun i => VFloat Float64
                                (of_Z Float64 (wrap Int64 (min + Z.of_nat i))))
                    (seq 0 (Z.to_nat size))))).

(** The operators on numbers of [binaryNode.Eval], after both operands went
    through [toNumber]. *)
Definition number_operator (operator : string) (l r : float) : result Value :=
  if op_is operator "|" then Ok (Val (VInt Int (Z.lor (to_int64 l) (to_int64 r))))
  else if op_is operator "^" then
    Ok (Val (VInt Int (Z.lxor (to_int64 l) (to_int64 r))))
  else if op_is operator "&" then
    Ok (Val (VInt Int (Z.land (to_int64 l) (to_int64 r))))
  else if op_is operator "<" then Ok (Val (VBool (fltb l r)))
  else if op_is operator ">" then Ok (Val (VBool (fltb r l)))
  else if op_is operator ">=" then Ok (Val (VBool (fleb r l)))
  else if op_is operator "<=" then Ok (Val (VBool (fleb l r)))
  else if op_is operator "+" then Ok (Val (VFloat Float64 (fadd Float64 l r)))
  else if op_is operator "-" then Ok (Val (VFloat Float64 (fsub Float64 l r)))
  else if op_is operator "*" then Ok (Val (VFloat Float64 (fmul Float64 l r)))
  else if op_is operator "/" then
    let div := r in
    if feqb div fzero then Errorf "division by zero" []
    else Ok (Val (VFloat Float64 (fdiv Float64 l div)))
  else if op_is operator "%" then
    let numerator := to_int64 l in
    let denominator := to_int64 r in
    if denominator =? 0 then Errorf "division by zero" []
    else Ok (Val (VFloat Float64
                    (of_Z Float64 (wrap Int64 (Z.rem numerator denominator)))))
  else if op_is operator "**" then Indeterminate
  else if op_is operator ".." then makeRange (to_int64 l) (to_int64 r)
  else Errorf "implement %q operator" [AString operator].

Fixpoint Eval (n : node) (env : any) {struct n} : result Value :=
  match n with
  | nilNode => Ok null
  | identifierNode value => Ok (ValueOf (Some (VString value)))
  | numberNode value => Ok (ValueOf (Some (VFloat Float64 value)))
  | boolNode value => Ok (ValueOf (Some (VBool value)))
  | textNode value => Ok (ValueOf (Some (VString value)))
  | nameNode name =>
      let* (v, ok) := extract (ValueOf env) (ValueOf (Some (VString name))) in
      if negb ok then Errorf "undefined: %v" [ANode n]
      else Ok v
  | unaryNode operator node =>
      let* val := Eval node env in
      if op_is operator "not" || op_is operator "!" then
        let* b := toBool n val in
        Ok (ValueOf (Some (VBool (negb b))))
      else
        let* v := toNumber n val in
        if op_is operator "-" then Ok (ValueOf (Some (VFloat Float64 (SFopp v))))
        else if op_is operator "+" then Ok (ValueOf (Some (VFloat Float64 v)))
        else Errorf "implement unary %q operator" [AString operator]
  | binaryNode operator nleft nright =>
      let* vleft := Eval nleft env in
      if op_is operator "or" || op_is operator "||" then
        let* lb := toBool nleft vleft in
        if lb then Ok (ValueOf (Some (VBool true)))
        else
          let* vright := Eval nright env in
          let* rb := toBool nright vright in
          Ok (ValueOf (Some (VBool rb)))
      else if op_is operator "and" || op_is operator "&&" then
        let* lb := toBool nleft vleft in
        if lb then
          let* vright := Eval nright env in
          let* rb := toBool nright vright in
          Ok (ValueOf (Some (VBool rb)))
        else Ok (ValueOf (Some (VBool false)))
      else
        let* vright := Eval nright env in
        if op_is operator "==" then
          let* e := equal vleft vright in
          Ok (ValueOf (Some (VBool e)))
        else if op_is operator "!=" then
          let* e := equal vleft vright in
          Ok (ValueOf (Some (VBool (negb e))))
        else if op_is operator "in" then
          let* ok := contains vleft vright in
          Ok (ValueOf (Some (VBool ok)))
        else if op_is operator "not in" then
          let* ok := contains vleft vright in
          Ok (ValueOf (Some (VBool (negb ok))))
        else if op_is operator "~" then
          let* lt := toText nleft vleft in
          let* rt := toText nright vright in
          Ok (ValueOf (Some (VString (lt ++ rt))))
        else
          let* l := toNumber nleft vleft in
          let* r := toNumber nright vright in
          number_operator operator l r
  | propertyNode node property =>
      let* v := Eval node env in
      let* (p, ok) := extract v (ValueOf (Some (VString property))) in
      if negb ok then
        let* isnil := isNil v in
        if isnil then Errorf "%v is nil" [ANode node]
        else Errorf "%v undefined (type %T has no field %v)"
                    [ANode n; AValue v; AString property]
      else Ok p
  | indexNode node index =>
      let* v := Eval node env in
      let* i := Eval index env in
      let* (p, ok) := extract v i in
      if negb ok then
        Errorf "cannot get %q from %T: %v" [AValue i; AValue v; ANode n]
      else Ok p
  | builtinNode name arguments =>
      if op_is name "len" then
        match arguments with
        | [] => Errorf "missing argument: %v" [ANode n]
        | [a] =>
            let* i := Eval a env in
            (* reflect.TypeOf(i) is the type of a reflect.Value *)
            match kind_of (typeof (VRValue i)) with
            | KSlice | KString =>
                let* len := Len (ValueOf (Some (VRValue i))) in
                Ok (ValueOf (Some (VFloat Float64 (of_Z Float64 len))))
            | _ => Errorf "invalid argument %v (type %T)" [ANode n; AValue i]
            end
        | _ :: _ :: _ => Errorf "too many arguments: %v" [ANode n]
        end
      else Errorf "unknown %q builtin" [AString name]
  | conditionalNode cond exp1 exp2 =>
      let* c := Eval cond env in
      let* b := toBool cond c in
      if b then Eval exp1 env else Eval exp2 env
  | arrayNode nodes =>
      let* array :=
        each (fun node (array : list value) =>
                let* val := Eval node env in
                Ok (array ++ [VIface (Some (VRValue val))])%list)
             nodes [] in
      Ok (ValueOf (Some (VSlice TInterface array)))
  | mapNode pairs =>
      let* m :=
        each (fun (pair : node * node) (m : list (value * value)) =>
                let* key := Eval (fst pair) env in
                let* value := Eval (snd pair) env in
                mapassign (VIface (Some (VRValue key)))
                          (VIface (Some (VRValue value))) m)
             pairs [] in
      Ok (ValueOf (Some (VMap TInterface TInterface m)))
  end.

(** [Run]: a panic of the evaluation is recovered and returned as the error
    [fmt.Errorf("%v", r)]. *)
Definition Run (node : node) (env : any) : result any :=
  match Eval node env with
  | Ok v =>
      if IsValid v then
        let* can := CanInterface v in
        if can then Interface v else Ok None
      else Ok None
  | Error err => Error err
  | Panic r => Errorf "%v" [APanic r]
  | Indeterminate => Indeterminate
  end.

(** ** Package expr: type.go

    The checker over a types table.  A [reflect.Type] may be nil ([None]).
    Struct types have no embedded fields here, and no generated nodes are
    registered with the parser, so a checked node is left as it is. *)

Definition typesTable := list (string * type).

Fixpoint lookup_type (types : typesTable) (name : string) : option type :=
  match types with
  | [] => None
  | (k, t) :: rest => if String.eqb k name then Some t else lookup_type rest name
  end.

Definition nilType : option type := None.
Definition boolType : option type := Some TBool.
Definition numberType : option type := Some (TFloat Float64).
Definition textType : option type := Some TString.
Definition arrayType : option type := Some (TSlice TInterface).
Definition mapType : option type := Some (TMap TInterface TInterface).
Definition interfaceType : option type := Some TInterface.

Definition has_kind (sel : kind -> bool) (t : option type) : bool :=
  match dereference t with
  | Some t' => sel (kind_of t')
  | None => false
  end.

Definition isInterfaceType : option type -> bool :=
  has_kind (fun k => match k with KInterface => true | _ => false end).
Definition isBoolType : option type -> bool :=
  has_kind (fun k => match k with KBool => true | _ => false end).
Definition isStringType : option type -> bool :=
  has_kind (fun k => match k with KString => true | _ => false end).
Definition isArrayType : option type -> bool :=
  has_kind (fun k => match k with KSlice => true | _ => false end).
Definition isMapType : option type -> bool :=
  has_kind (fun k => match k with KMap => true | _ => false end).
Definition isStructType : option type -> bool :=
  has_kind (fun k => match k with KStruct => true | _ => false end).

Definition isComparable (l r : option type) : bool :=
  match dereference l, dereference r with
  | None, _ | _, None => true
  | Some l', Some r' =>
      if isNumberType (Some l') && isNumberType (Some r') then true
      else if match kind_of l' with KInterface => true | _ => false end then true
      else if match kind_of r' with KInterface => true | _ => false end then true
      else type_eqb l' r'
  end.

Fixpoint field_named (name : string) (fs : list (string * type)) : option type :=
  match fs with
  | [] => None
  | (f, t) :: rest => if String.eqb f name then Some t else field_named name rest
  end.

Definition fieldType (ntype : option type) (name : string) : option type * bool :=
  match dereference ntype with
  | Some TInterface => (interfaceType, true)
  | Some (TStruct _ fs) =>
      match field_named name fs with
      | Some t => (Some t, true)
      | None => (None, false)
      end
  | Some (TMap _ e) => (Some e, true)
  | _ => (None, false)
  end.

Definition indexType (ntype : option type) : option type * bool :=
  match dereference ntype with
  | Some TInterface => (interfaceType, true)
  | Some (TMap _ e) | Some (TSlice e) => (Some e, true)
  | _ => (None, false)
  end.

(** [t1.AssignableTo(t2)]: the types are identical, or [t2] is
    [interface{}]. *)
Definition AssignableTo (t1 t2 : type) : bool :=
  type_eqb t1 t2 || match t2 with TInterface => true | _ => false end.

Definition mismatched {A : Type} (n : node) (l r : option type) : result A :=
  Errorf "invalid operation: %v (mismatched types %v and %v)"
         [ANode n; AType l; AType r].

Definition number_or_interface (t : option type) : bool :=
  isNumberType t || isInterfaceType t.

(** The method [Type] of every node ([Type] is a keyword of Rocq). *)
Fixpoint TypeCheck (types : typesTable) (n : node) {struct n}
  : result (option type) :=
  match n with
  | nilNode => Ok None
  | identifierNode _ => Ok textType
  | numberNode _ => Ok numberType
  | boolNode _ => Ok boolType
  | textNode _ => Ok textType
  | nameNode name =>
      match lookup_type types name with
      | Some t => Ok (Some t)
      | None => Errorf "unknown name %v" [ANode n]
      end
  | unaryNode operator node =>
      let* ntype := TypeCheck types node in
      if op_is operator "!" || op_is operator "not" then
        if isBoolType ntype || isInterfaceType ntype then Ok boolType
        else Errorf "invalid operation: %v (mismatched type %v)"
                    [ANode n; AType ntype]
      else Ok interfaceType
  | binaryNode operator nleft nright =>
      let* ltype := TypeCheck types nleft in
      let* rtype := TypeCheck types nright in
      if op_is operator "==" || op_is operator "!=" then
        if isComparable ltype rtype then Ok boolType
        else mismatched n ltype rtype
      else if op_is operator "or" || op_is operator "||" ||
              op_is operator "and" || op_is operator "&&" then
        if (isBoolType ltype || isInterfaceType ltype) &&
           (isBoolType rtype || isInterfaceType rtype) then Ok boolType
        else mismatched n ltype rtype
      else if op_is operator "in" || op_is operator "not in" then
        if (isStringType ltype || isInterfaceType ltype) &&
           (isStructType rtype || isInterfaceType rtype) then Ok boolType
        else if isArrayType rtype || isMapType rtype || isInterfaceType rtype
        then Ok boolType
        else mismatched n ltype rtype
      else if op_is operator "<" || op_is operator ">" ||
              op_is operator ">=" || op_is operator "<=" then
        if number_or_interface ltype && number_or_interface rtype
        then Ok boolType
        else mismatched n ltype rtype
      else if op_is operator "/" || op_is operator "+" || op_is operator "-" ||
              op_is operator "*" || op_is operator "**" || op_is operator "|" ||
              op_is operator "^" || op_is operator "&" || op_is operator "%" then
        if number_or_interface ltype && number_or_interface rtype
        then Ok numberType
        else mismatched n ltype rtype
      else if op_is operator ".." then
        if number_or_interface ltype && number_or_interface rtype
        then Ok arrayType
        else mismatched n ltype rtype
      else if op_is operator "~" then
        if (isStringType ltype || isInterfaceType ltype) &&
           (isStringType rtype || isInterfaceType rtype) then Ok textType
        else mismatched n ltype rtype
      else Ok interfaceType
  | propertyNode node property =>
      let* ntype := TypeCheck types node in
      match fieldType ntype property with
      | (t, true) => Ok t
      | (_, false) =>
          Errorf "%v undefined (type %v has no field %v)"
                 [ANode n; AType ntype; AString property]
      end
  | indexNode node index =>
      let* ntype := TypeCheck types node in
      let* _ := TypeCheck types index in
      match indexType ntype with
      | (t, true) => Ok t
      | (_, false) =>
          Errorf "invalid operation: %v (type %v does not support indexing)"
                 [ANode n; AType ntype]
      end
  | builtinNode name arguments =>
      let* _ :=
        each (fun node (_ : unit) => let* _ := TypeCheck types node in Ok tt)
             arguments tt in
      if op_is name "len" then Ok numberType
      else Errorf "%v undefined" [ANode n]
  | conditionalNode cond exp1 exp2 =>
      let* ctype := TypeCheck types cond in
      if negb (isBoolType ctype) && negb (isInterfaceType ctype) then
        Errorf "non-bool %v (type %v) used as condition" [ANode cond; AType ctype]
      else
        let* t1 := TypeCheck types exp1 in
        let* t2 := TypeCheck types exp2 in
        match t1, t2 with
        | None, Some _ => Ok t2
        | Some _, None => Ok t1
        | None, None => Ok nilType
        | Some a, Some b => if AssignableTo a b then Ok t1 else Ok interfaceType
        end
  | arrayNode nodes =>
      let* _ :=
        each (fun node (_ : unit) => let* _ := TypeCheck types node in Ok tt)
             nodes tt in
      Ok arrayType
  | mapNode pairs =>
      let* _ :=
        each (fun (pair : node * node) (_ : unit) =>
                let* _ := TypeCheck types (fst pair) in
                let* _ := TypeCheck types (snd pair) in
                Ok tt)
             pairs tt in
      Ok mapType
  end.

End expr.


(** ** Package vm: the operand helpers

    The helpers switch on the dynamic type of the left operand and assert the
    same type on the right one ([b.(T)]); the assertion panics when the right
    operand has another type.  The source writes one case per numeric type,
    all alike; here one case stands for every integer kind and one for both
    float kinds. *)

Module vm.
Import Go fmt reflect.

Definition conversion {A : Type} : result A :=
  Panic (RuntimePanic "interface conversion").

Definition divide_by_zero {A : Type} : result A :=
  Panic (RuntimePanic "integer divide by zero").

(** [make([]int, size)] panics when the size is negative or the slice would
    pass the largest allocation of the platform (2^48 bytes). *)
Definition max_len_int : Z := 2 ^ 45.

Definition toInt (a : any) : result Z :=
  match a with
  | Some (VFloat _ x) => Ok (to_int64 x)
  | Some (VInt _ x) => Ok (wrap Int x)
  | _ => panicf "invalid operation: int(%T)" [AAny a]
  end.

Definition toFloat64 (a : any) : result float :=
  match a with
  | Some (VFloat _ x) => Ok x
  | Some (VInt _ x) => Ok (of_Z Float64 x)
  | _ => panicf "invalid operation: float64(%T)" [AAny a]
  end.

(** [fetch] follows pointers; the recursion is on the value looked into.
    [value.Interface()] of what a pointer points to is that value, or what it
    holds when it is an interface. *)
Fixpoint fetch_in (from : value) (i : any) {struct from} : result any :=
  match from with
  | VSlice _ _ | VString _ =>
      let* index := toInt i in
      let* value := Index (Val from) index in
      Interface value
  | VMap _ _ _ =>
      let* value := MapIndex (Val from) (ValueOf i) in
      if IsValid value then Interface value
      else panicf "%v doesn't contains %v" [AAny (Some from); AAny i]
  | VStruct _ _ | VRValue _ =>
      let* value := FieldByName (Val from) (StringOf (ValueOf i)) in
      if IsValid value then Interface value
      else panicf "%v doesn't contains %v" [AAny (Some from); AAny i]
  | VPtr _ (Some (_, VIface (Some y))) => fetch_in y i
  | VPtr _ (Some (_, VIface None)) =>
      panicf "%v doesn't contains %v" [AAny None; AAny i]
  | VPtr _ (Some (_, x)) => fetch_in x i
  | _ => panicf "%v doesn't contains %v" [AAny (Some from); AAny i]
  end.

Definition fetch (from i : any) : result any :=
  match from with
  | None => panicf "%v doesn't contains %v" [AAny from; AAny i]
  | Some x => fetch_in x i
  end.

Definition equal (a b : any) : result bool :=
  match a with
  | Some (VFloat k x) =>
      match b with
      | Some (VFloat k' y) => if fkind_eqb k k' then Ok (feqb x y) else conversion
      | _ => conversion
      end
  | Some (VInt k x) =>
      match b with
      | Some (VInt k' y) => if ikind_eqb k k' then Ok (x =? y) else conversion
      | _ => conversion
      end
  | Some (VString x) =>
      match b with
      | Some (VString y) => Ok (String.eqb x y)
      | _ => conversion
      end
  | _ => DeepEqual a b
  end.

Definition quote : string := String (ascii_of_nat 34) EmptyString.

(** The loop of [in] over the elements of a slice. *)
Fixpoint in_slice (needle : any) (xs : list value) : result bool :=
  match xs with
  | [] => Ok false
  | y :: rest =>
      let* x := Interface (Val y) in
      let* e := equal x needle in
      if e then Ok true else in_slice needle rest
  end.

Fixpoint in_in (needle : any) (array : value) {struct array} : result bool :=
  match array with
  | VSlice _ xs => in_slice needle xs
  | VMap _ _ _ =>
      let n := ValueOf needle in
      if negb (IsValid n)
      then panicf "cannot use %T as index to %T" [AAny needle; AAny (Some array)]
      else
        let* value := MapIndex (Val array) n in
        if IsValid value then Ok true else Ok false
  | VStruct _ _ | VRValue _ =>
      let n := ValueOf needle in
      if negb (IsValid n) ||
         negb (match Kind n with KString => true | _ => false end)
      then panicf "cannot use %T as field name of %T"
                  [AAny needle; AAny (Some array)]
      else
        let* value := FieldByName (Val array) (StringOf n) in
        if IsValid value then Ok true else Ok false
  | VPtr _ (Some (_, VIface (Some y))) => in_in needle y
  | VPtr _ (Some (_, VIface None)) => Ok false       (* in(needle, nil) *)
  | VPtr _ (Some (_, x)) => in_in needle x
  | VPtr _ None => Ok false
  | _ =>
      panicf ("operator " ++ quote ++ "in" ++ quote ++ quote ++
              " not defined on %T") [AAny (Some array)]
  end.

(** [in] is a keyword of Rocq. *)
Definition in_ (needle array : any) : result bool :=
  match array with
  | None => Ok false
  | Some x => in_in needle x
  end.

Definition length (a : any) : result Z :=
  match Kind (ValueOf a) with
  | KSlice | KString => Len (ValueOf a)
  | _ => panicf "invalid argument for len (type %T)" [AAny a]
  end.

(** The arithmetic of an integer kind wraps around; integer division
    truncates toward zero and panics on a zero divisor. *)
Definition negate (i : any) : result any :=
  match i with
  | Some (VFloat k v) => Ok (Some (VFloat k (SFopp v)))
  | Some (VInt k v) => Ok (Some (VInt k (wrap k (- v))))
  | _ => panicf "invalid operation: - %T" [AAny i]
  end.

Definition inc (i : any) : result any :=
  match i with
  | Some (VFloat k v) => Ok (Some (VFloat k (fadd k v (of_Z k 1))))
  | Some (VInt k v) => Ok (Some (VInt k (wrap k (v + 1))))
  | _ => panicf "invalid operation: %T + 1" [AAny i]
  end.

(** The shape shared by the binary helpers: [ff] on two floats of one kind,
    [fi] on two integers of one kind, [fs] on two strings where the helper
    has a string case. *)
Definition binary (symbol : string)
  (ff : fkind -> float -> float -> result value)
  (fi : ikind -> Z -> Z -> result value)
  (fs : option (string -> string -> value))
  (a b : any) : result any :=
  match a with
  | Some (VFloat k x) =>
      match b with
      | Some (VFloat k' y) =>
          if fkind_eqb k k' then let* r := ff k x y in Ok (Some r)
          else conversion
      | _ => conversion
      end
  | Some (VInt k x) =>
      match b with
      | Some (VInt k' y) =>
          if ikind_eqb k k' then let* r := fi k x y in Ok (Some r)
          else conversion
      | _ => conversion
      end
  | Some (VString x) =>
      match fs with
      | Some f =>
          match b with
          | Some (VString y) => Ok (Some (f x y))
          | _ => conversion
          end
      | None =>
          panicf ("invalid operation: %T " ++ symbol ++ " %T") [AAny a; AAny b]
      end
  | _ => panicf ("invalid operation: %T " ++ symbol ++ " %T") [AAny a; AAny b]
  end.

Definition less : any -> any -> result any :=
  binary "<" (fun _ x y => Ok (VBool (fltb x y)))
             (fun _ x y => Ok (VBool (x <? y)))
             (Some (fun x y => VBool (String.ltb x y))).

Definition more : any -> any -> result any :=
  binary ">" (fun _ x y => Ok (VBool (fltb y x)))
             (fun _ x y => Ok (VBool (y <? x)))
             (Some (fun x y => VBool (String.ltb y x))).

Definition lessOrEqual : any -> any -> result any :=
  binary "<=" (fun _ x y => Ok (VBool (fleb x y)))
              (fun _ x y => Ok (VBool (x <=? y)))
              (Some (fun x y => VBool (String.leb x y))).

Definition moreOrEqual : any -> any -> result any :=
  binary ">=" (fun _ x y => Ok (VBool (fleb y x)))
              (fun _ x y => Ok (VBool (y <=? x)))
              (Some (fun x y => VBool (String.leb y x))).

Definition add : any -> any -> result any :=
  binary "+" (fun k x y => Ok (VFloat k (fadd k x y)))
             (fun k x y => Ok (VInt k (wrap k (x + y))))
             (Some (fun x y => VString (x ++ y))).

Definition subtract : any -> any -> result any :=
  binary "-" (fun k x y => Ok (VFloat k (fsub k x y)))
             (fun k x y => Ok (VInt k (wrap k (x - y))))
             None.

Definition multiply : any -> any -> result any :=
  binary "*" (fun k x y => Ok (VFloat k (fmul k x y)))
             (fun k x y => Ok (VInt k (wrap k (x * y))))
             None.

Definition divide : any -> any -> result any :=
  binary "/" (fun k x y => Ok (VFloat k (fdiv k x y)))
             (fun k x y => if y =? 0 then divide_by_zero
                           else Ok (VInt k (wrap k (Z.quot x y))))
             None.

(** [modulo] has no case for floats. *)
Definition modulo (a b : any) : result any :=
  match a with
  | Some (VInt k x) =>
      match b with
      | Some (VInt k' y) =>
          if ikind_eqb k k'
          then if y =? 0 then divide_by_zero
               else Ok (Some (VInt k (wrap k (Z.rem x y))))
          else conversion
      | _ => conversion
      end
  | _ => panicf "invalid operation: %T %v %T" [AAny a; AString "%"; AAny b]
  end.

Definition exponent (a b : any) : result float :=
  let* x := toFloat64 a in
  let* y := toFloat64 b in
  Indeterminate.

Definition makeRange (a b : any) : result value :=
  let* min := toInt a in
  let* max := toInt b in
  let size := wrap Int (wrap Int (max - min) + 1) in
  if (size <? 0) || (max_len_int <? size)
  then Panic (RuntimePanic "makeslice: len out of range")
  else Ok (VSlice (TInt Int)
             (map (fun i => VInt Int (wrap Int (min + Z.of_nat i)))
                  (seq 0 (Z.to_nat size)))).

End vm.

(** ** The compiler and the loop of the virtual machine

    Modelled from the spec: the compiler and the dispatch loop of the virtual
    machine are not among the sources; only the operand helpers of package
    [vm] above are.  The definitions of this module follow sections 3.4, 4.4
    and 4.5 of the specification: a program is a constant pool with a byte
    code, an instruction is one opcode byte followed by 16-bit little-endian
    operands, jump offsets are signed and relative to the byte after the
    operand, and the conditional jumps leave the tested value on the stack.
    The opcodes are numbered in the order of the table of section 4.5.  An
    integer operand is pushed as an int64, the integer tag of section 3.5. *)

Module machine.
Import Go ast fmt reflect.

(** Modelled from the spec: the opcodes of the table of section 4.5, which
    are declared in a file of package [vm] that is not among the sources. *)
Inductive opcode : Set :=
| OpPush | OpPop | OpConst | OpFetch | OpTrue | OpFalse | OpNil
| OpNegate | OpNot | OpEqual | OpNotEqual
| OpLess | OpMore | OpLessEq | OpMoreEq
| OpAdd | OpSub | OpMul | OpDiv | OpMod | OpExp
| OpConcat | OpBitOr | OpBitXor | OpBitAnd | OpRange | OpMatches
| OpIn | OpNotIn | OpIndex | OpProperty
| OpJump | OpJumpIfTrue | OpJumpIfFalse
| OpCall | OpArray | OpMap.

Definition opcodes : list opcode :=
  [OpPush; OpPop; OpConst; OpFetch; OpTrue; OpFalse; OpNil;
   OpNegate; OpNot; OpEqual; OpNotEqual;
   OpLess; OpMore; OpLessEq; OpMoreEq;
   OpAdd; OpSub; OpMul; OpDiv; OpMod; OpExp;
   OpConcat; OpBitOr; OpBitXor; OpBitAnd; OpRange; OpMatches;
   OpIn; OpNotIn; OpIndex; OpProperty;
   OpJump; OpJumpIfTrue; OpJumpIfFalse;
   OpCall; OpArray; OpMap].

Definition opcode_eqb (a b : opcode) : bool :=
  match a, b with
  | OpPush, OpPush | OpPop, OpPop | OpConst, OpConst | OpFetch, OpFetch
  | OpTrue, OpTrue | OpFalse, OpFalse | OpNil, OpNil
  | OpNegate, OpNegate | OpNot, OpNot | OpEqual, OpEqual
  | OpNotEqual, OpNotEqual | OpLess, OpLess | OpMore, OpMore
  | OpLessEq, OpLessEq | OpMoreEq, OpMoreEq | OpAdd, OpAdd | OpSub, OpSub
  | OpMul, OpMul | OpDiv, OpDiv | OpMod, OpMod | OpExp, OpExp
  | OpConcat, OpConcat | OpBitOr, OpBitOr | OpBitXor, OpBitXor
  | OpBitAnd, OpBitAnd | OpRange, OpRange | OpMatches, OpMatches
  | OpIn, OpIn | OpNotIn, OpNotIn | OpIndex, OpIndex
  | OpProperty, OpProperty | OpJump, OpJump | OpJumpIfTrue, OpJumpIfTrue
  | OpJumpIfFalse, OpJumpIfFalse | OpCall, OpCall | OpArray, OpArray
  | OpMap, OpMap => true
  | _, _ => false
  end.

Fixpoint position (o : opcode) (l : list opcode) : nat :=
  match l with
  | [] => 0
  | x :: rest => if opcode_eqb x o then 0 else S (position o rest)
  end.

(** The byte of an opcode, and the opcode of a byte. *)
Definition byte_of (o : opcode) : Z := Z.of_nat (position o opcodes).

Definition opcode_of (b : Z) : option opcode :=
  if b <? 0 then None else nth_error opcodes (Z.to_nat b).

(** Modelled from the spec: [Program] of section 3.4. *)
Record Program : Set := { Constants : list any; Bytecode : list Z }.

(** *** The compiler *)

(** A 16-bit operand, low byte first. *)
Definition u16 (z : Z) : list Z := [z mod 256; (z / 256) mod 256].

(** Constants that are trivially comparable are deduplicated. *)
Definition same_constant (a b : any) : bool :=
  match a, b with
  | Some (VString x), Some (VString y) => String.eqb x y
  | Some (VInt k x), Some (VInt k' y) => ikind_eqb k k' && (x =? y)
  | Some (VFloat k x), Some (VFloat k' y) => fkind_eqb k k' && feqb x y
  | _, _ => false
  end.

Fixpoint index_of (c : any) (cs : list any) (i : nat) : option nat :=
  match cs with
  | [] => None
  | x :: rest => if same_constant x c then Some i else index_of c rest (S i)
  end.

Definition addConstant (c : any) (cs : list any) : Z * list any :=
  match index_of c cs 0 with
  | Some i => (Z.of_nat i, cs)
  | None => (Z.of_nat (List.length cs), (cs ++ [c])%list)
  end.

(** The constant [Call{Name, Size}] of package [vm]. *)
Definition Call (name : string) (size : nat) : value :=
  VStruct "vm.Call" [("Name", VString name); ("Size", VInt Int (Z.of_nat size))].

(** The integer a number literal denotes, when it denotes one. *)
Definition integral (f : float) : option Z :=
  match truncate f with
  | Some z => if feqb (of_Z Float64 z) f then Some z else None
  | None => None
  end.

(** Modelled from the spec: a number literal with an integer value in
    [0, 65535] is an operand of [OpPush]; any other becomes a constant, an
    int64 when it is an integer that fits (as in the compiler's test), a
    float64 otherwise. *)
Definition number_literal (f : float) : Z + value :=
  match integral f with
  | Some z =>
      if (0 <=? z) && (z <=? 65535) then inl z
      else if (min_int Int64 <=? z) && (z <=? max_int Int64)
           then inr (VInt Int64 z)
           else inr (VFloat Float64 f)
  | None => inr (VFloat Float64 f)
  end.

Definition CompileError {A : Type} (message : string) : result A :=
  Errorf message [].

(** A jump over [len] bytes; the offset has to fit a signed 16-bit operand. *)
Definition jump (o : opcode) (len : nat) : result (list Z) :=
  if Z.of_nat len <=? 32767 then Ok (byte_of o :: u16 (Z.of_nat len))
  else CompileError "jump offset overflow".

Definition binary_opcode (operator : string) : option opcode :=
  if String.eqb operator "==" then Some OpEqual
  else if String.eqb operator "!=" then Some OpNotEqual
  else if String.eqb operator "<" then Some OpLess
  else if String.eqb operator ">" then Some OpMore
  else if String.eqb operator "<=" then Some OpLessEq
  else if String.eqb operator ">=" then Some OpMoreEq
  else if String.eqb operator "+" then Some OpAdd
  else if String.eqb operator "-" then Some OpSub
  else if String.eqb operator "*" then Some OpMul
  else if String.eqb operator "/" then Some OpDiv
  else if String.eqb operator "%" then Some OpMod
  else if String.eqb operator "**" then Some OpExp
  else if String.eqb operator "~" then Some OpConcat
  else if String.eqb operator "|" then Some OpBitOr
  else if String.eqb operator "^" then Some OpBitXor
  else if String.eqb operator "&" then Some OpBitAnd
  else if String.eqb operator ".." then Some OpRange
  else if String.eqb operator "in" then Some OpIn
  else if String.eqb operator "not in" then Some OpNotIn
  else None.

(** Modelled from the spec: the compiler, which is not among the sources
    (section 4.4).  [compile n cs] is the code of [n] with the constant pool
    [cs] grown by the constants of [n]; because jumps are relative, the code
    of a node does not depend on where it is placed, and patching a forward
    offset amounts to measuring the code jumped over.  [and] and [or]: the
    left operand, a conditional jump, [OpPop], the right operand.  The
    conditional: the condition, [OpJumpIfFalse], [OpPop], the first branch,
    [OpJump], the second branch. *)
Fixpoint compile (n : node) (cs : list any) {struct n}
  : result (list Z * list any) :=
  match n with
  | nilNode => Ok ([byte_of OpNil], cs)
  | boolNode true => Ok ([byte_of OpTrue], cs)
  | boolNode false => Ok ([byte_of OpFalse], cs)
  | numberNode value =>
      match number_literal value with
      | inl z => Ok (byte_of OpPush :: u16 z, cs)
      | inr c =>
          let (i, cs') := addConstant (Some c) cs in
          Ok (byte_of OpConst :: u16 i, cs')
      end
  | textNode value | identifierNode value =>
      let (i, cs') := addConstant (Some (VString value)) cs in
      Ok (byte_of OpConst :: u16 i, cs')
  | nameNode name =>
      let (i, cs') := addConstant (Some (VString name)) cs in
      Ok (byte_of OpFetch :: u16 i, cs')
  | unaryNode operator node =>
      let* (code, cs') := compile node cs in
      if String.eqb operator "-" then Ok ((code ++ [byte_of OpNegate])%list, cs')
      else if String.eqb operator "!" || String.eqb operator "not"
      then Ok ((code ++ [byte_of OpNot])%list, cs')
      else if String.eqb operator "+" then Ok (code, cs')
      else CompileError "unknown operator"
  | binaryNode operator nleft nright =>
      let* (cl, cs1) := compile nleft cs in
      let* (cr, cs2) := compile nright cs1 in
      if String.eqb operator "and" || String.eqb operator "&&" then
        let* j := jump OpJumpIfFalse (S (List.length cr)) in
        Ok ((cl ++ j ++ [byte_of OpPop] ++ cr)%list, cs2)
      else if String.eqb operator "or" || String.eqb operator "||" then
        let* j := jump OpJumpIfTrue (S (List.length cr)) in
        Ok ((cl ++ j ++ [byte_of OpPop] ++ cr)%list, cs2)
      else
        match binary_opcode operator with
        | Some o => Ok ((cl ++ cr ++ [byte_of o])%list, cs2)
        | None => CompileError "unknown operator"
        end
  | conditionalNode cond exp1 exp2 =>
      let* (cc, cs1) := compile cond cs in
      let* (c1, cs2) := compile exp1 cs1 in
      let* (c2, cs3) := compile exp2 cs2 in
      let* j2 := jump OpJump (List.length c2) in
      let* j1 := jump OpJumpIfFalse (S (List.length c1) + List.length j2) in
      Ok ((cc ++ j1 ++ [byte_of OpPop] ++ c1 ++ j2 ++ c2)%list, cs3)
  | propertyNode node property =>
      let* (code, cs1) := compile node cs in
      let (i, cs2) := addConstant (Some (VString property)) cs1 in
      Ok ((code ++ byte_of OpProperty :: u16 i)%list, cs2)
  | indexNode node index =>
      let* (code, cs1) := compile node cs in
      let* (ci, cs2) := compile index cs1 in
      Ok ((code ++ ci ++ [byte_of OpIndex])%list, cs2)
  | arrayNode nodes =>
      let* (code, cs') :=
        each (fun node (st : list Z * list any) =>
                let* (c, cs') := compile node (snd st) in
                Ok ((fst st ++ c)%list, cs'))
             nodes ([], cs) in
      Ok ((code ++ byte_of OpArray :: u16 (Z.of_nat (List.length nodes)))%list, cs')
  | mapNode pairs =>
      let* (code, cs') :=
        each (fun (pair : node * node) (st : list Z * list any) =>
                let* (ck, cs1) := compile (fst pair) (snd st) in
                let* (cv, cs2) := compile (snd pair) cs1 in
                Ok ((fst st ++ ck ++ cv)%list, cs2))
             pairs ([], cs) in
      Ok ((code ++ byte_of OpMap :: u16 (Z.of_nat (List.length pairs)))%list, cs')
  | builtinNode name arguments =>
      let* (code, cs') :=
        each (fun node (st : list Z * list any) =>
                let* (c, cs') := compile node (snd st) in
                Ok ((fst st ++ c)%list, cs'))
             arguments ([], cs) in
      let (i, cs2) := addConstant (Some (Call name (List.length arguments))) cs' in
      Ok ((code ++ byte_of OpCall :: u16 i)%list, cs2)
  end.

(** Modelled from the spec: [Compile] of section 6.2, from an empty pool. *)
Definition Compile (n : node) : result Program :=
  let* (code, cs) := compile n [] in
  Ok {| Constants := cs; Bytecode := code |}.

(** *** The machine *)

Definition out_of_range {A : Type} : result A :=
  Panic (RuntimePanic "index out of range").

(** The 16-bit operand at [pc], unsigned and signed. *)
Definition arg (code : list Z) (pc : nat) : result Z :=
  match nth_error code pc, nth_error code (S pc) with
  | Some lo, Some hi => Ok (lo + 256 * hi)
  | _, _ => out_of_range
  end.

Definition signed16 (u : Z) : Z := if u <? 32768 then u else u - 65536.

Definition constant (p : Program) (i : Z) : result any :=
  if i <? 0 then out_of_range
  else match nth_error (Constants p) (Z.to_nat i) with
       | Some c => Ok c
       | None => out_of_range
       end.

Definition pop (stack : list any) : result (any * list any) :=
  match stack with
  | x :: rest => Ok (x, rest)
  | [] => out_of_range
  end.

(** [a.(bool)], [a.(string)] *)
Definition as_bool (a : any) : result bool :=
  match a with
  | Some (VBool b) => Ok b
  | _ => vm.conversion
  end.

Definition as_string (a : any) : result string :=
  match a with
  | Some (VString s) => Ok s
  | _ => vm.conversion
  end.

(** A binary instruction pops the right operand, then the left one, and
    pushes the result of the helper. *)
Definition binop (f : any -> any -> result any) (pc : nat) (stack : list any)
  : result (nat * list any) :=
  let* (b, s1) := pop stack in
  let* (a, s2) := pop s1 in
  let* r := f a b in
  Ok (S pc, r :: s2).

Definition goto (pc : nat) (offset : Z) : result nat :=
  let target := Z.of_nat pc + 3 + offset in
  if target <? 0 then out_of_range else Ok (Z.to_nat target).

Fixpoint popn (n : nat) (stack : list any) (acc : list any)
  : result (list any * list any) :=
  match n with
  | O => Ok (acc, stack)
  | S m => let* (x, rest) := pop stack in popn m rest (x :: acc)
  end.

(** The operands of [OpMap], key then value, entered into a map in order. *)
Fixpoint entries (xs : list any) (m : list (value * value))
  : result (list (value * value)) :=
  match xs with
  | k :: v :: rest =>
      if hashable (VIface k) then
        let* m' := mapassign (VIface k) (VIface v) m in entries rest m'
      else Panic (RuntimePanic "hash of unhashable type")
  | _ => Ok m
  end.

(** Modelled from the spec: the dispatch of the machine, which is not among
    the sources (the table of section 4.5); the operand helpers it calls are
    those of package [vm] above.  One instruction gives the next program
    counter and the stack after it.  The bitwise instructions, [OpMatches]
    and [OpCall], whose helpers are not among the sources, are left open. *)
Definition step (p : Program) (env : any) (pc : nat) (stack : list any)
  : result (nat * list any) :=
  let code := Bytecode p in
  match nth_error code pc with
  | None => out_of_range
  | Some b =>
      match opcode_of b with
      | None => Indeterminate
      | Some OpPush =>
          let* n := arg code (S pc) in
          Ok (pc + 3, Some (VInt Int64 n) :: stack)%nat
      | Some OpPop =>
          let* (_, rest) := pop stack in Ok (S pc, rest)
      | Some OpConst =>
          let* i := arg code (S pc) in
          let* c := constant p i in
          Ok (pc + 3, c :: stack)%nat
      | Some OpFetch =>
          let* i := arg code (S pc) in
          let* c := constant p i in
          let* v := vm.fetch env c in
          Ok (pc + 3, v :: stack)%nat
      | Some OpTrue => Ok (S pc, Some (VBool true) :: stack)
      | Some OpFalse => Ok (S pc, Some (VBool false) :: stack)
      | Some OpNil => Ok (S pc, None :: stack)
      | Some OpNegate =>
          let* (a, rest) := pop stack in
          let* r := vm.negate a in
          Ok (S pc, r :: rest)
      | Some OpNot =>
          let* (a, rest) := pop stack in
          let* b := as_bool a in
          Ok (S pc, Some (VBool (negb b)) :: rest)
      | Some OpEqual =>
          binop (fun a b => let* e := vm.equal a b in Ok (Some (VBool e)))
                pc stack
      | Some OpNotEqual =>
          binop (fun a b => let* e := vm.equal a b in Ok (Some (VBool (negb e))))
                pc stack
      | Some OpLess => binop vm.less pc stack
      | Some OpMore => binop vm.more pc stack
      | Some OpLessEq => binop vm.lessOrEqual pc stack
      | Some OpMoreEq => binop vm.moreOrEqual pc stack
      | Some OpAdd => binop vm.add pc stack
      | Some OpSub => binop vm.subtract pc stack
      | Some OpMul => binop vm.multiply pc stack
      | Some OpDiv => binop vm.divide pc stack
      | Some OpMod => binop vm.modulo pc stack
      | Some OpConcat =>
          binop (fun a b =>
                   let* x := as_string a in
                   let* y := as_string b in
                   Ok (Some (VString (x ++ y))))
                pc stack
      | Some OpRange =>
          binop (fun a b => let* r := vm.makeRange a b in Ok (Some r)) pc stack
      | Some OpIn =>
          binop (fun a b => let* r := vm.in_ a b in Ok (Some (VBool r))) pc stack
      | Some OpNotIn =>
          binop (fun a b => let* r := vm.in_ a b in Ok (Some (VBool (negb r))))
                pc stack
      | Some OpIndex => binop vm.fetch pc stack
      | Some OpProperty =>
          let* i := arg code (S pc) in
          let* c := constant p i in
          let* (a, rest) := pop stack in
          let* v := vm.fetch a c in
          Ok (pc + 3, v :: rest)%nat
      | Some OpJump =>
          let* u := arg code (S pc) in
          let* pc' := goto pc (signed16 u) in
          Ok (pc', stack)
      | Some OpJumpIfTrue =>
          let* u := arg code (S pc) in
          match stack with
          | top :: _ =>
              let* b := as_bool top in
              if b then let* pc' := goto pc (signed16 u) in Ok (pc', stack)
              else Ok (pc + 3, stack)%nat
          | [] => out_of_range
          end
      | Some OpJumpIfFalse =>
          let* u := arg code (S pc) in
          match stack with
          | top :: _ =>
              let* b := as_bool top in
              if b then Ok (pc + 3, stack)%nat
              else let* pc' := goto pc (signed16 u) in Ok (pc', stack)
          | [] => out_of_range
          end
      | Some OpArray =>
          let* n := arg code (S pc) in
          let* (xs, rest) := popn (Z.to_nat n) stack [] in
          Ok (pc + 3, Some (VSlice TInterface (map VIface xs)) :: rest)%nat
      | Some OpMap =>
          let* n := arg code (S pc) in
          let* (xs, rest) := popn (2 * Z.to_nat n) stack [] in
          let* m := entries xs [] in
          Ok (pc + 3, Some (VMap TInterface TInterface m) :: rest)%nat
      | Some OpExp =>
          binop (fun a b =>
                   let* r := vm.exponent a b in Ok (Some (VFloat Float64 r)))
                pc stack
      | Some OpBitOr | Some OpBitXor | Some OpBitAnd
      | Some OpMatches | Some OpCall => Indeterminate
      end
  end.

(** Modelled from the spec: the loop of the machine (section 4.5).  It halts
    when the program counter reaches the end of the byte code; the result is
    the top of the stack, or nil when the stack is empty.  [None]: the fuel
    ran out first. *)
Fixpoint exec (fuel : nat) (p : Program) (env : any) (pc : nat)
  (stack : list any) {struct fuel} : option (result any) :=
  if (List.length (Bytecode p) <=? pc)%nat then
    Some (Ok (match stack with x :: _ => x | [] => None end))
  else
    match fuel with
    | O => None
    | S fuel' =>
        match step p env pc stack with
        | Ok (pc', stack') => exec fuel' p env pc' stack'
        | Error e => Some (Error e)
        | Panic r => Some (Panic r)
        | Indeterminate => Some Indeterminate
        end
    end.

(** Modelled from the spec: [Run] of section 6.2, which turns a panic into a
    [RuntimeError] (section 7). *)
Definition Run (fuel : nat) (p : Program) (env : any) : option (result any) :=
  match exec fuel p env 0 [] with
  | Some (Panic r) => Some (Errorf "%v" [APanic r])
  | other => other
  end.

End machine.

(** ** Classes of values the properties speak of *)

Module shape.
Import Go.

(** A value that is not a [reflect.Value] struct, nor an interface holding
    one. *)
Definition plain (x : value) : bool :=
  match x with
  | VRValue _ | VIface (Some (VRValue _)) => false
  | _ => true
  end.

(** An element of an array literal as [arrayNode.Eval] stores it: the
    [reflect.Value] of the element, held in an [interface{}]. *)
Definition boxed (x : value) : Prop := exists r, x = VIface (Some (VRValue r)).

(** Numbers, the scalars the helper [equal] of the machine has a case for,
    and what [Interface] returns for a valid Value. *)
Definition numeric (x : value) : bool :=
  match x with
  | VInt _ _ | VFloat _ _ => true
  | _ => false
  end.


Definition number (x : value) : float := fst (expr.cast (Val x)).

Definition unbox (x : value) : any :=
  match x with
  | VIface i => i
  | _ => Some x
  end.

End shape.

(** ** Expressions and environments of the scenarios *)

Module scenario.
Import Go ast.

Definition float64 (z : Z) : float := of_Z Float64 z.

(** An integer literal; the parser keeps every number as a float64. *)
Definition num (z : Z) : node := numberNode (float64 z).


(** [1/0 == 0] *)
Definition raises : node :=
  binaryNode "==" (binaryNode "/" (num 1) (num 0)) (num 0).

(** [false and (1/0 == 0)] *)
Definition false_and_raises : node := binaryNode "and" (boolNode false) raises.

(** [user.Group in ["vip", "admin"]] *)
Definition group_in_list : node :=
  binaryNode "in" (propertyNode (nameNode "user") "Group")
             (arrayNode [textNode "vip"; textNode "admin"]).

(** [{user: {Group: "vip"}}] as maps of [interface{}]. *)
Definition env_user_map : any :=
  Some (VMap TString TInterface
          [(VString "user",
            VIface (Some (VMap TString TInterface
                            [(VString "Group", VIface (Some (VString "vip")))])))]).

(** [missing.Field] and the empty environment [map[string]interface{}{}]. *)
Definition missing_field : node := propertyNode (nameNode "missing") "Field".

Definition empty_env : any := Some (VMap TString TInterface []).

(** An environment with the field [M] of type [map[string]int]. *)
Definition env_M : any :=
  Some (VStruct "Env" [("M", VMap TString (TInt Int) [(VString "a", VInt Int 1)])]).

Definition a_in_M : node := binaryNode "in" (textNode "a") (nameNode "M").
Definition M_at (key : string) : node := indexNode (nameNode "M") (textNode key).

(** ["a" in nil] *)
Definition a_in_nil : node := binaryNode "in" (textNode "a") nilNode.

(** [X / Y] against a struct with the float64 fields [X = 1] and [Y = 0]. *)
Definition x_over_y : node := binaryNode "/" (nameNode "X") (nameNode "Y").

Definition env_x_y : any :=
  Some (VStruct "Env" [("X", VFloat Float64 (float64 1));
                       ("Y", VFloat Float64 (float64 0))]).

(** ["a" ~ (false ? "b" : "c")] *)
Definition text_and_conditional : node :=
  binaryNode "~" (textNode "a")
             (conditionalNode (boolNode false) (textNode "b") (textNode "c")).

(** [true && true || true], an input of the compiler's test. *)
Definition true_and_true_or_true : node :=
  binaryNode "||" (binaryNode "&&" (boolNode true) (boolNode true))
             (boolNode true).





(** Numbers of several kinds, one of them held in an interface. *)
Definition env_numbers : any :=
  Some (VStruct "Env"
          [("I", VInt Int 7); ("B", VInt Int8 100);
           ("A", VIface (Some (VInt Int 1)));
           ("Big", VInt Int64 (2 ^ 53 + 1))]).

(** [7 / 2] *)
Definition seven_halves : node := binaryNode "/" (num 7) (num 2).

(** [I + 1] *)
Definition I_plus_one : node := binaryNode "+" (nameNode "I") (num 1).

(** [A + A] *)
Definition A_plus_A : node := binaryNode "+" (nameNode "A") (nameNode "A").

(** [B + B] *)
Definition B_plus_B : node := binaryNode "+" (nameNode "B") (nameNode "B").

(** [Big == 9007199254740992] *)
Definition Big_is_2_53 : node :=
  binaryNode "==" (nameNode "Big") (num (2 ^ 53)).

(** [X + Y == X] against the float32 fields [X = 1] and [Y = 2^-24]. *)
Definition X_plus_Y_is_X : node :=
  binaryNode "==" (binaryNode "+" (nameNode "X") (nameNode "Y")) (nameNode "X").

Definition env_float32 : any :=
  Some (VStruct "Env" [("X", VFloat Float32 (S754_finite false 8388608 (-23)));
                       ("Y", VFloat Float32 (S754_finite false 8388608 (-47)))]).

(** [ok and true] against [map[string]interface{}{"ok": true}]. *)
Definition ok_and_true : node :=
  binaryNode "and" (nameNode "ok") (boolNode true).

Definition env_flags : any :=
  Some (VMap TString TInterface [(VString "ok", VIface (Some (VBool true)))]).



End scenario.

(** ** The fragment on which both evaluators are compared *)

Module fragment.
Import Go ast machine.

Definition one_of (operator : string) (names : list string) : bool :=
  existsb (String.eqb operator) names.

(** Expressions over boolean and text literals with negation, the
    short-circuit operators, equality and concatenation. *)
Fixpoint simple (n : node) : bool :=
  match n with
  | boolNode _ | textNode _ => true
  | unaryNode operator a => one_of operator ["not"; "!"] && simple a
  | binaryNode operator a b =>
      one_of operator ["and"; "&&"; "or"; "||"; "=="; "!="; "~"] &&
      simple a && simple b
  | _ => false
  end.

(** The values of the fragment, with the type the checker gives them. *)
Inductive typed : value -> option type -> Prop :=
| typed_bool (b : bool) : typed (VBool b) (Some TBool)
| typed_text (s : string) : typed (VString s) (Some TString).

(** The bytes [code] sit in the byte code [bc] from position [pc] on. *)
Definition code_at (bc : list Z) (pc : nat) (code : list Z) : Prop :=
  forall i b, nth_error code i = Some b -> nth_error bc (pc + i) = Some b.

(** The machine gets from one state to another in finitely many steps. *)
Definition runs (p : Program) (env : any) (pc : nat) (stack : list any)
  (pc' : nat) (stack' : list any) : Prop :=
  exists f, forall k,
    exec (f + k) p env pc stack = exec k p env pc' stack'.

(** The pool [cs] is the beginning of the pool [pool]. *)
Definition extends (cs pool : list any) : Prop :=
  exists more, pool = (cs ++ more)%list.

(** ** The fragment both evaluators agree on *)

Import reflect.



(** The entries of a map under their string keys. *)
Fixpoint entries (kvs : list (value * value)) : list (string * value) :=
  match kvs with
  | [] => []
  | (VString s, x) :: rest => (s, x) :: entries rest
  | _ :: rest => entries rest
  end.



















End fragment.

(** ** Notions of the further properties *)

Module notions.
Import Go.

(** The negation of a boolean result, as [!=] and [not in] return it. *)
Definition negated (v : Value) : Value :=
  match v with
  | Val (VBool e) => Val (VBool (negb e))
  | _ => v
  end.

(** A host slice of strings, [[]string]. *)
Definition strings (l : list string) : value := VSlice TString (map VString l).

(** A host slice of integers of kind [k]. *)
Definition integers (k : ikind) (l : list Z) : value :=
  VSlice (TInt k) (map (VInt k) l).

(** An integer of the range of its kind. *)
Definition in_range (k : ikind) (z : Z) : Prop := min_int k <= z <= max_int k.

(** [z] is the result [exact] brought into the range of [k] by wrap-around:
    in range, and away from [exact] by a multiple of 2^bits. *)
Definition wraps (k : ikind) (exact z : Z) : Prop :=
  in_range k z /\ exists q, z = exact + q * 2 ^ bits k.

(** The value [x] is the whole number [z], below 2^53 in magnitude: a float64,
    as every literal is, or an integer of the host. *)
Definition whole (x : value) (z : Z) : Prop :=
  - 2 ^ 53 < z < 2 ^ 53 /\
  (x = VFloat Float64 (of_Z Float64 z) \/ exists k, x = VInt k z).

(** A pointer to a pointer ... to [t], [n] levels deep. *)
Fixpoint pointers (n : nat) (t : type) : type :=
  match n with
  | O => t
  | S m => TPtr (pointers m t)
  end.

(** An element of an array literal, as the literal stores the Value [v]. *)
Definition element (v : Value) : value := VIface (Some (VRValue v)).

(** The operators that [binaryNode.Eval] handles before it converts both
    operands to numbers. *)
Definition before_numbers : list string :=
  ["or"; "||"; "and"; "&&"; "=="; "!="; "in"; "not in"; "~"]%string.

End notions.

(** * Properties *)

Import Go ast fmt reflect.
Unset Implicit Arguments.

(** ** Short-circuit evaluation (eval.go) *)

(** C2: in [a and b] the right operand is not evaluated when [a] is false,
    and in [a or b] it is not evaluated when [a] is true: whatever [b] is,
    the result is that of [a].  [false and (1/0 == 0)] evaluates to false,
    although its right operand alone raises "division by zero". *)
Theorem short_circuit (a b : node) (env : any) :
  (expr.Eval a env = Ok (Val (VBool false)) ->
   forall operator, In operator ["and"; "&&"] ->
   expr.Eval (binaryNode operator a b) env = Ok (Val (VBool false))) /\
  (expr.Eval a env = Ok (Val (VBool true)) ->
   forall operator, In operator ["or"; "||"] ->
   expr.Eval (binaryNode operator a b) env = Ok (Val (VBool true))) /\
  expr.Run scenario.false_and_raises env = Ok (Some (VBool false)) /\
  expr.Run scenario.raises env = Errorf "division by zero" [].
Proof.
  repeat split.
  - intros Ha operator [<- | [<- | []]]; simpl; rewrite Ha; reflexivity.
  - intros Ha operator [<- | [<- | []]]; simpl; rewrite Ha; reflexivity.
Qed.

(** The right operand plays no part as soon as the left one is not true (for
    [and]) or not false (for [or]), also when the left one is no boolean and
    the evaluation panics. *)
Lemma right_operand_unused (a b b' : node) (env : any) :
  ((forall v, expr.Eval a env = Ok v -> expr.toBool a v <> Ok true) ->
   expr.Eval (binaryNode "and" a b) env = expr.Eval (binaryNode "and" a b') env)
  /\
  ((forall v, expr.Eval a env = Ok v -> expr.toBool a v <> Ok false) ->
   expr.Eval (binaryNode "or" a b) env = expr.Eval (binaryNode "or" a b') env).
Proof.
  split; intros H; cbn [expr.Eval];
    destruct (expr.Eval a env) as [v | | |]; try reflexivity;
    specialize (H v eq_refl); cbn;
    destruct (expr.toBool a v) as [[] | | |]; try reflexivity;
    now elim H.
Qed.

Lemma short_circuit_witness :
  expr.Eval (boolNode false) None = Ok (Val (VBool false)) /\
  expr.Eval (binaryNode "&&" (boolNode false) scenario.raises) None
  = Ok (Val (VBool false)).
Proof.
  split; [reflexivity |].
  apply (proj1 (short_circuit (boolNode false) scenario.raises None));
    [reflexivity | simpl; auto].
Defined.

(** ** Division by zero *)

(** The tree-walking evaluator checks the divisor: whatever numeric kinds the
    operands have, a zero divisor gives the error. *)
Lemma tree_division_by_zero (nl nr : node) (env : any) (lv rv : Value)
  (l r : float) :
  expr.Eval nl env = Ok lv -> expr.Eval nr env = Ok rv ->
  expr.cast lv = (l, true) -> expr.cast rv = (r, true) ->
  feqb r expr.fzero = true ->
  expr.Eval (binaryNode "/" nl nr) env = Errorf "division by zero" [].
Proof.
  intros Hl Hr Cl Cr Hz. simpl. rewrite Hl. simpl. rewrite Hr. simpl.
  unfold expr.toNumber. rewrite Cl, Cr. simpl.
  unfold expr.number_operator. simpl. rewrite Hz. reflexivity.
Qed.

(** The helper of the machine never fails on two floats of one kind. *)
Lemma vm_divide_floats (k : fkind) (x y : float) :
  vm.divide (Some (VFloat k x)) (Some (VFloat k y))
  = Ok (Some (VFloat k (fdiv k x y))).
Proof. unfold vm.divide, vm.binary. destruct k; reflexivity. Qed.

Lemma vm_divide_integers_by_zero (k : ikind) (x : Z) :
  vm.divide (Some (VInt k x)) (Some (VInt k 0))
  = Panic (RuntimePanic "integer divide by zero").
Proof. unfold vm.divide, vm.binary. destruct k; reflexivity. Qed.

(** C3, at its failing input: the tree-walking evaluator answers [1/0] with
    the error "division by zero", but the helper [divide] of the machine
    returns +Inf for the float64 operands 1 and 0, and for the int64 operands
    1 and 0 it panics with the run-time error of Go, not with that error. *)
Theorem division_by_zero_paths :
  expr.Run (binaryNode "/" (scenario.num 1) (scenario.num 0)) None
  = Errorf "division by zero" [] /\
  vm.divide (Some (VFloat Float64 (scenario.float64 1)))
            (Some (VFloat Float64 (scenario.float64 0)))
  = Ok (Some (VFloat Float64 (S754_infinity false))) /\
  vm.divide (Some (VInt Int64 1)) (Some (VInt Int64 0))
  = Panic (RuntimePanic "integer divide by zero").
Proof. repeat split. Qed.

(** ** Modulo *)

Lemma ikind_eqb_refl (k : ikind) : ikind_eqb k k = true.
Proof. destruct k; reflexivity. Qed.


Lemma fkind_eqb_refl (k : fkind) : fkind_eqb k k = true.
Proof. destruct k; reflexivity. Qed.








(** ** Ranges *)

(** The bounds of the integer kinds as numerals, for [lia]. *)
Ltac bounds :=
  unfold min_int, max_int, vm.max_len_int in *; cbn [signed bits] in *;
  repeat match goal with
         | |- context [2 ^ ?n] =>
             let v := eval vm_compute in (2 ^ n) in change (2 ^ n) with v
         | H : context [2 ^ ?n] |- _ =>
             let v := eval vm_compute in (2 ^ n) in change (2 ^ n) with v in H
         end.

Lemma wrap_in_range (k : ikind) (z : Z) :
  min_int k <= z <= max_int k -> wrap k z = z.
Proof.
  unfold wrap, min_int, max_int.
  destruct k; simpl; intros H;
    try (rewrite Z.mod_small by lia; lia).
Qed.

Lemma wrap_Int64_spec (z : Z) :
  - 2 ^ 63 <= wrap Int64 z < 2 ^ 63 /\ exists q, wrap Int64 z = z + q * 2 ^ 64.
Proof.
  unfold wrap. cbn [signed bits].
  change (2 ^ (64 - 1)) with 9223372036854775808.
  change (2 ^ 63) with 9223372036854775808.
  change (2 ^ 64) with 18446744073709551616.
  pose proof (Z.mod_pos_bound (z + 9223372036854775808) 18446744073709551616
                ltac:(lia)) as B.
  pose proof (Z.mod_eq (z + 9223372036854775808) 18446744073709551616
                ltac:(lia)) as E.
  split; [lia |].
  exists (- ((z + 9223372036854775808) / 18446744073709551616)). lia.
Qed.

(** The tree-walking evaluator builds the float64 of every integer from
    [min] to [max] when there are at most 10^6 of them. *)
Lemma tree_makeRange_builds (min max : Z) :
  min_int Int64 <= min -> max <= max_int Int64 ->
  min <= max -> max - min + 1 <= 1000000 ->
  expr.makeRange min max
  = Ok (Val (VSlice (TFloat Float64)
               (map (fun i => VFloat Float64 (of_Z Float64 (min + Z.of_nat i)))
                    (seq 0 (Z.to_nat (max - min + 1)))))).
Proof.
  intros Hmin Hmax Hle Hsize. unfold expr.makeRange.
  unfold min_int, max_int in *; simpl in Hmin, Hmax.
  rewrite (@wrap_in_range Int64 (max - min))
    by (unfold min_int, max_int; simpl; lia).
  rewrite (@wrap_in_range Int64 (max - min + 1))
    by (unfold min_int, max_int; simpl; lia).
  destruct (1000000 <? max - min + 1) eqn:A; [apply Z.ltb_lt in A; lia |].
  destruct (max - min + 1 <? 0) eqn:B; [apply Z.ltb_lt in B; lia |].
  do 3 f_equal. apply map_ext_in. intros i Hi. apply in_seq in Hi.
  rewrite wrap_in_range; [reflexivity |].
  unfold min_int, max_int; simpl. lia.
Qed.

(** Beyond 10^6 elements it fails: with the error of the cap, or with the
    panic of [make] when the size does not fit an int64. *)
Lemma tree_makeRange_capped (min max : Z) :
  min_int Int64 <= min -> max <= max_int Int64 ->
  1000000 < max - min + 1 < 2 ^ 64 ->
  expr.makeRange min max
  = Errorf "range %v..%v exceeded max size of 1e6" [AInt min; AInt max] \/
  expr.makeRange min max = Panic (RuntimePanic "makeslice: len out of range").
Proof.
  intros Hmin Hmax Hsize. unfold expr.makeRange.
  unfold min_int, max_int in *; simpl in Hmin, Hmax.
  set (size := wrap Int64 (wrap Int64 (max - min) + 1)).
  assert (S : size = max - min + 1 \/ size = max - min + 1 - 2 ^ 64).
  { unfold size.
    destruct (wrap_Int64_spec (max - min)) as [B1 [q1 E1]].
    destruct (wrap_Int64_spec (wrap Int64 (max - min) + 1)) as [B2 [q2 E2]].
    rewrite E2, E1 in *. simpl in *. lia. }
  destruct S as [S | S]; rewrite S.
  - left. destruct (1000000 <? max - min + 1) eqn:A; [reflexivity |].
    apply Z.ltb_ge in A. lia.
  - right. destruct (1000000 <? max - min + 1 - 2 ^ 64) eqn:A;
      [apply Z.ltb_lt in A; lia |].
    destruct (max - min + 1 - 2 ^ 64 <? 0) eqn:B; [reflexivity |].
    apply Z.ltb_ge in B. lia.
Qed.

(** The helper of the machine has no cap: it builds every range that [make]
    can allocate. *)
Lemma vm_makeRange_builds (ka kb : ikind) (min max : Z) :
  min_int Int <= min <= max_int Int -> min_int Int <= max <= max_int Int ->
  0 <= max - min + 1 <= vm.max_len_int ->
  vm.makeRange (Some (VInt ka min)) (Some (VInt kb max))
  = Ok (VSlice (TInt Int)
          (map (fun i => VInt Int (min + Z.of_nat i))
               (seq 0 (Z.to_nat (max - min + 1))))).
Proof.
  intros Hmin Hmax Hsize. unfold vm.makeRange, vm.toInt.
  cbn [bind]. bounds.
  rewrite (@wrap_in_range Int min) by (bounds; lia).
  rewrite (@wrap_in_range Int max) by (bounds; lia).
  rewrite (@wrap_in_range Int (max - min)) by (bounds; lia).
  rewrite (@wrap_in_range Int (max - min + 1)) by (bounds; lia).
  destruct (max - min + 1 <? 0) eqn:A; [apply Z.ltb_lt in A; lia |].
  destruct (35184372088832 <? max - min + 1) eqn:B;
    [apply Z.ltb_lt in B; lia |].
  cbn [orb]. do 2 f_equal. apply map_ext_in. intros i Hi. apply in_seq in Hi.
  rewrite wrap_in_range; [reflexivity |]. bounds. lia.
Qed.

(** C5, at its failing input: the tree-walking evaluator answers [1..5] with
    the five numbers (as float64) and refuses [1..2000000] with the error of
    the cap, and the helper [makeRange] of the machine answers [1..5] with the
    five integers; but for [1..2000000] that helper has no cap and returns a
    slice of 2000000 elements instead of an error. *)
Theorem range_paths :
  expr.Run (binaryNode ".." (scenario.num 1) (scenario.num 5)) None
  = Ok (Some (VSlice (TFloat Float64)
                (map (fun z => VFloat Float64 (scenario.float64 z))
                     [1; 2; 3; 4; 5]))) /\
  expr.Run (binaryNode ".." (scenario.num 1) (scenario.num 2000000)) None
  = Errorf "range %v..%v exceeded max size of 1e6" [AInt 1; AInt 2000000] /\
  vm.makeRange (Some (VInt Int64 1)) (Some (VInt Int64 5))
  = Ok (VSlice (TInt Int) (map (VInt Int) [1; 2; 3; 4; 5])) /\
  exists xs,
    vm.makeRange (Some (VInt Int64 1)) (Some (VInt Int64 2000000))
    = Ok (VSlice (TInt Int) xs) /\
    List.length xs = Z.to_nat 2000000.
Proof.
  split; [reflexivity |]. split; [reflexivity |]. split; [reflexivity |].
  eexists. split.
  - apply vm_makeRange_builds; bounds; lia.
  - rewrite length_map, length_seq. reflexivity.
Qed.

(** ** Membership and indexing *)

(** [contains] wraps the needle a second time, so on a map whose keys are
    not interfaces the lookup panics: a [reflect.Value] struct is no key. *)
Lemma tree_contains_map_panics (needle : Value) (kt et : type)
  (kvs : list (value * value)) :
  kt <> TInterface -> kt <> TValue ->
  expr.contains needle (Val (VMap kt et kvs)) = Panic (ReflectPanic "MapIndex").
Proof.
  intros H1 H2. unfold expr.contains, expr.contains_in, MapIndex, assignTo.
  simpl. destruct kt; try congruence; reflexivity.
Qed.

(** [extract] reports success for every key of a map, present or not. *)
Lemma tree_extract_map_always_ok (kt et : type) (kvs : list (value * value))
  (i v : Value) (ok : bool) :
  expr.extract (Val (VMap kt et kvs)) i = Ok (v, ok) -> ok = true.
Proof.
  unfold expr.extract, expr.extract_in.
  destruct (MapIndex (Val (VMap kt et kvs)) i); simpl; congruence.
Qed.

(** On the machine's path, membership in a map and indexing agree. *)
Lemma vm_in_iff_fetch (k : any) (kt et : type) (kvs : list (value * value)) :
  vm.in_ k (Some (VMap kt et kvs)) = Ok true <->
  exists v, vm.fetch (Some (VMap kt et kvs)) k = Ok v.
Proof.
  destruct k as [x |].
  - unfold vm.in_, vm.in_in, vm.fetch, vm.fetch_in.
    cbn [ValueOf IsValid negb].
    destruct (MapIndex (Val (VMap kt et kvs)) (Val x)) as [[| y] | | |];
      cbn [bind IsValid]; unfold panicf;
      (split; [try discriminate | try (intros [v H]; discriminate H)]).
    + intros _. destruct y; eexists; reflexivity.
    + reflexivity.
  - unfold vm.in_, vm.in_in, vm.fetch, vm.fetch_in, panicf. simpl.
    split; [discriminate | intros [v H]; discriminate H].
Qed.

(** C6, at its failing input: with the environment field [M] of type
    [map[string]int] holding the key "a", the tree-walking evaluator fails on
    ["a" in M] (the lookup of the re-wrapped needle panics), although
    [M["a"]] evaluates to the entry 1; and [M["b"]] evaluates without error,
    to nil, although "b" is no key of the map. *)
Theorem map_membership_and_index :
  expr.Run scenario.a_in_M scenario.env_M
  = Errorf "%v" [APanic (ReflectPanic "MapIndex")] /\
  expr.Run (scenario.M_at "a") scenario.env_M = Ok (Some (VInt Int 1)) /\
  expr.Run (scenario.M_at "b") scenario.env_M = Ok None.
Proof. repeat split. Qed.

(** The elements of an evaluated array literal are all boxed. *)
Lemma array_loop_boxed (env : any) (nodes : list node) (acc r : list value) :
  Forall shape.boxed acc ->
  each (fun node (array : list value) =>
          let* val := expr.Eval node env in
          Ok (array ++ [VIface (Some (VRValue val))])%list) nodes acc = Ok r ->
  Forall shape.boxed r.
Proof.
  revert acc. induction nodes as [| n nodes IH]; intros acc Hacc H.
  - now inversion H; subst.
  - cbn [each] in H.
    destruct (expr.Eval n env) as [val | | |]; cbn [bind] in H;
      try discriminate.
    apply IH in H; [exact H |].
    apply Forall_app. split; [exact Hacc |].
    constructor; [now exists val | constructor].
Qed.

Lemma array_literal_boxed (nodes : list node) (env : any) (v : Value) :
  expr.Eval (arrayNode nodes) env = Ok v ->
  exists xs, v = Val (VSlice TInterface xs) /\ Forall shape.boxed xs.
Proof.
  cbn [expr.Eval]. intros H.
  destruct (each _ nodes []) as [xs | | |] eqn:E; cbn [bind] in H;
    try discriminate.
  inversion H; subst. exists xs. split; [reflexivity |].
  eapply array_loop_boxed; [constructor | exact E].
Qed.

(** A boxed element equals no plain needle: [reflect.DeepEqual] sees a
    [reflect.Value] on one side and another type on the other. *)
Lemma boxed_never_equal (y x : value) :
  shape.boxed y -> shape.plain x = true ->
  expr.equal (Val y) (Val x) = Ok false.
Proof.
  intros [r ->] Hx. unfold expr.equal. cbn.
  destruct x as [ | | | | [[] |] | | | | | | ]; try discriminate Hx;
    try reflexivity.
Qed.

Lemma contains_boxed (xs : list value) (x : value) :
  Forall shape.boxed xs -> shape.plain x = true ->
  expr.contains (Val x) (Val (VSlice TInterface xs)) = Ok false.
Proof.
  intros Hxs Hx. unfold expr.contains, expr.contains_in.
  induction Hxs as [| y xs Hy Hxs IH]; [reflexivity |].
  cbn [expr.contains_slice]. rewrite (boxed_never_equal y x Hy Hx). exact IH.
Qed.

(** Membership in an array literal is false for every plain needle, whether
    the needle equals an element of the literal or not. *)
Lemma array_literal_membership (needle : node) (nodes : list node) (env : any)
  (x : value) (array : Value) :
  expr.Eval needle env = Ok (Val x) -> shape.plain x = true ->
  expr.Eval (arrayNode nodes) env = Ok array ->
  expr.Eval (binaryNode "in" needle (arrayNode nodes)) env
  = Ok (Val (VBool false)).
Proof.
  intros Hn Hx Ha.
  destruct (array_literal_boxed nodes env array Ha) as (xs & -> & Hxs).
  change (expr.Eval (binaryNode "in" needle (arrayNode nodes)) env)
    with (let* vleft := expr.Eval needle env in
          let* vright := expr.Eval (arrayNode nodes) env in
          let* ok := expr.contains vleft vright in
          Ok (ValueOf (Some (VBool ok)))).
  rewrite Hn, Ha. cbn [bind]. now rewrite contains_boxed.
Qed.

(** C7, at its failing input: against [{user: {Group: "vip"}}] the
    tree-walking evaluator answers [user.Group in ["vip", "admin"]] with
    false, although [user.Group] evaluates to "vip", the first element of the
    array: the elements of the array literal are stored as [reflect.Value]
    structs. *)
Theorem group_membership :
  expr.Run scenario.group_in_list scenario.env_user_map = Ok (Some (VBool false)) /\
  expr.Run (propertyNode (nameNode "user") "Group") scenario.env_user_map
  = Ok (Some (VString "vip")).
Proof. split; reflexivity. Qed.

(** ** Names absent from the environment *)

(** With a nil environment the name is reported. *)
Lemma undefined_in_nil_environment (name : string) :
  expr.Run (nameNode name) None = Errorf "undefined: %v" [ANode (nameNode name)].
Proof. reflexivity. Qed.

(** C8, at its failing input: against the empty map the tree-walking
    evaluator answers [missing.Field] with the error "missing is nil" and
    not with "undefined: missing", and answers the bare name [missing] with
    nil and no error: [extract] reports success for every key of a map. *)
Theorem missing_name :
  expr.Run scenario.missing_field scenario.empty_env
  = Errorf "%v is nil" [ANode (nameNode "missing")] /\
  expr.Run scenario.missing_field scenario.empty_env
  <> Errorf "undefined: %v" [ANode (nameNode "missing")] /\
  expr.Run (nameNode "missing") scenario.empty_env = Ok None.
Proof. repeat split. discriminate. Qed.

(** ** Membership in nil *)

Lemma tree_contains_zero (needle : Value) :
  expr.contains needle Zero = Panic (ReflectPanic "Interface").
Proof. reflexivity. Qed.

Lemma tree_contains_nil_interface (needle : Value) :
  expr.contains needle (Val (VIface None)) = Ok false.
Proof. reflexivity. Qed.

Lemma vm_in_nil (needle : any) : vm.in_ needle None = Ok false.
Proof. reflexivity. Qed.

(** C10, at its failing input: the helper [in] of the machine answers false
    for a nil container, whatever the needle; but the tree-walking evaluator
    fails on ["a" in nil]: the container is the zero Value, and
    [array.Interface()] panics on it before the comparison with nil. *)
Theorem membership_in_nil :
  expr.Run scenario.a_in_nil None = Errorf "%v" [APanic (ReflectPanic "Interface")] /\
  (forall needle : Value,
      expr.contains needle Zero = Panic (ReflectPanic "Interface")) /\
  (forall needle : any, vm.in_ needle None = Ok false).
Proof. repeat split. Qed.

(** ** Equality *)

Section Equality.
Import shape.

Lemma tree_equal_float64_left (f : float) (y : value) :
  numeric y = true ->
  expr.equal (Val (VFloat Float64 f)) (Val y) = Ok (feqb f (number y)).
Proof. destruct y; try discriminate; intros _; reflexivity. Qed.

Lemma tree_equal_float64_right (x : value) (f : float) :
  numeric x = true -> typeof x <> TFloat Float64 ->
  expr.equal (Val x) (Val (VFloat Float64 f)) = Ok (feqb f (number x)).
Proof.
  destruct x as [ | k z | [] g | | | | | | | | ]; try discriminate;
    intros _ H; try reflexivity.
  now elim H.
Qed.







End Equality.




(** ** The compiled program against the tree-walking evaluator *)

Section Machine.
Import machine fragment.



Lemma code_at_app (bc : list Z) (pc : nat) (c1 c2 : list Z) :
  code_at bc pc (c1 ++ c2) ->
  code_at bc pc c1 /\ code_at bc (pc + List.length c1) c2.
Proof.
  intros H. split; intros i b Hi.
  - apply H. rewrite nth_error_app1; [exact Hi |].
    apply nth_error_Some. congruence.
  - rewrite <- Nat.add_assoc. apply H.
    rewrite nth_error_app2 by lia.
    now replace (List.length c1 + i - List.length c1)%nat with i by lia.
Qed.

Lemma code_at_head (bc : list Z) (pc : nat) (b : Z) (c : list Z) :
  code_at bc pc (b :: c) ->
  nth_error bc pc = Some b /\ code_at bc (S pc) c.
Proof.
  intros H. split.
  - rewrite <- (Nat.add_0_r pc). now apply H.
  - intros i x Hi. replace (S pc + i)%nat with (pc + S i)%nat by lia.
    now apply H.
Qed.


Lemma runs_refl p env pc st : runs p env pc st pc st.
Proof. exists 0%nat. reflexivity. Qed.


Lemma runs_step p env pc st pc' st' (b : Z) :
  nth_error (Bytecode p) pc = Some b ->
  step p env pc st = Ok (pc', st') ->
  runs p env pc st pc' st'.
Proof.
  intros Hb Hs. exists 1%nat. intros k. cbn [Nat.add exec].
  assert (L : (List.length (Bytecode p) <=? pc)%nat = false).
  { apply Nat.leb_gt. apply nth_error_Some. congruence. }
  now rewrite L, Hs.
Qed.

Lemma one_of_In (operator : string) (names : list string) :
  one_of operator names = true -> In operator names.
Proof.
  unfold one_of. intros H. apply existsb_exists in H.
  destruct H as (x & Hx & E). apply String.eqb_eq in E. now subst.
Qed.

Ltac operators H :=
  apply one_of_In in H; simpl in H;
  repeat (destruct H as [<- | H]); try contradiction.

(** A well-typed expression of the fragment evaluates, whatever the
    environment, to a boolean or to a text, as its type says. *)
Lemma simple_value (n : node) :
  simple n = true ->
  forall t, expr.TypeCheck [] n = Ok t ->
  exists x, typed x t /\ forall env, expr.Eval n env = Ok (Val x).
Proof.
  induction n as [ | | | b | s | | operator a IHa | operator a IHa b IHb
                 | | | | | | ]; try discriminate.
  - intros _ t [= <-]. exists (VBool b). split; [constructor | reflexivity].
  - intros _ t [= <-]. exists (VString s). split; [constructor | reflexivity].
  - intros S t T. cbn [simple] in S. apply andb_prop in S as [O Sa].
    cbn [expr.TypeCheck] in T.
    destruct (expr.TypeCheck [] a) as [ta | | |] eqn:Ta; try discriminate.
    destruct (IHa Sa ta eq_refl) as (x & Hx & Ea).
    operators O; destruct Hx; cbn in T; try discriminate;
      injection T as <-;
      (eexists; split; [unfold expr.boolType, expr.textType; constructor |];
       intros env; cbn [expr.Eval]; rewrite Ea; reflexivity).
  - intros S t T. cbn [simple] in S.
    apply andb_prop in S as [S Sb]. apply andb_prop in S as [O Sa].
    cbn [expr.TypeCheck] in T.
    destruct (expr.TypeCheck [] a) as [ta | | |] eqn:Ta; try discriminate.
    destruct (expr.TypeCheck [] b) as [tb | | |] eqn:Tb; try discriminate.
    destruct (IHa Sa ta eq_refl) as (x & Hx & Ea).
    destruct (IHb Sb tb eq_refl) as (y & Hy & Eb).
    operators O; destruct Hx as [[] |], Hy; cbn in T; try discriminate;
      injection T as <-;
      (eexists; split; [unfold expr.boolType, expr.textType; constructor |];
       intros env; cbn [expr.Eval]; rewrite Ea; cbn; rewrite ?Eb; cbn;
       reflexivity).
Qed.

(** *** Single instructions *)







Lemma run_equal p env pc st (a b : any) (e : bool) :
  code_at (Bytecode p) pc [byte_of OpEqual] ->
  vm.equal a b = Ok e ->
  runs p env pc (b :: a :: st) (pc + 1) (Some (VBool e) :: st).
Proof.
  intros H E. apply code_at_head in H as [H _].
  eapply runs_step; [exact H |]. unfold step. rewrite H.
  cbn. rewrite E. rewrite Nat.add_1_r. reflexivity.
Qed.

Lemma run_not_equal p env pc st (a b : any) (e : bool) :
  code_at (Bytecode p) pc [byte_of OpNotEqual] ->
  vm.equal a b = Ok e ->
  runs p env pc (b :: a :: st) (pc + 1) (Some (VBool (negb e)) :: st).
Proof.
  intros H E. apply code_at_head in H as [H _].
  eapply runs_step; [exact H |]. unfold step. rewrite H.
  cbn. rewrite E. rewrite Nat.add_1_r. reflexivity.
Qed.

Lemma run_concat p env pc st (x y : string) :
  code_at (Bytecode p) pc [byte_of OpConcat] ->
  runs p env pc (Some (VString y) :: Some (VString x) :: st) (pc + 1)
       (Some (VString (x ++ y)) :: st).
Proof.
  intros H. apply code_at_head in H as [H _].
  eapply runs_step; [exact H |]. unfold step. rewrite H.
  rewrite Nat.add_1_r. reflexivity.
Qed.

(** *** The constant pool *)

Lemma extends_refl (cs : list any) : extends cs cs.
Proof. exists []. now rewrite app_nil_r. Qed.



Lemma index_of_text (s : string) (cs : list any) (k j : nat) :
  index_of (Some (VString s)) cs k = Some j ->
  (k <= j)%nat /\ nth_error cs (j - k) = Some (Some (VString s)).
Proof.
  revert k. induction cs as [| x cs IH]; intros k H; [discriminate |].
  cbn [index_of] in H.
  destruct (same_constant x (Some (VString s))) eqn:E.
  - injection H as <-. split; [lia |]. rewrite Nat.sub_diag.
    destruct x as [[] |]; try discriminate E.
    cbn in E. apply String.eqb_eq in E. now subst.
  - apply IH in H as [L H]. split; [lia |].
    replace (j - k)%nat with (S (j - S k)) by lia. exact H.
Qed.

Lemma addConstant_text (s : string) (cs cs' : list any) (i : Z) :
  addConstant (Some (VString s)) cs = (i, cs') ->
  extends cs cs' /\
  0 <= i < Z.of_nat (List.length cs') /\
  nth_error cs' (Z.to_nat i) = Some (Some (VString s)).
Proof.
  unfold addConstant.
  destruct (index_of (Some (VString s)) cs 0) as [j |] eqn:E; intros [= <- <-].
  - apply index_of_text in E as [_ E]. rewrite Nat.sub_0_r in E.
    split; [apply extends_refl |]. rewrite Nat2Z.id.
    split; [| exact E].
    assert (j < List.length cs)%nat by (apply nth_error_Some; congruence).
    lia.
  - split; [now exists [Some (VString s)] |]. rewrite Nat2Z.id.
    split; [rewrite length_app; cbn; lia |].
    rewrite nth_error_app2 by lia. now rewrite Nat.sub_diag.
Qed.


(** *** The two shapes of code for a binary operator *)



(** *** The code of an expression pushes its value *)


Ltac split_code H :=
  repeat match type of H with
         | code_at _ _ (_ ++ _) =>
             let A := fresh "At" in
             apply code_at_app in H as [A H]
         end.

(** Scenario 5 on the machine: the jump of [and] skips the division. *)
Lemma machine_false_and_raises :
  exists p, Compile scenario.false_and_raises = Ok p /\
            Run 3 p None = Some (Ok (Some (VBool false))).
Proof. eexists. split; reflexivity. Qed.

(** [X / Y] with the float64 values 1 and 0: an error on the tree, +Inf on
    the machine. *)
Lemma machine_float_division_by_zero :
  expr.Run scenario.x_over_y scenario.env_x_y = Errorf "division by zero" [] /\
  exists p, Compile scenario.x_over_y = Ok p /\
            Run 3 p scenario.env_x_y
            = Some (Ok (Some (VFloat Float64 (S754_infinity false)))).
Proof. split; [reflexivity |]. eexists. split; reflexivity. Qed.

(** Why the conditional is kept out of the fragment: with the lowering of
    section 4.4 read to the letter, the else-branch is entered with the
    tested value still on the stack, and an operator around the conditional
    finds it there. *)
Lemma conditional_leaves_condition :
  expr.Run scenario.text_and_conditional None = Ok (Some (VString "ac")) /\
  exists p, Compile scenario.text_and_conditional = Ok p /\
            Run 6 p None
            = Some (Errorf "%v" [APanic (RuntimePanic "interface conversion")]).
Proof. split; [reflexivity |]. eexists. split; reflexivity. Qed.

(** The inputs of the compiler's test (TestCompile) compile to the byte code
    and the constants the test expects. *)
Lemma TestCompile :
  let program cs code := Ok {| Constants := cs; Bytecode := code |} in
  let b := byte_of in
  Compile (scenario.num 1) = program [] [b OpPush; 1; 0] /\
  Compile (scenario.num 65535) = program [] [b OpPush; 255; 255] /\
  Compile (scenario.num 65536)
  = program [Some (VInt Int64 65536)] [b OpConst; 0; 0] /\
  Compile (numberNode (fdiv Float64 (scenario.float64 1) (scenario.float64 2)))
  = program [Some (VFloat Float64
                     (fdiv Float64 (scenario.float64 1) (scenario.float64 2)))]
            [b OpConst; 0; 0] /\
  Compile (boolNode true) = program [] [b OpTrue] /\
  Compile (nameNode "Name") = program [Some (VString "Name")] [b OpFetch; 0; 0] /\
  Compile (textNode "string")
  = program [Some (VString "string")] [b OpConst; 0; 0] /\
  Compile (binaryNode "==" (textNode "string") (textNode "string"))
  = program [Some (VString "string")]
            [b OpConst; 0; 0; b OpConst; 0; 0; b OpEqual] /\
  Compile (binaryNode "==" (scenario.num 1000000) (scenario.num 1000000))
  = program [Some (VInt Int64 1000000)]
            [b OpConst; 0; 0; b OpConst; 0; 0; b OpEqual] /\
  Compile (unaryNode "-" (scenario.num 1)) = program [] [b OpPush; 1; 0; b OpNegate] /\
  Compile scenario.true_and_true_or_true
  = program [] [b OpTrue; b OpJumpIfFalse; 2; 0; b OpPop; b OpTrue;
                b OpJumpIfTrue; 2; 0; b OpPop; b OpTrue].
Proof. repeat split. Qed.

End Machine.

(** * Further properties *)

(** ** The tree-walking evaluator: operators (eval.go) *)

(** X1: a conditional evaluates the branch its condition selects and nothing
    of the other branch, which may be an expression that raises. *)
Theorem conditional_selects (c a b : node) (env : any) :
  (expr.Eval c env = Ok (Val (VBool true)) ->
   expr.Eval (conditionalNode c a b) env = expr.Eval a env) /\
  (expr.Eval c env = Ok (Val (VBool false)) ->
   expr.Eval (conditionalNode c a b) env = expr.Eval b env).
Proof.
  split; intros H; cbn [expr.Eval]; rewrite H; reflexivity.
Qed.

Lemma conditional_selects_witness :
  expr.Eval (conditionalNode (boolNode true) (textNode "a") scenario.raises) None
  = Ok (Val (VString "a")).
Proof.
  exact (proj1 (conditional_selects (boolNode true) (textNode "a")
                  scenario.raises None) eq_refl).
Defined.

(** X2: [a != b] is the negation of [a == b] and [a not in b] that of
    [a in b], for all operands and environments: the same boolean negated,
    or the same failure. *)
Theorem negative_operators (a b : node) (env : any) :
  expr.Eval (binaryNode "!=" a b) env
  = (let* v := expr.Eval (binaryNode "==" a b) env in Ok (notions.negated v)) /\
  expr.Eval (binaryNode "not in" a b) env
  = (let* v := expr.Eval (binaryNode "in" a b) env in Ok (notions.negated v)).
Proof.
  split; cbn [expr.Eval];
    destruct (expr.Eval a env) as [va | | |]; try reflexivity; cbn;
    destruct (expr.Eval b env) as [vb | | |]; try reflexivity; cbn.
  - destruct (expr.equal va vb); reflexivity.
  - destruct (expr.contains va vb); reflexivity.
Qed.

Lemma SFopp_involutive (f : float) : SFopp (SFopp f) = f.
Proof. destruct f as [[] | [] | | [] m e]; reflexivity. Qed.

(** X3: negating twice gives back the operand: [not not a] is the boolean of
    [a], and [- - a] is the float64 of the number [a], of whatever numeric
    kind. *)
Theorem double_negation (a : node) (env : any) :
  (forall b, expr.Eval a env = Ok (Val (VBool b)) ->
     expr.Eval (unaryNode "not" (unaryNode "!" a)) env = Ok (Val (VBool b))) /\
  (forall x, expr.Eval a env = Ok (Val x) -> shape.numeric x = true ->
     expr.Eval (unaryNode "-" (unaryNode "-" a)) env
     = Ok (Val (VFloat Float64 (shape.number x)))).
Proof.
  split.
  - intros b H. cbn [expr.Eval]. rewrite H. cbn. now rewrite negb_involutive.
  - intros x H N. cbn [expr.Eval]. rewrite H.
    destruct x; try discriminate N; cbn; now rewrite SFopp_involutive.
Qed.

Lemma double_negation_witness :
  expr.Eval (unaryNode "-" (unaryNode "-" (scenario.num 3))) None
  = Ok (Val (VFloat Float64 (scenario.float64 3))).
Proof.
  exact (proj2 (double_negation (scenario.num 3) None)
           (VFloat Float64 (scenario.float64 3)) eq_refl eq_refl).
Defined.

Lemma append_assoc (a b c : string) : ((a ++ b) ++ c)%string = (a ++ b ++ c)%string.
Proof. induction a as [| x a IH]; cbn; [reflexivity | now rewrite IH]. Qed.

Lemma append_empty_r (a : string) : (a ++ "")%string = a.
Proof. induction a as [| x a IH]; cbn; [reflexivity | now rewrite IH]. Qed.

(** X4: concatenation of operands that evaluate to texts is associative, and
    the empty text is neutral on both sides. *)
Theorem concatenation (a b c : node) (env : any) (x y z : string) :
  expr.Eval a env = Ok (Val (VString x)) ->
  expr.Eval b env = Ok (Val (VString y)) ->
  expr.Eval c env = Ok (Val (VString z)) ->
  expr.Eval (binaryNode "~" (binaryNode "~" a b) c) env
  = expr.Eval (binaryNode "~" a (binaryNode "~" b c)) env /\
  expr.Eval (binaryNode "~" a (binaryNode "~" b c)) env
  = Ok (Val (VString (x ++ y ++ z))) /\
  expr.Eval (binaryNode "~" a (textNode "")) env = Ok (Val (VString x)) /\
  expr.Eval (binaryNode "~" (textNode "") a) env = Ok (Val (VString x)).
Proof.
  intros Ha Hb Hc.
  assert (R : expr.Eval (binaryNode "~" a (binaryNode "~" b c)) env
              = Ok (Val (VString (x ++ y ++ z)))).
  { cbn [expr.Eval]. rewrite Ha. cbn. rewrite Hb. cbn. rewrite Hc. reflexivity. }
  repeat split.
  - rewrite R. cbn [expr.Eval]. rewrite Ha. cbn. rewrite Hb. cbn. rewrite Hc.
    cbn. now rewrite append_assoc.
  - exact R.
  - cbn [expr.Eval]. rewrite Ha. cbn. now rewrite append_empty_r.
  - cbn [expr.Eval]. cbn. rewrite Ha. reflexivity.
Qed.

Lemma concatenation_witness :
  expr.Eval (binaryNode "~" (binaryNode "~" (textNode "a") (textNode "b"))
                        (textNode "c")) None
  = expr.Eval (binaryNode "~" (textNode "a")
                          (binaryNode "~" (textNode "b") (textNode "c"))) None.
Proof.
  exact (proj1 (concatenation (textNode "a") (textNode "b") (textNode "c") None
                  "a" "b" "c" eq_refl eq_refl eq_refl)).
Defined.



(** ** Whole numbers in float64

    The tree-walking evaluator keeps every number as a float64 and converts
    back with [int64(...)]; below 2^53 nothing is lost on the way. *)

Lemma digits2_size (p : positive) : digits2_pos p = Pos.size p.
Proof. induction p; cbn; congruence. Qed.

Lemma digits_bound (m : positive) :
  Zpos m < 2 ^ 53 -> Zpos (digits2_pos m) <= 53.
Proof.
  intros H. rewrite digits2_size.
  pose proof (Pos.size_le m) as L.
  apply Pos2Z.pos_le_pos in L. rewrite Pos2Z.inj_pow in L.
  rewrite Pos2Z.inj_xO in L.
  destruct (Z_le_gt_dec (Zpos (Pos.size m)) 53) as [? | G]; [assumption |].
  assert (B : 2 ^ 54 <= 2 ^ Zpos (Pos.size m))
    by (apply Z.pow_le_mono_r; lia).
  change (2 * 1) with 2 in L. change (Zpos m~0) with (2 * Zpos m) in L.
  change (2 ^ 54) with 18014398509481984 in B.
  change (2 ^ 53) with 9007199254740992 in H. lia.
Qed.

Lemma iter_xO_value (k m : positive) :
  Zpos (Pos.iter xO m k) = Zpos m * 2 ^ Zpos k.
Proof.
  induction k as [| k IH] using Pos.peano_ind.
  - cbn [Pos.iter]. rewrite Pos2Z.inj_xO. change (2 ^ 1) with 2. lia.
  - rewrite Pos.iter_succ, Pos2Z.inj_xO, IH, Pos2Z.inj_succ, Z.pow_succ_r by lia.
    lia.
Qed.

Lemma iter_xO_digits (k m : positive) :
  digits2_pos (Pos.iter xO m k) = (digits2_pos m + k)%positive.
Proof.
  induction k as [| k IH] using Pos.peano_ind.
  - cbn. now rewrite Pos.add_1_r.
  - rewrite Pos.iter_succ. cbn [digits2_pos]. rewrite IH. lia.
Qed.

(** A mantissa of 53 digits with an exponent in range is kept as it is. *)
Lemma round_exact (s : bool) (m : positive) (e : Z) :
  digits2_pos m = 53%positive -> -1074 <= e <= 971 ->
  binary_round_aux 53 1024 s (Zpos m) e loc_Exact = S754_finite s m e.
Proof.
  intros D E. unfold binary_round_aux, shr_fexp, fexp, emin.
  cbn [Zdigits2 shr_record_of_loc]. rewrite D.
  replace (Z.max (53 + e - 53) (3 - 1024 - 53)) with e by lia.
  rewrite Z.sub_diag. cbn [shr shr_m loc_of_shr_record round_nearest_even].
  cbn [Zdigits2 shr_record_of_loc]. rewrite D.
  replace (Z.max (53 + e - 53) (3 - 1024 - 53)) with e by lia.
  rewrite Z.sub_diag. cbn [shr shr_m].
  destruct (e <=? 1024 - 53) eqn:L; [reflexivity |].
  apply Z.leb_gt in L. lia.
Qed.

Lemma of_Z_pos (s : bool) (m : positive) :
  Zpos m < 2 ^ 53 ->
  exists mz ez,
    binary_round 53 1024 s m 0 = S754_finite s mz ez /\
    Z.shiftl (Zpos mz) ez = Zpos m.
Proof.
  intros H. pose proof (digits_bound m H) as D.
  unfold binary_round, fexp, emin.
  replace (Z.max (Zpos (digits2_pos m) + 0 - 53) (3 - 1024 - 53))
    with (Zpos (digits2_pos m) - 53) by lia.
  unfold shl_align. rewrite Z.sub_0_r.
  destruct (Zpos (digits2_pos m) - 53) as [| p | k] eqn:E; try lia.
  - exists m, 0. split; [| reflexivity].
    apply round_exact; [| lia]. lia.
  - exists (Pos.iter xO m k), (Zneg k). split.
    + apply round_exact; [| lia]. rewrite iter_xO_digits. lia.
    + change (Z.shiftl (Zpos (Pos.iter xO m k)) (Zneg k))
        with (Z.shiftr (Zpos (Pos.iter xO m k)) (Zpos k)).
      rewrite Z.shiftr_div_pow2 by lia. rewrite iter_xO_value.
      apply Z.div_mul. apply Z.pow_nonzero; lia.
Qed.

(** The conversion of a whole number below 2^53 to float64 and back. *)
Lemma whole_number_round_trip (z : Z) :
  - 2 ^ 53 < z < 2 ^ 53 ->
  truncate (of_Z Float64 z) = Some z /\ to_int64 (of_Z Float64 z) = z.
Proof.
  intros H.
  assert (T : truncate (of_Z Float64 z) = Some z).
  { unfold of_Z, binary_normalize. cbn [prec emax].
    destruct z as [| m | m].
    - reflexivity.
    - destruct (of_Z_pos false m) as (mz & ez & -> & S); [lia |].
      cbn [truncate cond_Zopp]. now rewrite S.
    - destruct (of_Z_pos true m) as (mz & ez & -> & S);
        [change (Zneg m) with (- Zpos m) in H; lia |].
      cbn [truncate cond_Zopp]. now rewrite S. }
  split; [exact T |]. unfold to_int64. rewrite T.
  assert (B : (min_int Int64 <=? z) && (z <=? max_int Int64) = true).
  { unfold min_int, max_int. cbn [signed bits].
    change (2 ^ 53) with 9007199254740992 in H.
    change (2 ^ (64 - 1)) with 9223372036854775808.
    apply andb_true_iff. split; apply Z.leb_le; lia. }
  now rewrite B.
Qed.

Lemma feqb_finite (s1 s2 : bool) (m1 m2 : positive) (e1 e2 : Z) :
  feqb (S754_finite s1 m1 e1) (S754_finite s2 m2 e2) = true ->
  s1 = s2 /\ m1 = m2 /\ e1 = e2.
Proof.
  unfold feqb, SFeqb, SFcompare.
  destruct s1, s2; try discriminate;
    destruct (e1 ?= e2) eqn:E; try discriminate;
    apply Z.compare_eq in E;
    destruct (Pos.compare_cont Eq m1 m2) eqn:M; try discriminate;
    apply Pos.compare_eq in M; intros _; now subst.
Qed.

Lemma feqb_refl (f : float) : f <> S754_nan -> feqb f f = true.
Proof.
  intros H. unfold feqb, SFeqb, SFcompare.
  destruct f as [[] | [] | | [] m e]; try reflexivity; try now elim H.
  - now rewrite Z.compare_refl, Pos.compare_cont_refl.
  - now rewrite Z.compare_refl, Pos.compare_cont_refl.
Qed.

(** The float64 of a whole number below 2^53 is zero or finite. *)
Lemma of_Z_shape (z : Z) :
  - 2 ^ 53 < z < 2 ^ 53 ->
  (z = 0 /\ of_Z Float64 z = S754_zero false) \/
  (z <> 0 /\ exists s m e, of_Z Float64 z = S754_finite s m e).
Proof.
  intros H. unfold of_Z, binary_normalize. cbn [prec emax].
  destruct z as [| m | m].
  - now left.
  - right. split; [lia |].
    destruct (of_Z_pos false m) as (mz & ez & -> & _); [lia |]. eauto.
  - right. split; [lia |].
    destruct (of_Z_pos true m) as (mz & ez & -> & _);
      [change (Zneg m) with (- Zpos m) in H; lia |]. eauto.
Qed.

(** Equality of float64 is exact on whole numbers below 2^53. *)
Lemma feqb_whole (x y : Z) :
  - 2 ^ 53 < x < 2 ^ 53 -> - 2 ^ 53 < y < 2 ^ 53 ->
  feqb (of_Z Float64 x) (of_Z Float64 y) = (x =? y).
Proof.
  intros Hx Hy. destruct (Z.eqb_spec x y) as [-> | N].
  - apply feqb_refl.
    destruct (of_Z_shape y Hy) as [[_ ->] | [_ (s & m & e & ->)]]; discriminate.
  - destruct (feqb (of_Z Float64 x) (of_Z Float64 y)) eqn:E; [| reflexivity].
    exfalso. apply N.
    destruct (whole_number_round_trip x Hx) as [Tx _].
    destruct (whole_number_round_trip y Hy) as [Ty _].
    destruct (of_Z_shape x Hx) as [[Zx Ex] | [_ (s & m & e & Ex)]];
      destruct (of_Z_shape y Hy) as [[Zy Ey] | [_ (s' & m' & e' & Ey)]];
      rewrite Ex, Ey in E; try congruence;
      try (destruct s'; discriminate E); try (destruct s; discriminate E).
    apply feqb_finite in E as (-> & -> & ->). congruence.
Qed.

(** ** The tree-walking evaluator: containers (runtime.go, eval.go) *)

Lemma contains_slice_strings (needle : Value) (s : string) (l : list string) :
  needle = Val (VString s) \/ needle = Val (VIface (Some (VString s))) ->
  expr.contains_slice needle (map VString l)
  = Ok (existsb (fun y => String.eqb y s) l).
Proof.
  intros H. induction l as [| y l IH]; [reflexivity |].
  cbn [map expr.contains_slice existsb].
  assert (E : expr.equal (Val (VString y)) needle = Ok (String.eqb y s))
    by (destruct H as [-> | ->]; reflexivity).
  rewrite E. cbn [bind]. destruct (String.eqb y s); [reflexivity | exact IH].
Qed.

Lemma contains_slice_integers (f : float) (k : ikind) (l : list Z) :
  expr.contains_slice (Val (VFloat Float64 f)) (map (VInt k) l)
  = Ok (existsb (fun z => feqb f (of_Z Float64 z)) l).
Proof.
  induction l as [| z l IH]; [reflexivity |].
  cbn [map expr.contains_slice existsb].
  rewrite (tree_equal_float64_right (VInt k z) f eq_refl)
    by discriminate.
  cbn [bind shape.number expr.cast fst].
  destruct (feqb f (of_Z Float64 z)); [reflexivity | exact IH].
Qed.

(** X6: on a host slice whose elements have a concrete type, membership is
    membership in the list: a text is in a [[]string] exactly when it is one
    of its elements, and a number literal is in a slice of integers exactly
    when an element has its float64 value. *)
Theorem host_slice_membership :
  (forall (s : string) (l : list string),
      expr.contains (Val (VString s)) (Val (notions.strings l))
      = Ok (existsb (fun y => String.eqb y s) l)) /\
  (forall (f : float) (k : ikind) (l : list Z),
      expr.contains (Val (VFloat Float64 f)) (Val (notions.integers k l))
      = Ok (existsb (fun z => feqb f (of_Z Float64 z)) l)) /\
  (forall (n : Z) (k : ikind) (l : list Z),
      - 2 ^ 53 < n < 2 ^ 53 -> Forall (fun z => - 2 ^ 53 < z < 2 ^ 53) l ->
      expr.contains (Val (VFloat Float64 (of_Z Float64 n)))
                    (Val (notions.integers k l))
      = Ok (existsb (Z.eqb n) l)).
Proof.
  split; [| split].
  - intros s l. apply contains_slice_strings. now left.
  - intros f k l. apply contains_slice_integers.
  - intros n k l Hn Hl.
    unfold expr.contains, expr.contains_in, notions.integers.
    rewrite contains_slice_integers. f_equal.
    induction Hl as [| z l Hz Hl IH]; [reflexivity |].
    cbn [existsb]. now rewrite IH, feqb_whole.
Qed.

Lemma host_slice_membership_witness :
  expr.contains (Val (VFloat Float64 (of_Z Float64 2)))
                (Val (notions.integers Int [1; 2; 3])) = Ok true.
Proof.
  refine (proj2 (proj2 host_slice_membership) 2 Int [1; 2; 3] _ _).
  - split; reflexivity.
  - repeat constructor.
Defined.

(** X7: indexing a slice with a whole number: an index within the bounds
    returns that element, an index outside panics in [reflect], and an index
    that is no number gives the error "cannot get". *)
Theorem index_slice (node index : node) (env : any) (e : type)
  (xs : list value) :
  expr.Eval node env = Ok (Val (VSlice e xs)) ->
  (forall i x,
      expr.Eval index env = Ok (Val (VFloat Float64 (of_Z Float64 i))) ->
      0 <= i < 2 ^ 53 -> nth_error xs (Z.to_nat i) = Some x ->
      expr.Eval (indexNode node index) env = Ok (Val x)) /\
  (forall i,
      expr.Eval index env = Ok (Val (VFloat Float64 (of_Z Float64 i))) ->
      - 2 ^ 53 < i < 2 ^ 53 -> i < 0 \/ Z.of_nat (List.length xs) <= i ->
      expr.Eval (indexNode node index) env = Panic (ReflectPanic "Index")) /\
  (forall s,
      expr.Eval index env = Ok (Val (VString s)) ->
      expr.Eval (indexNode node index) env
      = Errorf "cannot get %q from %T: %v"
               [AValue (Val (VString s)); AValue (Val (VSlice e xs));
                ANode (indexNode node index)]).
Proof.
  intros Hn. split; [| split].
  - intros i x Hi B Hx. cbn [expr.Eval]. rewrite Hn, Hi. cbn.
    destruct (whole_number_round_trip i) as [_ ->]; [lia |].
    destruct (i <? 0) eqn:N; [apply Z.ltb_lt in N; lia |].
    now rewrite Hx.
  - intros i Hi B O. cbn [expr.Eval]. rewrite Hn, Hi. cbn.
    destruct (whole_number_round_trip i B) as [_ ->].
    destruct (i <? 0) eqn:N; [reflexivity |]. apply Z.ltb_ge in N.
    destruct (nth_error xs (Z.to_nat i)) eqn:X; [| reflexivity].
    assert (Z.to_nat i < List.length xs)%nat
      by (apply nth_error_Some; congruence).
    lia.
  - intros s Hs. cbn [expr.Eval]. rewrite Hn, Hs. reflexivity.
Qed.

Lemma index_slice_witness :
  expr.Eval (indexNode (nameNode "Tags") (scenario.num 1))
            (Some (VStruct "Env" [("Tags", notions.strings ["a"; "b"])]))
  = Ok (Val (VString "b")).
Proof.
  refine (proj1 (index_slice (nameNode "Tags") (scenario.num 1)
                   (Some (VStruct "Env" [("Tags", notions.strings ["a"; "b"])]))
                   TString [VString "a"; VString "b"] eq_refl)
                 1 _ eq_refl _ eq_refl).
  split; [lia | reflexivity].
Defined.

(** ** Order of whole numbers in float64 *)

Lemma digits_53 (m : positive) :
  digits2_pos m = 53%positive -> 2 ^ 52 <= Zpos m < 2 ^ 53.
Proof.
  rewrite digits2_size. intros D.
  pose proof (Pos.size_le m) as L. pose proof (Pos.size_gt m) as G.
  rewrite D in L, G.
  apply Pos2Z.pos_le_pos in L. apply Pos2Z.pos_lt_pos in G.
  rewrite Pos2Z.inj_pow in L, G. rewrite Pos2Z.inj_xO in L.
  change (Zpos 2) with 2 in L, G. change (Zpos 53) with 53 in L, G.
  change (2 ^ 53) with 9007199254740992 in *.
  change (2 ^ 52) with 4503599627370496. lia.
Qed.

(** The float64 of a positive whole number below 2^53 is normal: a mantissa
    of 53 digits, the number shifted left. *)
Lemma of_Z_normal (s : bool) (m : positive) :
  Zpos m < 2 ^ 53 ->
  exists mz k,
    binary_round 53 1024 s m 0 = S754_finite s mz (- k) /\
    0 <= k /\ Zpos mz = Zpos m * 2 ^ k /\ digits2_pos mz = 53%positive.
Proof.
  intros H. pose proof (digits_bound m H) as D.
  unfold binary_round, fexp, emin.
  replace (Z.max (Zpos (digits2_pos m) + 0 - 53) (3 - 1024 - 53))
    with (Zpos (digits2_pos m) - 53) by lia.
  unfold shl_align. rewrite Z.sub_0_r.
  destruct (Zpos (digits2_pos m) - 53) as [| p | k] eqn:E; try lia.
  - exists m, 0. repeat split; [| lia | cbn; lia | lia].
    apply round_exact; [| lia]. lia.
  - exists (Pos.iter xO m k), (Zpos k). repeat split; [| lia | |].
    + apply round_exact; [| lia]. rewrite iter_xO_digits. lia.
    + apply iter_xO_value.
    + rewrite iter_xO_digits. lia.
Qed.

Lemma compare_normal (m1 m2 mz1 mz2 : positive) (k1 k2 : Z) :
  0 <= k1 -> 0 <= k2 ->
  Zpos mz1 = Zpos m1 * 2 ^ k1 -> Zpos mz2 = Zpos m2 * 2 ^ k2 ->
  digits2_pos mz1 = 53%positive -> digits2_pos mz2 = 53%positive ->
  match - k1 ?= - k2 with
  | Eq => Pos.compare_cont Eq mz1 mz2
  | Lt => Lt
  | Gt => Gt
  end = (Zpos m1 ?= Zpos m2).
Proof.
  intros K1 K2 V1 V2 D1 D2.
  apply digits_53 in D1, D2. rewrite V1 in D1. rewrite V2 in D2.
  assert (P1 : 0 < 2 ^ k1) by (apply Z.pow_pos_nonneg; lia).
  assert (P2 : 0 < 2 ^ k2) by (apply Z.pow_pos_nonneg; lia).
  change (2 ^ 53) with (2 * 2 ^ 52) in D1, D2.
  destruct (Z.compare_spec (- k1) (- k2)) as [E | L | G].
  - assert (k1 = k2) by lia. subst k2.
    change (Pos.compare_cont Eq mz1 mz2) with (Zpos mz1 ?= Zpos mz2).
    rewrite V1, V2.
    destruct (Z.compare_spec (Zpos m1) (Zpos m2)) as [E' | L' | G'].
    + rewrite E'. apply Z.compare_refl.
    + apply Z.compare_lt_iff. nia.
    + apply Z.compare_gt_iff. nia.
  - symmetry. apply Z.compare_lt_iff.
    replace k1 with (k2 + (k1 - k2)) in D1, P1 by lia.
    rewrite Z.pow_add_r in D1, P1 by lia.
    assert (2 <= 2 ^ (k1 - k2))
      by (change 2 with (2 ^ 1) at 1; apply Z.pow_le_mono_r; lia).
    nia.
  - symmetry. apply Z.compare_gt_iff.
    replace k2 with (k1 + (k2 - k1)) in D2, P2 by lia.
    rewrite Z.pow_add_r in D2, P2 by lia.
    assert (2 <= 2 ^ (k2 - k1))
      by (change 2 with (2 ^ 1) at 1; apply Z.pow_le_mono_r; lia).
    nia.
Qed.

Lemma compare_whole (x y : Z) :
  - 2 ^ 53 < x < 2 ^ 53 -> - 2 ^ 53 < y < 2 ^ 53 ->
  SFcompare (of_Z Float64 x) (of_Z Float64 y) = Some (x ?= y).
Proof.
  intros Hx Hy. unfold of_Z, binary_normalize. cbn [prec emax].
  destruct x as [| a | a], y as [| b | b]; try reflexivity;
    repeat match goal with
      | |- context [binary_round 53 1024 ?s ?m 0] =>
          let mz := fresh "mz" in
          let k := fresh "k" in
          let K := fresh "K" in
          let V := fresh "V" in
          let D := fresh "D" in
          destruct (of_Z_normal s m) as (mz & k & -> & K & V & D);
          [first [lia | change (Zneg m) with (- Zpos m) in *; lia] |]
      end; try reflexivity.
  - cbn [SFcompare]. f_equal. now apply compare_normal.
  - cbn [SFcompare]. f_equal.
    change (Zneg a ?= Zneg b) with (CompOpp (Zpos a ?= Zpos b)).
    rewrite <- (compare_normal a b mz mz0 k k0) by assumption.
    destruct (- k ?= - k0); reflexivity.
Qed.

(** The order of float64 is exact on whole numbers below 2^53. *)
Lemma fltb_whole (x y : Z) :
  - 2 ^ 53 < x < 2 ^ 53 -> - 2 ^ 53 < y < 2 ^ 53 ->
  fltb (of_Z Float64 x) (of_Z Float64 y) = (x <? y).
Proof.
  intros Hx Hy. unfold fltb, SFltb. rewrite compare_whole by assumption.
  unfold Z.ltb. destruct (x ?= y); reflexivity.
Qed.

Lemma fleb_whole (x y : Z) :
  - 2 ^ 53 < x < 2 ^ 53 -> - 2 ^ 53 < y < 2 ^ 53 ->
  fleb (of_Z Float64 x) (of_Z Float64 y) = (x <=? y).
Proof.
  intros Hx Hy. unfold fleb, SFleb. rewrite compare_whole by assumption.
  unfold Z.leb. destruct (x ?= y); reflexivity.
Qed.

(** ** The tree-walking evaluator: whole numbers (eval.go, runtime.go) *)

Lemma whole_number (x : value) (z : Z) :
  notions.whole x z ->
  shape.numeric x = true /\ shape.number x = of_Z Float64 z /\
  to_int64 (shape.number x) = z.
Proof.
  intros [B [-> | [k ->]]];
    (split; [reflexivity | split; [reflexivity |]]);
    apply (whole_number_round_trip z B).
Qed.

(** An operator on numbers evaluates both operands, converts them and goes
    on with [number_operator]. *)
Lemma binary_numbers (op : string) (nl nr : node) (env : any) (x y : value) :
  existsb (String.eqb op) notions.before_numbers = false ->
  expr.Eval nl env = Ok (Val x) -> expr.Eval nr env = Ok (Val y) ->
  shape.numeric x = true -> shape.numeric y = true ->
  expr.Eval (binaryNode op nl nr) env
  = expr.number_operator op (shape.number x) (shape.number y).
Proof.
  intros O Hl Hr Nx Ny. cbn [expr.Eval]. rewrite Hl, Hr. cbn [bind].
  unfold notions.before_numbers in O. cbn [existsb] in O.
  repeat (apply orb_false_iff in O; destruct O as [?E O]).
  unfold expr.op_is. rewrite E, E0, E1, E2, E3, E4, E5, E6, E7.
  cbn [orb]. unfold expr.toNumber, shape.number.
  destruct x; try discriminate Nx; destruct y; try discriminate Ny;
    reflexivity.
Qed.

Ltac numbers Hl Hr Nx Ny :=
  match goal with
  | |- context [expr.Eval (binaryNode ?op ?nl ?nr) ?env] =>
      rewrite (binary_numbers op nl nr env _ _ eq_refl Hl Hr Nx Ny)
  end.

(** X8: the order of whole numbers below 2^53 is the order of the integers,
    for literals and for integers of the host alike, though both operands are
    compared as float64. *)
Theorem whole_number_order (nl nr : node) (env : any) (x y : value)
  (a b : Z) :
  expr.Eval nl env = Ok (Val x) -> expr.Eval nr env = Ok (Val y) ->
  notions.whole x a -> notions.whole y b ->
  expr.Eval (binaryNode "<" nl nr) env = Ok (Val (VBool (a <? b))) /\
  expr.Eval (binaryNode "<=" nl nr) env = Ok (Val (VBool (a <=? b))) /\
  expr.Eval (binaryNode ">" nl nr) env = Ok (Val (VBool (b <? a))) /\
  expr.Eval (binaryNode ">=" nl nr) env = Ok (Val (VBool (b <=? a))).
Proof.
  intros Hl Hr Wx Wy.
  destruct (whole_number x a Wx) as (Nx & Ex & _).
  destruct (whole_number y b Wy) as (Ny & Ey & _).
  destruct Wx as [Ba _], Wy as [Bb _].
  repeat split; numbers Hl Hr Nx Ny; rewrite Ex, Ey;
    unfold expr.number_operator; cbn [expr.op_is String.eqb Ascii.eqb Bool.eqb];
    now rewrite ?fltb_whole, ?fleb_whole by assumption.
Qed.

Lemma whole_number_order_witness :
  expr.Eval (binaryNode "<" (nameNode "Age") (scenario.num 18))
            (Some (VStruct "Env" [("Age", VInt Int 17)]))
  = Ok (Val (VBool true)).
Proof.
  refine (proj1 (whole_number_order (nameNode "Age") (scenario.num 18)
                   (Some (VStruct "Env" [("Age", VInt Int 17)]))
                   (VInt Int 17) (VFloat Float64 (of_Z Float64 18)) 17 18
                   eq_refl eq_refl _ _)).
  - split; [split; reflexivity | right; now exists Int].
  - split; [split; reflexivity | now left].
Defined.

(** X9: a whole-number literal equals a whole number, a literal or an integer
    of the host of any kind, exactly when they are the same integer, on
    either side of [==]; [!=] is the negation. *)
Theorem whole_number_equality (nl nr : node) (env : any) (y : value)
  (a b : Z) :
  expr.Eval nl env = Ok (Val (VFloat Float64 (of_Z Float64 a))) ->
  expr.Eval nr env = Ok (Val y) ->
  - 2 ^ 53 < a < 2 ^ 53 -> notions.whole y b ->
  expr.Eval (binaryNode "==" nl nr) env = Ok (Val (VBool (a =? b))) /\
  expr.Eval (binaryNode "==" nr nl) env = Ok (Val (VBool (a =? b))) /\
  expr.Eval (binaryNode "!=" nl nr) env = Ok (Val (VBool (negb (a =? b)))) /\
  expr.Eval (binaryNode "!=" nr nl) env = Ok (Val (VBool (negb (a =? b)))).
Proof.
  intros Hl Hr Ba Wy.
  assert (L : expr.equal (Val (VFloat Float64 (of_Z Float64 a))) (Val y)
              = Ok (a =? b)).
  { destruct Wy as [Bb [-> | [k ->]]];
      rewrite tree_equal_float64_left by reflexivity;
      cbn [shape.number expr.cast fst]; now rewrite feqb_whole. }
  assert (R : expr.equal (Val y) (Val (VFloat Float64 (of_Z Float64 a)))
              = Ok (a =? b)).
  { destruct Wy as [Bb [-> | [k ->]]].
    - rewrite tree_equal_float64_left by reflexivity.
      cbn [shape.number expr.cast fst].
      now rewrite feqb_whole, Z.eqb_sym.
    - rewrite tree_equal_float64_right by (reflexivity || discriminate).
      cbn [shape.number expr.cast fst]. now rewrite feqb_whole. }
  repeat split; cbn [expr.Eval]; rewrite Hl, Hr; cbn [bind];
    cbn [expr.op_is String.eqb Ascii.eqb Bool.eqb orb];
    rewrite ?L, ?R; reflexivity.
Qed.

Lemma whole_number_equality_witness :
  expr.Eval (binaryNode "==" (nameNode "Age") (scenario.num 18))
            (Some (VStruct "Env" [("Age", VInt Int8 18)]))
  = Ok (Val (VBool true)).
Proof.
  refine (proj1 (proj2 (whole_number_equality (scenario.num 18) (nameNode "Age")
                   (Some (VStruct "Env" [("Age", VInt Int8 18)]))
                   (VInt Int8 18) 18 18 eq_refl eq_refl _ _))).
  - split; reflexivity.
  - split; [split; reflexivity | right; now exists Int8].
Defined.

(** X10: on whole numbers below 2^53 the remainder is the truncated
    remainder of the integers, with the error "division by zero" for a zero
    divisor, and the bitwise operators are those of the integers, returned
    as an [int]. *)
Theorem whole_number_integer_operators (nl nr : node) (env : any)
  (x y : value) (a b : Z) :
  expr.Eval nl env = Ok (Val x) -> expr.Eval nr env = Ok (Val y) ->
  notions.whole x a -> notions.whole y b ->
  expr.Eval (binaryNode "%" nl nr) env
  = (if b =? 0 then Errorf "division by zero" []
     else Ok (Val (VFloat Float64 (of_Z Float64 (Z.rem a b))))) /\
  expr.Eval (binaryNode "|" nl nr) env = Ok (Val (VInt Int (Z.lor a b))) /\
  expr.Eval (binaryNode "^" nl nr) env = Ok (Val (VInt Int (Z.lxor a b))) /\
  expr.Eval (binaryNode "&" nl nr) env = Ok (Val (VInt Int (Z.land a b))).
Proof.
  intros Hl Hr Wx Wy.
  destruct (whole_number x a Wx) as (Nx & _ & Ex).
  destruct (whole_number y b Wy) as (Ny & _ & Ey).
  destruct Wx as [Ba _], Wy as [Bb _].
  repeat split; numbers Hl Hr Nx Ny; unfold expr.number_operator;
    cbn [expr.op_is String.eqb Ascii.eqb Bool.eqb]; rewrite Ex, Ey;
    try reflexivity.
  destruct (Z.eqb_spec b 0) as [| N]; [reflexivity |].
  rewrite wrap_in_range; [reflexivity |].
  pose proof (Z.rem_bound_abs a b N) as R.
  bounds. lia.
Qed.

Lemma whole_number_integer_operators_witness :
  expr.Eval (binaryNode "%" (scenario.num (-7)) (scenario.num 2)) None
  = Ok (Val (VFloat Float64 (of_Z Float64 (-1)))).
Proof.
  refine (proj1 (whole_number_integer_operators
                   (scenario.num (-7)) (scenario.num 2) None
                   (VFloat Float64 (of_Z Float64 (-7)))
                   (VFloat Float64 (of_Z Float64 2)) (-7) 2
                   eq_refl eq_refl _ _)).
  - split; [split; reflexivity | now left].
  - split; [split; reflexivity | now left].
Defined.

(** ** The tree-walking evaluator: ranges (eval.go) *)

Lemma tree_makeRange_whole (min max : Z) :
  - 2 ^ 53 < min < 2 ^ 53 -> - 2 ^ 53 < max < 2 ^ 53 ->
  expr.makeRange min max
  = if 1000000 <? max - min + 1
    then Errorf "range %v..%v exceeded max size of 1e6" [AInt min; AInt max]
    else if max - min + 1 <? 0
         then Panic (RuntimePanic "makeslice: len out of range")
         else Ok (Val (VSlice (TFloat Float64)
                         (map (fun i => VFloat Float64
                                          (of_Z Float64 (min + Z.of_nat i)))
                              (seq 0 (Z.to_nat (max - min + 1)))))).
Proof.
  intros Hmin Hmax. unfold expr.makeRange.
  rewrite (wrap_in_range Int64 (max - min)) by (bounds; lia).
  rewrite (wrap_in_range Int64 (max - min + 1)) by (bounds; lia).
  destruct (1000000 <? max - min + 1) eqn:A; [reflexivity |].
  destruct (max - min + 1 <? 0) eqn:B; [reflexivity |].
  apply Z.ltb_ge in A, B.
  do 3 f_equal. apply map_ext_in. intros i Hi. apply in_seq in Hi.
  rewrite wrap_in_range; [reflexivity |]. bounds. lia.
Qed.

(** X11: the range of two whole numbers below 2^53: the numbers from the
    first to the last as float64 (none when the last is the one before the
    first), the error of the cap for more than 1e6 elements, and a panic of
    [make] for a range that descends by more than one. *)
Theorem range_of_whole_numbers (nl nr : node) (env : any) (x y : value)
  (a b : Z) :
  expr.Eval nl env = Ok (Val x) -> expr.Eval nr env = Ok (Val y) ->
  notions.whole x a -> notions.whole y b ->
  (a <= b + 1 -> b - a < 1000000 ->
   expr.Eval (binaryNode ".." nl nr) env
   = Ok (Val (VSlice (TFloat Float64)
                (map (fun i => VFloat Float64 (of_Z Float64 (a + Z.of_nat i)))
                     (seq 0 (Z.to_nat (b - a + 1))))))) /\
  (1000000 <= b - a ->
   expr.Eval (binaryNode ".." nl nr) env
   = Errorf "range %v..%v exceeded max size of 1e6" [AInt a; AInt b]) /\
  (b + 1 < a ->
   expr.Eval (binaryNode ".." nl nr) env
   = Panic (RuntimePanic "makeslice: len out of range")).
Proof.
  intros Hl Hr Wx Wy.
  destruct (whole_number x a Wx) as (Nx & _ & Ex).
  destruct (whole_number y b Wy) as (Ny & _ & Ey).
  destruct Wx as [Ba _], Wy as [Bb _].
  assert (E : expr.Eval (binaryNode ".." nl nr) env = expr.makeRange a b).
  { numbers Hl Hr Nx Ny. unfold expr.number_operator.
    cbn [expr.op_is String.eqb Ascii.eqb Bool.eqb]. now rewrite Ex, Ey. }
  rewrite E, tree_makeRange_whole by assumption.
  repeat split; intros;
    destruct (1000000 <? b - a + 1) eqn:A;
    destruct (b - a + 1 <? 0) eqn:B;
    try apply Z.ltb_lt in A; try apply Z.ltb_ge in A;
    try apply Z.ltb_lt in B; try apply Z.ltb_ge in B;
    try reflexivity; lia.
Qed.

Lemma range_of_whole_numbers_witness :
  expr.Eval (binaryNode ".." (scenario.num 3) (scenario.num 1)) None
  = Panic (RuntimePanic "makeslice: len out of range").
Proof.
  refine (proj2 (proj2 (range_of_whole_numbers
                          (scenario.num 3) (scenario.num 1) None
                          (VFloat Float64 (of_Z Float64 3))
                          (VFloat Float64 (of_Z Float64 1)) 3 1
                          eq_refl eq_refl _ _)) _).
  - split; [split; reflexivity | now left].
  - split; [split; reflexivity | now left].
  - reflexivity.
Defined.

Lemma contains_slice_range (v : value) (c a : Z) (len start : nat) :
  notions.whole v c ->
  - 2 ^ 53 < a + Z.of_nat start -> a + Z.of_nat (start + len) <= 2 ^ 53 ->
  expr.contains_slice (Val v)
    (map (fun i => VFloat Float64 (of_Z Float64 (a + Z.of_nat i)))
         (seq start len))
  = Ok ((a + Z.of_nat start <=? c) && (c <? a + Z.of_nat (start + len))).
Proof.
  intros W. destruct (whole_number v c W) as (Nv & Ev & _).
  destruct W as [Bc _].
  revert start. induction len as [| len IH]; intros start Lo Hi.
  - cbn [seq map expr.contains_slice]. f_equal. rewrite Nat.add_0_r.
    symmetry. apply andb_false_iff.
    destruct (Z.leb_spec (a + Z.of_nat start) c); [right | now left].
    apply Z.ltb_ge. lia.
  - cbn [seq map expr.contains_slice].
    rewrite tree_equal_float64_left, Ev by assumption.
    rewrite feqb_whole by lia. cbn [bind].
    destruct (Z.eqb_spec (a + Z.of_nat start) c) as [E | N].
    + f_equal. symmetry. apply andb_true_iff.
      split; [apply Z.leb_le | apply Z.ltb_lt]; lia.
    + rewrite IH by lia. f_equal.
      replace (S start + len)%nat with (start + S len)%nat by lia.
      f_equal. apply eq_true_iff_eq. rewrite !Z.leb_le. lia.
Qed.

(** X12: membership in a range of whole numbers is the test of the two
    bounds: [n in a..b] is [a <= n && n <= b], for a range of at most 1e6
    elements. *)
Theorem range_membership (n nl nr : node) (env : any) (v x y : value)
  (c a b : Z) :
  expr.Eval n env = Ok (Val v) ->
  expr.Eval nl env = Ok (Val x) -> expr.Eval nr env = Ok (Val y) ->
  notions.whole v c -> notions.whole x a -> notions.whole y b ->
  a <= b + 1 -> b - a < 1000000 ->
  expr.Eval (binaryNode "in" n (binaryNode ".." nl nr)) env
  = Ok (Val (VBool ((a <=? c) && (c <=? b)))).
Proof.
  intros Hn Hl Hr Wv Wx Wy Le Cap.
  destruct (range_of_whole_numbers nl nr env x y a b Hl Hr Wx Wy)
    as (R & _ & _).
  specialize (R Le Cap).
  cbn [expr.Eval] in R |- *. rewrite Hn. cbn [bind]. rewrite R.
  cbn [bind expr.op_is String.eqb Ascii.eqb Bool.eqb orb].
  cbn [expr.contains expr.contains_in].
  destruct Wx as [Ba _], Wy as [Bb _].
  rewrite (contains_slice_range v c a _ 0 Wv) by lia.
  cbn [bind ValueOf]. do 4 f_equal.
  - f_equal. lia.
  - apply eq_true_iff_eq. rewrite Z.ltb_lt, Z.leb_le. lia.
Qed.

Lemma range_membership_witness :
  expr.Eval (binaryNode "in" (nameNode "Age")
               (binaryNode ".." (scenario.num 18) (scenario.num 65)))
            (Some (VStruct "Env" [("Age", VInt Int 30)]))
  = Ok (Val (VBool true)).
Proof.
  refine (range_membership (nameNode "Age") (scenario.num 18) (scenario.num 65)
            (Some (VStruct "Env" [("Age", VInt Int 30)]))
            (VInt Int 30) (VFloat Float64 (of_Z Float64 18))
            (VFloat Float64 (of_Z Float64 65)) 30 18 65
            eq_refl eq_refl eq_refl _ _ _ _ _).
  - split; [split; reflexivity | right; now exists Int].
  - split; [split; reflexivity | now left].
  - split; [split; reflexivity | now left].
  - lia.
  - lia.
Defined.

(** ** The builtin [len] (eval.go, vm helpers) *)

(** X13: the builtin [len] of the tree-walking evaluator never returns a
    length: it asks for the kind of the [reflect.Value] it holds, which is a
    struct, so one evaluated argument is always an "invalid argument"; no
    argument and more than one are errors before anything is evaluated.  The
    helper [length] of the machine does measure slices and strings. *)
Theorem len_builtin :
  (forall arguments env r,
      expr.Eval (builtinNode "len" arguments) env <> Ok r) /\
  (forall a env i,
      expr.Eval a env = Ok i ->
      expr.Eval (builtinNode "len" [a]) env
      = Errorf "invalid argument %v (type %T)"
               [ANode (builtinNode "len" [a]); AValue i]) /\
  (forall env,
      expr.Eval (builtinNode "len" []) env
      = Errorf "missing argument: %v" [ANode (builtinNode "len" [])]) /\
  (forall a b rest env,
      expr.Eval (builtinNode "len" (a :: b :: rest)) env
      = Errorf "too many arguments: %v"
               [ANode (builtinNode "len" (a :: b :: rest))]) /\
  (forall e xs, vm.length (Some (VSlice e xs)) = Ok (Z.of_nat (List.length xs))) /\
  (forall s, vm.length (Some (VString s)) = Ok (Z.of_nat (String.length s))).
Proof.
  repeat split.
  - intros [| a [| b rest]] env r; cbn [expr.Eval]; cbn; try discriminate.
    destruct (expr.Eval a env); cbn; discriminate.
  - intros a env i H. cbn [expr.Eval]. cbn. rewrite H. reflexivity.
Qed.

(** ** Map literals (eval.go, runtime.go) *)

Lemma mapassign_boxed (k v : value) (kvs : list (value * value)) :
  shape.boxed k -> Forall (fun kv => shape.boxed (fst kv)) kvs ->
  exists m, mapassign k v kvs = Ok m /\
            Forall (fun kv => shape.boxed (fst kv)) m.
Proof.
  intros Hk H. induction H as [| [k' v'] kvs Hk' H IH].
  - exists [(k, v)]. split; [reflexivity | now repeat constructor].
  - destruct IH as (m & M & B). cbn [mapassign]. rewrite M. cbn [bind].
    destruct (go_eq k' k) as [[] |]; eexists; (split; [reflexivity |]);
      now constructor.
Qed.

Lemma map_loop_boxed (env : any) (pairs : list (node * node))
  (acc r : list (value * value)) :
  Forall (fun kv => shape.boxed (fst kv)) acc ->
  each (fun (pair : node * node) (m : list (value * value)) =>
          let* key := expr.Eval (fst pair) env in
          let* value := expr.Eval (snd pair) env in
          mapassign (VIface (Some (VRValue key)))
                    (VIface (Some (VRValue value))) m) pairs acc = Ok r ->
  Forall (fun kv => shape.boxed (fst kv)) r.
Proof.
  revert acc. induction pairs as [| [k v] pairs IH]; intros acc Hacc H.
  - now inversion H; subst.
  - cbn [each fst snd] in H.
    destruct (expr.Eval k env) as [key | | |]; cbn [bind] in H;
      try discriminate.
    destruct (expr.Eval v env) as [val | | |]; cbn [bind] in H;
      try discriminate.
    destruct (mapassign_boxed (VIface (Some (VRValue key)))
                (VIface (Some (VRValue val))) acc) as (m & M & B);
      [now exists key | exact Hacc |].
    rewrite M in H. cbn [bind] in H. now apply IH in H.
Qed.

(** The loop of a map literal goes through when every key and every value
    evaluates: an assignment to the map never fails. *)
Lemma map_loop_evaluates (env : any) (pairs : list (node * node)) :
  Forall (fun pair => (exists k, expr.Eval (fst pair) env = Ok k) /\
                      (exists v, expr.Eval (snd pair) env = Ok v)) pairs ->
  forall acc, Forall (fun kv => shape.boxed (fst kv)) acc ->
  exists r,
    each (fun (pair : node * node) (m : list (value * value)) =>
            let* key := expr.Eval (fst pair) env in
            let* value := expr.Eval (snd pair) env in
            mapassign (VIface (Some (VRValue key)))
                      (VIface (Some (VRValue value))) m) pairs acc = Ok r.
Proof.
  intros H. induction H as [| [k v] pairs [[key Hk] [val Hv]] H IH];
    intros acc Hacc.
  - now exists acc.
  - cbn [each fst snd] in Hk, Hv |- *. rewrite Hk, Hv. cbn [bind].
    destruct (mapassign_boxed (VIface (Some (VRValue key)))
                (VIface (Some (VRValue val))) acc) as (m & M & B);
      [now exists key | exact Hacc |].
    rewrite M. cbn [bind]. now apply IH.
Qed.

Lemma mapaccess_boxed (k : value) (kvs : list (value * value)) :
  Forall (fun kv => shape.boxed (fst kv)) kvs ->
  shape.plain k = true ->
  mapaccess (match k with VIface _ => k | _ => VIface (Some k) end) kvs
  = Ok None.
Proof.
  intros H P. induction H as [| [k' v'] kvs [r Hk] H IH]; [reflexivity |].
  cbn [fst] in Hk. subst k'. cbn [mapaccess].
  replace (go_eq (VIface (Some (VRValue r)))
                 (match k with VIface _ => k | _ => VIface (Some k) end))
    with (Some false); [exact IH |].
  destruct k as [ | | | | [[] |] | | | | | | ]; try discriminate P;
    reflexivity.
Qed.

(** X14: a map literal evaluates whenever all its keys and values do (an
    assignment to the map never fails), and its entries cannot be read back:
    the literal keeps each key as the [reflect.Value] of its evaluation, so a
    property, and an index with any plain key, finds nothing and gives the
    zero Value (no error). *)
Theorem map_literal_lookup (pairs : list (node * node)) (env : any) :
  Forall (fun pair => (exists k, expr.Eval (fst pair) env = Ok k) /\
                      (exists v, expr.Eval (snd pair) env = Ok v)) pairs ->
  (exists kvs, expr.Eval (mapNode pairs) env
               = Ok (Val (VMap TInterface TInterface kvs))) /\
  (forall property,
      expr.Eval (propertyNode (mapNode pairs) property) env = Ok Zero) /\
  (forall index k,
      expr.Eval index env = Ok (Val k) ->
      shape.plain k = true -> hashable k = true ->
      expr.Eval (indexNode (mapNode pairs) index) env = Ok Zero).
Proof.
  intros F.
  destruct (map_loop_evaluates env pairs F [] (Forall_nil _)) as [kvs E].
  assert (B : Forall (fun kv => shape.boxed (fst kv)) kvs)
    by (eapply map_loop_boxed; [constructor | exact E]).
  assert (H : expr.Eval (mapNode pairs) env
              = Ok (Val (VMap TInterface TInterface kvs)))
    by (cbn [expr.Eval]; rewrite E; reflexivity).
  assert (L : forall k, shape.plain k = true -> hashable k = true ->
              expr.extract (Val (VMap TInterface TInterface kvs)) (Val k)
              = Ok (Zero, true)).
  { intros k P Hk. cbn [expr.extract expr.extract_in MapIndex].
    pose proof (mapaccess_boxed k kvs B P) as A.
    unfold assignTo.
    destruct k as [ | | | | i | | | | | | ]; cbn [typeof type_eqb];
      try discriminate P; try discriminate Hk;
      cbn [hashable] in Hk |- *; rewrite ?Hk; rewrite A; reflexivity. }
  split; [now exists kvs | split].
  - intros property.
    change (expr.Eval (propertyNode (mapNode pairs) property) env)
      with (let* v := expr.Eval (mapNode pairs) env in
            let* (p, ok) := expr.extract v (ValueOf (Some (VString property))) in
            if negb ok then
              let* isnil := expr.isNil v in
              if isnil then Errorf "%v is nil" [ANode (mapNode pairs)]
              else Errorf "%v undefined (type %T has no field %v)"
                          [ANode (propertyNode (mapNode pairs) property);
                           AValue v; AString property]
            else Ok p).
    rewrite H. cbn [bind ValueOf]. now rewrite L.
  - intros index k Hi P Hk.
    change (expr.Eval (indexNode (mapNode pairs) index) env)
      with (let* v := expr.Eval (mapNode pairs) env in
            let* i := expr.Eval index env in
            let* (p, ok) := expr.extract v i in
            if negb ok then
              Errorf "cannot get %q from %T: %v"
                     [AValue i; AValue v; ANode (indexNode (mapNode pairs) index)]
            else Ok p).
    rewrite H, Hi. cbn [bind]. now rewrite L.
Qed.

Lemma map_literal_lookup_witness :
  expr.Eval (propertyNode
               (mapNode [(identifierNode "a", scenario.num 1);
                         (identifierNode "b", scenario.num 2)]) "a")
            None = Ok Zero.
Proof.
  refine (proj1 (proj2 (map_literal_lookup
                          [(identifierNode "a", scenario.num 1);
                           (identifierNode "b", scenario.num 2)] None _)) "a").
  repeat constructor; eexists; reflexivity.
Defined.

(** ** Names in the environment: the two paths (runtime.go, vm helpers) *)

Lemma fetch_in_extract_in (name : string) :
  forall (x : value) (r : any),
    vm.fetch_in x (Some (VString name)) = Ok r ->
    exists v, expr.extract_in x (Val (VString name)) = Ok (Val v, true) /\
              Interface (Val v) = Ok r.
Proof.
  fix IH 1. intros x r H.
  destruct x as [ | | | | | | | | e [[p y] |] | | ];
    try (cbn in H; discriminate H).
  - (* map *)
    cbn [vm.fetch_in expr.extract_in ValueOf] in H |- *.
    destruct (MapIndex _ _) as [[| v] | | |]; cbn [bind IsValid] in H |- *;
      try discriminate H.
    exists v. now split.
  - (* struct *)
    cbn [vm.fetch_in expr.extract_in ValueOf] in H |- *.
    destruct (FieldByName _ _) as [[| v] | | |]; cbn [bind IsValid] in H |- *;
      try discriminate H.
    exists v. now split.
  - (* pointer *)
    pose proof (IH y r) as IHy.
    destruct y as [ | | | | [z |] | | | | | | ];
      try (cbn in H; discriminate H);
      first [ exact (IHy H) | exact (IH z r H) ].
  - (* reflect.Value *)
    cbn [vm.fetch_in expr.extract_in ValueOf] in H |- *.
    destruct (FieldByName _ _) as [[| v] | | |]; cbn [bind IsValid] in H |- *;
      try discriminate H.
    exists v. now split.
Qed.

(** X15: wherever the helper [fetch] of the machine finds a name in the
    environment, the tree-walking evaluator finds the same value; where
    [fetch] panics the evaluator may still answer (a missing field or key is
    nil there). *)
Theorem fetch_agrees_with_name (env : any) (name : string) (r : any) :
  vm.fetch env (Some (VString name)) = Ok r ->
  expr.Run (nameNode name) env = Ok r.
Proof.
  intros H. destruct env as [x |]; [| discriminate H].
  cbn [vm.fetch] in H.
  destruct (fetch_in_extract_in name x r H) as (v & E & I).
  unfold expr.Run. cbn [expr.Eval ValueOf expr.extract]. rewrite E.
  cbn [bind negb IsValid CanInterface]. exact I.
Qed.

Lemma fetch_agrees_with_name_witness :
  expr.Run (nameNode "Age") (Some (VPtr (TStruct "Env" [("Age", TInt Int)])
                               (Some (1%positive,
                                      VStruct "Env" [("Age", VInt Int 30)]))))
  = Ok (Some (VInt Int 30)).
Proof.
  exact (fetch_agrees_with_name
           (Some (VPtr (TStruct "Env" [("Age", TInt Int)])
                    (Some (1%positive, VStruct "Env" [("Age", VInt Int 30)]))))
           "Age" (Some (VInt Int 30)) eq_refl).
Defined.

(** ** The helpers of the machine: integers (vm helpers) *)

Lemma wrap_wraps (k : ikind) (z : Z) : notions.wraps k z (wrap k z).
Proof.
  unfold notions.wraps, notions.in_range, wrap, min_int, max_int.
  destruct k; cbn [signed bits];
    repeat match goal with
      | |- context [2 ^ ?n] =>
          let v := eval vm_compute in (2 ^ n) in change (2 ^ n) with v
      end;
    match goal with
    | |- context [?a mod ?m] =>
        pose proof (Z.mod_pos_bound a m ltac:(lia)) as B;
        pose proof (Z.mod_eq a m ltac:(lia)) as E;
        (split; [lia | exists (- (a / m)); lia])
    end.
Qed.

Lemma wraps_exact (k : ikind) (exact z : Z) :
  notions.wraps k exact z -> notions.in_range k exact -> z = exact.
Proof.
  unfold notions.wraps, notions.in_range, min_int, max_int.
  intros [B [q E]] R. destruct k; cbn [signed bits] in *;
    repeat match goal with
      | H : context [2 ^ ?n] |- _ =>
          let v := eval vm_compute in (2 ^ n) in change (2 ^ n) with v in H
      end; lia.
Qed.

(** X16: the integer helpers of the machine keep the kind of their operands
    and wrap around: the result is in the range of the kind and differs from
    the exact result by a multiple of 2^bits, so it is the exact result
    whenever that fits. *)
Theorem integer_helpers_wrap (k : ikind) (x y : Z) :
  (exists z, vm.add (Some (VInt k x)) (Some (VInt k y)) = Ok (Some (VInt k z))
             /\ notions.wraps k (x + y) z) /\
  (exists z, vm.subtract (Some (VInt k x)) (Some (VInt k y))
             = Ok (Some (VInt k z)) /\ notions.wraps k (x - y) z) /\
  (exists z, vm.multiply (Some (VInt k x)) (Some (VInt k y))
             = Ok (Some (VInt k z)) /\ notions.wraps k (x * y) z) /\
  (exists z, vm.negate (Some (VInt k x)) = Ok (Some (VInt k z))
             /\ notions.wraps k (- x) z) /\
  (exists z, vm.inc (Some (VInt k x)) = Ok (Some (VInt k z))
             /\ notions.wraps k (x + 1) z) /\
  (forall exact z, notions.wraps k exact z -> notions.in_range k exact ->
                   z = exact).
Proof.
  repeat split; try (intros; eapply wraps_exact; eassumption);
    eexists; (split; [| apply wrap_wraps]);
    unfold vm.add, vm.subtract, vm.multiply, vm.negate, vm.inc, vm.binary;
    rewrite ?ikind_eqb_refl; reflexivity.
Qed.

Lemma quot_in_range (k : ikind) (x y : Z) :
  notions.in_range k x -> notions.in_range k y -> y <> 0 ->
  ~ (x = min_int k /\ y = -1) ->
  notions.in_range k (Z.quot x y).
Proof.
  unfold notions.in_range. intros Hx Hy N M.
  assert (A : Z.abs (Z.quot x y) <= Z.abs x).
  { rewrite <- Z.quot_abs by assumption.
    apply Z.quot_le_upper_bound; [lia |].
    assert (0 <= Z.abs x) by lia. assert (1 <= Z.abs y) by lia. nia. }
  assert (S : 0 <= x -> 0 < y -> 0 <= Z.quot x y)
    by (intros; apply Z.quot_pos; lia).
  destruct (signed k) eqn:Sg.
  - unfold min_int, max_int in *. rewrite Sg in *.
    destruct (Z.eq_dec (Z.quot x y) (2 ^ (bits k - 1))) as [Q | Q]; [| lia].
    exfalso. apply M.
    assert (x = - 2 ^ (bits k - 1)) by lia. split; [assumption |].
    subst x. 
    destruct (Z.eq_dec y (-1)) as [| Y]; [assumption |]. exfalso.
    assert (P : 0 < 2 ^ (bits k - 1)) by (destruct k; reflexivity).
    pose proof (Z.quot_rem' (- 2 ^ (bits k - 1)) y) as D.
    pose proof (Z.rem_bound_abs (- 2 ^ (bits k - 1)) y N) as R.
    rewrite Q in D. nia.
  - unfold min_int, max_int in *. rewrite Sg in *.
    split; [apply S; lia | lia].
Qed.

(** X17: integer division and remainder of the helpers, for operands in the
    range of their kind and a divisor that is not zero: the remainder is the
    truncated remainder; the quotient is the truncated quotient, but for the
    least integer divided by -1, which gives the least integer again; and in
    every case (a / b) * b + a % b is a. *)
Theorem integer_division (k : ikind) (x y : Z) :
  notions.in_range k x -> notions.in_range k y -> y <> 0 ->
  vm.modulo (Some (VInt k x)) (Some (VInt k y))
  = Ok (Some (VInt k (Z.rem x y))) /\
  (~ (x = min_int k /\ y = -1) ->
   vm.divide (Some (VInt k x)) (Some (VInt k y))
   = Ok (Some (VInt k (Z.quot x y)))) /\
  (x = min_int k /\ y = -1 ->
   vm.divide (Some (VInt k x)) (Some (VInt k y)) = Ok (Some (VInt k x))) /\
  (let* q := vm.divide (Some (VInt k x)) (Some (VInt k y)) in
   let* r := vm.modulo (Some (VInt k x)) (Some (VInt k y)) in
   let* m := vm.multiply q (Some (VInt k y)) in
   vm.add m r) = Ok (Some (VInt k x)).
Proof.
  intros Hx Hy N.
  assert (Z0 : (y =? 0) = false) by now apply Z.eqb_neq.
  assert (D : vm.divide (Some (VInt k x)) (Some (VInt k y))
              = Ok (Some (VInt k (wrap k (Z.quot x y)))))
    by (unfold vm.divide, vm.binary; now rewrite ikind_eqb_refl, Z0).
  assert (R : notions.in_range k (Z.rem x y)).
  { pose proof (Z.rem_bound_abs x y N) as B.
    assert (S : 0 <= x -> 0 <= Z.rem x y)
      by (intros; apply Z.rem_nonneg; lia).
    unfold notions.in_range, min_int, max_int in *.
    destruct (signed k); lia. }
  assert (M : vm.modulo (Some (VInt k x)) (Some (VInt k y))
              = Ok (Some (VInt k (Z.rem x y)))).
  { unfold vm.modulo. rewrite ikind_eqb_refl, Z0.
    now rewrite (wrap_in_range k _ R). }
  split; [exact M | split; [| split]].
  - intros E. rewrite D. rewrite wrap_in_range; [reflexivity |].
    now apply quot_in_range.
  - intros [-> ->]. rewrite D. do 3 f_equal.
    unfold notions.in_range, min_int, max_int in Hy.
    destruct k; cbn [signed] in Hy; try lia; reflexivity.
  - rewrite D, M. cbn [bind]. unfold vm.multiply, vm.add, vm.binary.
    rewrite ikind_eqb_refl. cbn [bind]. rewrite ikind_eqb_refl. cbn [bind].
    do 3 f_equal. apply wraps_exact with (k := k); [| exact Hx].
    destruct (wrap_wraps k (wrap k (wrap k (Z.quot x y) * y) + Z.rem x y))
      as [B [q1 E1]].
    destruct (wrap_wraps k (wrap k (Z.quot x y) * y)) as [_ [q2 E2]].
    destruct (wrap_wraps k (Z.quot x y)) as [_ [q3 E3]].
    split; [exact B |].
    exists (q1 + q2 + q3 * y). rewrite E1, E2, E3.
    pose proof (Z.quot_rem' x y) as Q.
    set (qt := Z.quot x y) in *. set (rm := Z.rem x y) in *.
    rewrite Q. ring.
Qed.

Lemma integer_division_witness :
  vm.divide (Some (VInt Int8 (-128))) (Some (VInt Int8 (-1)))
  = Ok (Some (VInt Int8 (-128))).
Proof.
  refine (proj1 (proj2 (proj2 (integer_division Int8 (-128) (-1) _ _ _))) _).
  - split; discriminate.
  - split; discriminate.
  - discriminate.
  - split; reflexivity.
Defined.

(** ** The helpers of the machine: comparisons (vm helpers) *)

Lemma string_leb_ltb (x y : string) : String.leb x y = negb (String.ltb y x).
Proof.
  unfold String.leb, String.ltb. rewrite (String.compare_antisym y x).
  destruct (String.compare x y); reflexivity.
Qed.

(** X18: the comparison helpers of the machine mirror each other: [less a b]
    returns what [more b a] returns, and [lessOrEqual a b] what
    [moreOrEqual b a] returns; on integers and on strings [lessOrEqual] is
    the negation of [more]. *)
Theorem helper_comparisons (a b : any) :
  (forall r, vm.less a b = Ok r <-> vm.more b a = Ok r) /\
  (forall r, vm.lessOrEqual a b = Ok r <-> vm.moreOrEqual b a = Ok r) /\
  (forall g,
      match a with Some (VFloat _ _) => False | _ => True end ->
      vm.more a b = Ok (Some (VBool g)) ->
      vm.lessOrEqual a b = Ok (Some (VBool (negb g)))).
Proof.
  unfold vm.less, vm.more, vm.lessOrEqual, vm.moreOrEqual, vm.binary.
  split; [| split].
  - intros r.
    destruct a as [[| k x | k x | x | | | | | | |] |];
      destruct b as [[| k' y | k' y | y | | | | | | |] |];
      try (split; intros H; discriminate H);
      try (destruct k, k'; cbn; split; intros H; (exact H || discriminate H)).
    reflexivity.
  - intros r.
    destruct a as [[| k x | k x | x | | | | | | |] |];
      destruct b as [[| k' y | k' y | y | | | | | | |] |];
      try (split; intros H; discriminate H);
      try (destruct k, k'; cbn; split; intros H; (exact H || discriminate H)).
    reflexivity.
  - intros g F H.
    destruct a as [[| k x | k x | x | | | | | | |] |]; try (now elim F);
      try (cbn in H; discriminate H);
      destruct b as [[| k' y | k' y | y | | | | | | |] |];
      try (cbn in H; discriminate H).
    + destruct (ikind_eqb k k'); cbn [bind] in H |- *; [| discriminate H].
      inversion H; subst. now rewrite Z.leb_antisym.
    + inversion H; subst. now rewrite string_leb_ltb.
Qed.

Lemma helper_comparisons_witness :
  vm.lessOrEqual (Some (VString "b")) (Some (VString "a"))
  = Ok (Some (VBool false)).
Proof.
  exact (proj2 (proj2 (helper_comparisons (Some (VString "b"))
                         (Some (VString "a")))) true I eq_refl).
Defined.

(** ** Whole numbers on both paths *)

(** X19: on whole numbers below 2^53 the tree-walking evaluator, which
    compares float64, and the helpers of the machine, which compare integers
    of one kind, give the same answers for the order and for equality; the
    remainder is the same number, a float64 on one path and an integer on the
    other. *)
Theorem paths_agree_on_whole_numbers (nl nr : node) (env : any)
  (a b : Z) (k : ikind) :
  expr.Eval nl env = Ok (Val (VFloat Float64 (of_Z Float64 a))) ->
  expr.Eval nr env = Ok (Val (VFloat Float64 (of_Z Float64 b))) ->
  - 2 ^ 53 < a < 2 ^ 53 -> - 2 ^ 53 < b < 2 ^ 53 ->
  expr.Run (binaryNode "<" nl nr) env
  = vm.less (Some (VInt k a)) (Some (VInt k b)) /\
  expr.Run (binaryNode "<=" nl nr) env
  = vm.lessOrEqual (Some (VInt k a)) (Some (VInt k b)) /\
  expr.Run (binaryNode ">" nl nr) env
  = vm.more (Some (VInt k a)) (Some (VInt k b)) /\
  expr.Run (binaryNode ">=" nl nr) env
  = vm.moreOrEqual (Some (VInt k a)) (Some (VInt k b)) /\
  expr.Run (binaryNode "==" nl nr) env
  = (let* e := vm.equal (Some (VInt k a)) (Some (VInt k b)) in
     Ok (Some (VBool e))) /\
  (notions.in_range k a -> notions.in_range k b -> b <> 0 ->
   exists r,
     vm.modulo (Some (VInt k a)) (Some (VInt k b)) = Ok (Some (VInt k r)) /\
     expr.Run (binaryNode "%" nl nr) env
     = Ok (Some (VFloat Float64 (of_Z Float64 r)))).
Proof.
  intros Hl Hr Ba Bb.
  assert (Nx : shape.numeric (VFloat Float64 (of_Z Float64 a)) = true)
    by reflexivity.
  assert (Ny : shape.numeric (VFloat Float64 (of_Z Float64 b)) = true)
    by reflexivity.
  unfold vm.less, vm.lessOrEqual, vm.more, vm.moreOrEqual, vm.equal,
    vm.binary.
  rewrite ikind_eqb_refl. cbn [bind].
  split; [| split; [| split; [| split; [| split]]]].
  1-4: unfold expr.Run; numbers Hl Hr Nx Ny;
    cbn [shape.number expr.cast fst]; unfold expr.number_operator;
    cbn [expr.op_is String.eqb Ascii.eqb Bool.eqb];
    rewrite ?fltb_whole, ?fleb_whole by assumption; reflexivity.
  - unfold expr.Run. cbn [expr.Eval]. rewrite Hl, Hr. cbn [bind].
    cbn [expr.op_is String.eqb Ascii.eqb Bool.eqb orb].
    rewrite tree_equal_float64_left by reflexivity.
    cbn [shape.number expr.cast fst bind]. rewrite feqb_whole by assumption.
    reflexivity.
  - intros Ra Rb N. exists (Z.rem a b). split.
    + unfold vm.modulo. rewrite ikind_eqb_refl.
      destruct (Z.eqb_spec b 0) as [| _]; [contradiction |].
      rewrite wrap_in_range; [reflexivity |].
      pose proof (Z.rem_bound_abs a b N) as B.
      assert (S : 0 <= a -> 0 <= Z.rem a b)
        by (intros; apply Z.rem_nonneg; lia).
      unfold notions.in_range, min_int, max_int in *.
      destruct (signed k); lia.
    + unfold expr.Run. numbers Hl Hr Nx Ny.
      cbn [shape.number expr.cast fst]. unfold expr.number_operator.
      cbn [expr.op_is String.eqb Ascii.eqb Bool.eqb].
      destruct (whole_number_round_trip a Ba) as [_ ->].
      destruct (whole_number_round_trip b Bb) as [_ ->].
      destruct (Z.eqb_spec b 0) as [| _]; [contradiction |].
      rewrite wrap_in_range; [reflexivity |].
      pose proof (Z.rem_bound_abs a b N) as B. bounds. lia.
Qed.

Lemma paths_agree_on_whole_numbers_witness :
  expr.Run (binaryNode "<" (scenario.num 2) (scenario.num 10)) None
  = vm.less (Some (VInt Int64 2)) (Some (VInt Int64 10)).
Proof.
  refine (proj1 (paths_agree_on_whole_numbers
                   (scenario.num 2) (scenario.num 10) None 2 10 Int64
                   eq_refl eq_refl _ _)); split; reflexivity.
Defined.

(** ** Slices on both paths (runtime.go, vm helpers) *)

(** X20: the element of a slice at a whole-number index: within the bounds
    the helper [fetch] of the machine and the tree-walking evaluator return
    the same element; outside [fetch] panics in [reflect], and so does the
    evaluator, whose [Run] returns the panic as an error. *)
Theorem index_on_both_paths (node index : node) (env : any) (e : type)
  (xs : list value) (v : value) (i : Z) (k : ikind) :
  expr.Eval node env = Ok (Val (VSlice e xs)) ->
  expr.Eval index env = Ok (Val v) -> notions.whole v i ->
  (forall x, 0 <= i -> nth_error xs (Z.to_nat i) = Some x ->
             vm.fetch (Some (VSlice e xs)) (Some (VInt k i))
             = Ok (shape.unbox x) /\
             expr.Run (indexNode node index) env = Ok (shape.unbox x)) /\
  (i < 0 \/ Z.of_nat (List.length xs) <= i ->
   vm.fetch (Some (VSlice e xs)) (Some (VInt k i))
   = Panic (ReflectPanic "Index") /\
   expr.Run (indexNode node index) env
   = Errorf "%v" [APanic (ReflectPanic "Index")]).
Proof.
  intros Hn Hi W.
  destruct (whole_number v i W) as (Nv & _ & Ev). destruct W as [B _].
  assert (C : expr.cast (Val v) = (shape.number v, true))
    by (destruct v; try discriminate Nv; reflexivity).
  assert (T : wrap Int i = i) by (apply wrap_in_range; bounds; lia).
  assert (E : expr.Eval (indexNode node index) env
              = let* value := Index (Val (VSlice e xs)) i in Ok value).
  { cbn [expr.Eval]. rewrite Hn, Hi. cbn [bind expr.extract expr.extract_in].
    rewrite C, Ev. destruct (Index (Val (VSlice e xs)) i); reflexivity. }
  unfold expr.Run. rewrite E.
  cbn [vm.fetch vm.fetch_in vm.toInt bind]. rewrite T.
  split.
  - intros x P X. cbn [Index].
    destruct (i <? 0) eqn:N; [apply Z.ltb_lt in N; lia |].
    rewrite X. cbn [bind IsValid CanInterface].
    split; destruct x; reflexivity.
  - intros O. cbn [Index].
    destruct (i <? 0) eqn:N; [now split |]. apply Z.ltb_ge in N.
    destruct (nth_error xs (Z.to_nat i)) eqn:X; [| now split].
    assert (Z.to_nat i < List.length xs)%nat
      by (apply nth_error_Some; congruence).
    lia.
Qed.

Lemma index_on_both_paths_witness :
  vm.fetch (Some (notions.strings ["a"; "b"])) (Some (VInt Int 2))
  = Panic (ReflectPanic "Index") /\
  expr.Run (indexNode (nameNode "Tags") (scenario.num 2))
           (Some (VStruct "Env" [("Tags", notions.strings ["a"; "b"])]))
  = Errorf "%v" [APanic (ReflectPanic "Index")].
Proof.
  refine (proj2 (index_on_both_paths (nameNode "Tags") (scenario.num 2)
                   (Some (VStruct "Env" [("Tags", notions.strings ["a"; "b"])]))
                   TString [VString "a"; VString "b"]
                   (VFloat Float64 (of_Z Float64 2)) 2 Int
                   eq_refl eq_refl _) _).
  - split; [split; reflexivity | now left].
  - right. cbn. lia.
Defined.

Lemma in_slice_strings (s : string) (l : list string) :
  vm.in_slice (Some (VString s)) (map VString l)
  = Ok (existsb (fun y => String.eqb y s) l).
Proof.
  induction l as [| y l IH]; [reflexivity |].
  cbn [map vm.in_slice existsb Interface bind vm.equal].
  destruct (String.eqb y s); [reflexivity | exact IH].
Qed.

Lemma in_slice_integers (k : ikind) (n : Z) (l : list Z) :
  vm.in_slice (Some (VInt k n)) (map (VInt k) l)
  = Ok (existsb (fun z => z =? n) l).
Proof.
  induction l as [| z l IH]; [reflexivity |].
  cbn [map vm.in_slice existsb Interface bind vm.equal].
  rewrite ikind_eqb_refl. cbn [bind].
  destruct (z =? n); [reflexivity | exact IH].
Qed.

(** X21: membership in a host slice on the machine: a text is in a
    [[]string], and an integer in a slice of its own kind, exactly when it is
    one of the elements; a needle of another type than the first element
    makes the helper panic on the type assertion, where the tree-walking
    evaluator compares numbers by value. *)
Theorem helper_membership :
  (forall s l,
      vm.in_ (Some (VString s)) (Some (notions.strings l))
      = Ok (existsb (fun y => String.eqb y s) l)) /\
  (forall k n l,
      vm.in_ (Some (VInt k n)) (Some (notions.integers k l))
      = Ok (existsb (fun z => z =? n) l)) /\
  (forall k z l needle,
      match needle with
      | Some (VInt k' _) => ikind_eqb k k' = false
      | _ => True
      end ->
      vm.in_ needle (Some (notions.integers k (z :: l)))
      = Panic (RuntimePanic "interface conversion")) /\
  (forall k z l f,
      expr.contains (Val (VFloat Float64 f)) (Val (notions.integers k (z :: l)))
      <> Panic (RuntimePanic "interface conversion")).
Proof.
  split; [| split; [| split]].
  - intros s l. apply in_slice_strings.
  - intros k n l. apply in_slice_integers.
  - intros k z l needle H.
    cbn [vm.in_ vm.in_in notions.integers map vm.in_slice Interface bind
         vm.equal].
    destruct needle as [[| k' y | | | | | | | | |] |]; try reflexivity.
    now rewrite H.
  - intros k z l f.
    unfold expr.contains, expr.contains_in, notions.integers.
    rewrite contains_slice_integers. discriminate.
Qed.

(** X22: the range of two whole numbers on both paths: the same numbers,
    float64 on the tree-walking evaluator and [int] on the machine, while the
    range has at most 1e6 elements; beyond that only the evaluator refuses;
    a range that descends by more than one panics in [make] on both. *)
Theorem ranges_on_both_paths (nl nr : node) (env : any) (a b : Z)
  (ka kb : ikind) :
  expr.Eval nl env = Ok (Val (VFloat Float64 (of_Z Float64 a))) ->
  expr.Eval nr env = Ok (Val (VFloat Float64 (of_Z Float64 b))) ->
  - 2 ^ 53 < a < 2 ^ 53 -> - 2 ^ 53 < b < 2 ^ 53 ->
  let numbers := map (fun i => a + Z.of_nat i) (seq 0 (Z.to_nat (b - a + 1))) in
  (a <= b + 1 -> b - a < 1000000 ->
   vm.makeRange (Some (VInt ka a)) (Some (VInt kb b))
   = Ok (VSlice (TInt Int) (map (VInt Int) numbers)) /\
   expr.Eval (binaryNode ".." nl nr) env
   = Ok (Val (VSlice (TFloat Float64)
                (map (fun z => VFloat Float64 (of_Z Float64 z)) numbers)))) /\
  (1000000 <= b - a < 2 ^ 45 ->
   vm.makeRange (Some (VInt ka a)) (Some (VInt kb b))
   = Ok (VSlice (TInt Int) (map (VInt Int) numbers)) /\
   expr.Eval (binaryNode ".." nl nr) env
   = Errorf "range %v..%v exceeded max size of 1e6" [AInt a; AInt b]) /\
  (b + 1 < a ->
   vm.makeRange (Some (VInt ka a)) (Some (VInt kb b))
   = Panic (RuntimePanic "makeslice: len out of range") /\
   expr.Eval (binaryNode ".." nl nr) env
   = Panic (RuntimePanic "makeslice: len out of range")).
Proof.
  intros Hl Hr Ba Bb numbers.
  assert (Nx : shape.numeric (VFloat Float64 (of_Z Float64 a)) = true)
    by reflexivity.
  assert (Ny : shape.numeric (VFloat Float64 (of_Z Float64 b)) = true)
    by reflexivity.
  assert (E : expr.Eval (binaryNode ".." nl nr) env = expr.makeRange a b).
  { numbers Hl Hr Nx Ny. cbn [shape.number expr.cast fst].
    unfold expr.number_operator.
    cbn [expr.op_is String.eqb Ascii.eqb Bool.eqb].
    destruct (whole_number_round_trip a Ba) as [_ ->].
    now destruct (whole_number_round_trip b Bb) as [_ ->]. }
  rewrite E, tree_makeRange_whole by assumption.
  assert (V : 0 <= b - a + 1 <= vm.max_len_int ->
              vm.makeRange (Some (VInt ka a)) (Some (VInt kb b))
              = Ok (VSlice (TInt Int) (map (VInt Int) numbers))).
  { intros S. rewrite vm_makeRange_builds; [| bounds; lia | bounds; lia | exact S].
    unfold numbers. now rewrite map_map. }
  assert (M : vm.max_len_int = 2 ^ 45) by reflexivity.
  split; [| split].
  - intros Le Cap. split; [apply V; rewrite M; bounds; lia |].
    destruct (1000000 <? b - a + 1) eqn:A; [apply Z.ltb_lt in A; lia |].
    destruct (b - a + 1 <? 0) eqn:C; [apply Z.ltb_lt in C; lia |].
    unfold numbers. now rewrite map_map.
  - intros Cap. split; [apply V; rewrite M; bounds; lia |].
    destruct (1000000 <? b - a + 1) eqn:A; [reflexivity |].
    apply Z.ltb_ge in A. lia.
  - intros D. split.
    + cbn [vm.makeRange vm.toInt bind].
      rewrite (wrap_in_range Int a), (wrap_in_range Int b) by (bounds; lia).
      rewrite (wrap_in_range Int (b - a)) by (bounds; lia).
      rewrite (wrap_in_range Int (b - a + 1)) by (bounds; lia).
      destruct (b - a + 1 <? 0) eqn:C; [reflexivity |].
      apply Z.ltb_ge in C. lia.
    + destruct (1000000 <? b - a + 1) eqn:A; [apply Z.ltb_lt in A; lia |].
      destruct (b - a + 1 <? 0) eqn:C; [reflexivity |].
      apply Z.ltb_ge in C. lia.
Qed.

Lemma ranges_on_both_paths_witness :
  vm.makeRange (Some (VInt Int64 1)) (Some (VInt Int64 3))
  = Ok (VSlice (TInt Int) (map (VInt Int) [1; 2; 3])) /\
  expr.Eval (binaryNode ".." (scenario.num 1) (scenario.num 3)) None
  = Ok (Val (VSlice (TFloat Float64)
               (map (fun z => VFloat Float64 (of_Z Float64 z)) [1; 2; 3]))).
Proof.
  refine (proj1 (ranges_on_both_paths (scenario.num 1) (scenario.num 3) None
                   1 3 Int64 Int64 eq_refl eq_refl _ _) _ _).
  - split; reflexivity.
  - split; reflexivity.
  - lia.
  - lia.
Defined.

(** ** [Run] (eval.go) *)


(** ** The checker and the evaluator (type.go, eval.go) *)

Ltac checked H :=
  cbn [expr.TypeCheck] in H;
  repeat match type of H with
    | bind ?r _ = _ => destruct r; cbn [bind] in H; try discriminate H
    end;
  cbn [expr.op_is String.eqb Ascii.eqb Bool.eqb orb andb] in H;
  repeat match type of H with
    | (if ?c then _ else _) = _ => destruct c; try discriminate H
    end;
  inversion H; subst; clear H.

Ltac evaluated H :=
  cbn [expr.Eval] in H;
  repeat first
    [ progress cbn [expr.op_is String.eqb Ascii.eqb Bool.eqb orb andb
                    ValueOf bind] in H
    | match type of H with
      | bind ?r _ = _ => destruct r; try discriminate H
      | (if ?c then _ else _) = _ => destruct c; try discriminate H
      end
    | progress unfold expr.number_operator, expr.makeRange in H ];
  inversion H; subst; clear H.

(** X24: the type the checker gives a binary operator against the value the
    evaluator returns for it.  They agree for the operators that return a
    boolean, for [+ - * / %], which return a float64, and for [~], which
    returns a string.  The bitwise operators are checked as float64 and
    return an [int]; a range is checked as [[]interface{}] and is a
    [[]float64]. *)
Theorem operator_result_types (types : expr.typesTable) (op : string)
  (nl nr : node) (env : any) (t : option type) (v : Value) :
  expr.TypeCheck types (binaryNode op nl nr) = Ok t ->
  expr.Eval (binaryNode op nl nr) env = Ok v ->
  (In op ["=="; "!="; "or"; "||"; "and"; "&&"; "in"; "not in";
          "<"; ">"; ">="; "<="] ->
   t = expr.boolType /\ exists b, v = Val (VBool b)) /\
  (In op ["+"; "-"; "*"; "/"; "%"] ->
   t = expr.numberType /\ exists f, v = Val (VFloat Float64 f)) /\
  (op = "~" -> t = expr.textType /\ exists s, v = Val (VString s)) /\
  (In op ["|"; "^"; "&"] ->
   t = expr.numberType /\ exists z, v = Val (VInt Int z)) /\
  (op = ".." ->
   t = expr.arrayType /\ exists xs, v = Val (VSlice (TFloat Float64) xs)).
Proof.
  intros Ht Hv.
  split; [| split; [| split; [| split]]]; intros O; cbn [In] in O;
    repeat match type of O with
      | _ \/ _ => destruct O as [<- | O]
      end; try contradiction; try subst op;
    (split; [checked Ht; reflexivity | evaluated Hv; eauto]).
Qed.

Lemma operator_result_types_witness :
  expr.numberType = expr.numberType /\
  exists z, Val (VInt Int (Z.lor 1 2)) = Val (VInt Int z).
Proof.
  refine (proj1 (proj2 (proj2 (proj2
            (operator_result_types [] "|" (scenario.num 1) (scenario.num 2)
               None expr.numberType (Val (VInt Int (Z.lor 1 2)))
               eq_refl eq_refl)))) _).
  cbn. auto.
Defined.

(** ** The helpers of the checker (type.go) *)

Lemma ikind_eqb_sym (k k' : ikind) : ikind_eqb k k' = ikind_eqb k' k.
Proof. destruct k, k'; reflexivity. Qed.

Lemma fkind_eqb_sym (k k' : fkind) : fkind_eqb k k' = fkind_eqb k' k.
Proof. destruct k, k'; reflexivity. Qed.

Lemma type_eqb_sym : forall a b : type, type_eqb a b = type_eqb b a.
Proof.
  fix IH 1. intros a b.
  destruct a as [| k | k | | | e | k e | e | n fs | |],
           b as [| k' | k' | | | e' | k' e' | e' | n' fs' | |];
    cbn [type_eqb]; try reflexivity.
  - apply ikind_eqb_sym.
  - apply fkind_eqb_sym.
  - apply IH.
  - now rewrite (IH k k'), (IH e e').
  - apply IH.
  - rewrite (String.eqb_sym n n'). f_equal.
    revert fs'. induction fs as [| [f t] r IHr]; intros [| [f' t'] r'];
      try reflexivity.
    now rewrite (String.eqb_sym f f'), (IH t t'), IHr.
Qed.

Lemma type_eqb_refl : forall a : type, type_eqb a a = true.
Proof.
  fix IH 1. intros a.
  destruct a as [| k | k | | | e | k e | e | n fs | |];
    cbn [type_eqb]; try reflexivity.
  - apply ikind_eqb_refl.
  - apply fkind_eqb_refl.
  - apply IH.
  - now rewrite (IH k), (IH e).
  - apply IH.
  - rewrite String.eqb_refl. cbn [andb].
    induction fs as [| [f t] r IHr]; [reflexivity |].
    now rewrite String.eqb_refl, (IH t), IHr.
Qed.

(** X25: which types the checker lets [==] compare: every type with itself,
    nil and [interface{}] with every type, any two number types; the relation
    is symmetric, and it is not transitive. *)
Theorem comparable_types :
  (forall l r, expr.isComparable l r = expr.isComparable r l) /\
  (forall t, expr.isComparable t t = true) /\
  (forall t, expr.isComparable expr.nilType t = true /\
             expr.isComparable expr.interfaceType t = true) /\
  (forall l r, expr.isNumberType l = true -> expr.isNumberType r = true ->
               expr.isComparable l r = true) /\
  (expr.isComparable expr.boolType expr.interfaceType = true /\
   expr.isComparable expr.interfaceType expr.textType = true /\
   expr.isComparable expr.boolType expr.textType = false).
Proof.
  split; [| split; [| split; [| split]]].
  - intros l r. unfold expr.isComparable.
    destruct (expr.dereference l) as [l' |], (expr.dereference r) as [r' |];
      try reflexivity.
    rewrite (andb_comm (expr.isNumberType (Some l'))), (type_eqb_sym l' r').
    destruct (expr.isNumberType (Some r') && expr.isNumberType (Some l'));
      [reflexivity |].
    destruct (kind_of l'), (kind_of r'); reflexivity.
  - intros t. unfold expr.isComparable.
    destruct (expr.dereference t) as [t' |]; [| reflexivity].
    rewrite type_eqb_refl.
    destruct (expr.isNumberType (Some t') && expr.isNumberType (Some t'));
      [reflexivity |].
    destruct (kind_of t'); reflexivity.
  - intros t. split; [reflexivity |]. unfold expr.isComparable.
    cbn [expr.interfaceType expr.dereference expr.dereference_].
    destruct (expr.dereference t) as [t' |]; [| reflexivity].
    destruct (expr.isNumberType (Some TInterface) && expr.isNumberType (Some t'));
      reflexivity.
  - intros l r Hl Hr. unfold expr.isComparable.
    unfold expr.isNumberType in Hl, Hr.
    destruct (expr.dereference l) as [l' |] eqn:L; [| discriminate Hl].
    destruct (expr.dereference r) as [r' |] eqn:R; [| discriminate Hr].
    assert (Dl : expr.dereference (Some l') = Some l').
    { destruct l as [l0 |]; [| discriminate L]. cbn in L |- *.
      inversion L. f_equal.
      clear. induction l0; cbn; try reflexivity. exact IHl0. }
    assert (Dr : expr.dereference (Some r') = Some r').
    { destruct r as [r0 |]; [| discriminate R]. cbn in R |- *.
      inversion R. f_equal.
      clear. induction r0; cbn; try reflexivity. exact IHr0. }
    unfold expr.isNumberType. rewrite Dl, Dr, Hl, Hr. reflexivity.
  - repeat split.
Qed.

(** X26: the checker looks through pointers, however many: a pointer type
    is dereferenced to the type it points to in the end, which is no pointer,
    and it has the fields, the elements and the kind tests of that type. *)
Theorem pointers_are_transparent (n : nat) (t : type) :
  expr.dereference (Some (notions.pointers n t)) = expr.dereference (Some t) /\
  (forall t', expr.dereference (Some t) = Some t' -> kind_of t' <> KPtr) /\
  (forall name,
      expr.fieldType (Some (notions.pointers n t)) name
      = expr.fieldType (Some t) name) /\
  expr.indexType (Some (notions.pointers n t)) = expr.indexType (Some t) /\
  (forall sel, expr.has_kind sel (Some (notions.pointers n t))
               = expr.has_kind sel (Some t)) /\
  expr.isNumberType (Some (notions.pointers n t)) = expr.isNumberType (Some t) /\
  (forall r, expr.isComparable (Some (notions.pointers n t)) r
             = expr.isComparable (Some t) r).
Proof.
  assert (D : expr.dereference (Some (notions.pointers n t))
              = expr.dereference (Some t)).
  { induction n as [| n IH]; [reflexivity |].
    cbn [notions.pointers expr.dereference expr.dereference_] in IH |- *.
    exact IH. }
  split; [exact D | split; [| split; [| split; [| split; [| split]]]]].
  - intros t' H. cbn [expr.dereference] in H. inversion H. clear.
    induction t; cbn; try discriminate. exact IHt.
  - intros name. unfold expr.fieldType. now rewrite D.
  - unfold expr.indexType. now rewrite D.
  - intros sel. unfold expr.has_kind. now rewrite D.
  - unfold expr.isNumberType. now rewrite D.
  - intros r. unfold expr.isComparable. now rewrite D.
Qed.

(** X27: an expression over boolean and text literals with negation, the
    short-circuit operators, equality and concatenation that the checker
    accepts does not go wrong: in every environment [Run] returns a value,
    and the value has the type the checker gave. *)
Theorem checked_fragment_is_safe (n : node) (t : option type) :
  fragment.simple n = true -> expr.TypeCheck [] n = Ok t ->
  exists x, t = Some (typeof x) /\ forall env, expr.Run n env = Ok (Some x).
Proof.
  intros S T. destruct (simple_value n S t T) as (x & Tx & E).
  exists x. split.
  - destruct Tx; reflexivity.
  - intros env. unfold expr.Run. rewrite E.
    destruct Tx; reflexivity.
Qed.

Lemma checked_fragment_is_safe_witness :
  exists x,
    Some TBool = Some (typeof x) /\
    forall env,
      expr.Run (binaryNode "and" (unaryNode "not" (boolNode false))
                  (binaryNode "==" (binaryNode "~" (textNode "a") (textNode "b"))
                     (textNode "ab")))
               env = Ok (Some x).
Proof.
  exact (checked_fragment_is_safe
           (binaryNode "and" (unaryNode "not" (boolNode false))
              (binaryNode "==" (binaryNode "~" (textNode "a") (textNode "b"))
                 (textNode "ab")))
           (Some TBool) eq_refl eq_refl).
Defined.

(** ** Array literals (eval.go) *)

Lemma array_loop_elements (env : any) (nodes : list node) :
  forall (acc r : list value),
    each (fun node (array : list value) =>
            let* val := expr.Eval node env in
            Ok (array ++ [VIface (Some (VRValue val))])%list) nodes acc = Ok r
    <-> exists vs, Forall2 (fun n v => expr.Eval n env = Ok v) nodes vs /\
                   r = (acc ++ map notions.element vs)%list.
Proof.
  induction nodes as [| n nodes IH]; intros acc r; cbn [each].
  - split.
    + intros H. inversion H; subst. exists []. split; [constructor |].
      now rewrite app_nil_r.
    + intros (vs & F & ->). inversion F; subst. now rewrite app_nil_r.
  - split.
    + intros H. destruct (expr.Eval n env) as [v | | |] eqn:E;
        cbn [bind] in H; try discriminate H.
      apply IH in H. destruct H as (vs & F & ->).
      exists (v :: vs). split; [now constructor |].
      cbn [map]. now rewrite <- app_assoc.
    + intros (vs & F & ->). inversion F as [| ? v ? vs' E F']; subst.
      rewrite E. cbn [bind]. apply IH. exists vs'. split; [exact F' |].
      cbn [map]. now rewrite <- app_assoc.
Qed.

Lemma array_loop_stops (env : any) (pre post : list node) (n : node)
  (vs : list Value) (e : text) :
  Forall2 (fun n v => expr.Eval n env = Ok v) pre vs ->
  expr.Eval n env = Error e ->
  forall acc,
    each (fun node (array : list value) =>
            let* val := expr.Eval node env in
            Ok (array ++ [VIface (Some (VRValue val))])%list)
         (pre ++ n :: post) acc = Error e.
Proof.
  intros F E. induction F as [| m v pre vs Hm F IH]; intros acc.
  - cbn [app each]. now rewrite E.
  - cbn [app each]. rewrite Hm. cbn [bind]. apply IH.
Qed.

(** X28: an array literal evaluates its elements from left to right: when
    all of them evaluate, the literal is the slice of their Values, each kept
    as a [reflect.Value] inside an [interface{}], and nothing else makes it
    evaluate; the first element that fails gives its error to the literal.
    An element read back by its index is therefore a [reflect.Value], not
    the value it holds. *)
Theorem array_literal_elements (nodes : list node) (env : any) :
  (forall v,
      expr.Eval (arrayNode nodes) env = Ok v <->
      exists vs, Forall2 (fun n x => expr.Eval n env = Ok x) nodes vs /\
                 v = Val (VSlice TInterface (map notions.element vs))) /\
  (forall pre n post vs e,
      nodes = (pre ++ n :: post)%list ->
      Forall2 (fun n x => expr.Eval n env = Ok x) pre vs ->
      expr.Eval n env = Error e ->
      expr.Eval (arrayNode nodes) env = Error e) /\
  (forall vs i x,
      Forall2 (fun n x => expr.Eval n env = Ok x) nodes vs ->
      0 <= i < 2 ^ 53 -> nth_error vs (Z.to_nat i) = Some x ->
      expr.Run (indexNode (arrayNode nodes) (scenario.num i)) env
      = Ok (Some (VRValue x))).
Proof.
  assert (A : forall v,
             expr.Eval (arrayNode nodes) env = Ok v <->
             exists vs, Forall2 (fun n x => expr.Eval n env = Ok x) nodes vs /\
                        v = Val (VSlice TInterface (map notions.element vs))).
  { intros v. cbn [expr.Eval]. split.
    - intros H. destruct (each _ nodes []) as [r | | |] eqn:E;
        cbn [bind] in H; try discriminate H.
      apply array_loop_elements in E. destruct E as (vs & F & ->).
      inversion H; subst. now exists vs.
    - intros (vs & F & ->).
      assert (E : each (fun node (array : list value) =>
                          let* val := expr.Eval node env in
                          Ok (array ++ [VIface (Some (VRValue val))])%list)
                       nodes [] = Ok (map notions.element vs))
        by (apply array_loop_elements; now exists vs).
      rewrite E. reflexivity. }
  split; [exact A | split].
  - intros pre n post vs e -> F E. cbn [expr.Eval].
    now rewrite (array_loop_stops env pre post n vs e F E).
  - intros vs i x F B X.
    assert (E : expr.Eval (arrayNode nodes) env
                = Ok (Val (VSlice TInterface (map notions.element vs))))
      by (apply A; now exists vs).
    unfold expr.Run.
    change (expr.Eval (indexNode (arrayNode nodes) (scenario.num i)) env)
      with (let* v := expr.Eval (arrayNode nodes) env in
            let* i' := expr.Eval (scenario.num i) env in
            let* (p, ok) := expr.extract v i' in
            if negb ok then
              Errorf "cannot get %q from %T: %v"
                     [AValue i'; AValue v;
                      ANode (indexNode (arrayNode nodes) (scenario.num i))]
            else Ok p).
    rewrite E. cbn [bind expr.Eval scenario.num ValueOf].
    cbn [expr.extract expr.extract_in expr.cast]. unfold scenario.float64.
    destruct (whole_number_round_trip i) as [_ ->]; [lia |].
    cbn [Index]. destruct (i <? 0) eqn:N; [apply Z.ltb_lt in N; lia |].
    rewrite nth_error_map, X. reflexivity.
Qed.

Lemma array_literal_elements_witness :
  expr.Run (indexNode (arrayNode [textNode "a"; textNode "b"])
              (scenario.num 1)) None
  = Ok (Some (VRValue (Val (VString "b")))).
Proof.
  refine (proj2 (proj2 (array_literal_elements
                          [textNode "a"; textNode "b"] None))
                [Val (VString "a"); Val (VString "b")] 1 (Val (VString "b"))
                _ _ eq_refl).
  - repeat constructor.
  - split; [lia | reflexivity].
Defined.

(** ** Arithmetic of whole numbers in float64 *)

Lemma iter_pos_iter {A : Type} (f : A -> A) (p : positive) :
  forall x, iter_pos f p x = Pos.iter f x p.
Proof.
  induction p as [p IH | p IH |]; intros x; cbn [iter_pos Pos.iter].
  - rewrite !IH. rewrite <- !Pos.iter_swap. reflexivity.
  - now rewrite !IH.
  - reflexivity.
Qed.

Lemma iter_shr_exact (p m : positive) :
  iter_pos shr_1 p
    {| shr_m := Zpos (Pos.iter xO m p); shr_r := false; shr_s := false |}
  = {| shr_m := Zpos m; shr_r := false; shr_s := false |}.
Proof.
  rewrite iter_pos_iter.
  induction p as [| p IH] using Pos.peano_ind.
  - reflexivity.
  - rewrite Pos.iter_succ_r, Pos.iter_succ. cbn [shr_1 orb]. exact IH.
Qed.

(** A mantissa of 53 digits shifted left, with the exponent that makes up for
    it, rounds to the mantissa. *)
Lemma round_shifted (s : bool) (m p : positive) (e : Z) :
  digits2_pos m = 53%positive -> -1074 <= e + Zpos p <= 971 ->
  binary_round_aux 53 1024 s (Zpos (Pos.iter xO m p)) e loc_Exact
  = S754_finite s m (e + Zpos p).
Proof.
  intros D E. unfold binary_round_aux, shr_fexp, fexp, emin.
  cbn [Zdigits2 shr_record_of_loc]. rewrite iter_xO_digits, D.
  replace (Z.max (Zpos (53 + p) + e - 53) (3 - 1024 - 53) - e)
    with (Zpos p) by lia.
  cbn [shr]. rewrite iter_shr_exact.
  cbn [shr_m loc_of_shr_record round_nearest_even Zdigits2 shr_record_of_loc].
  rewrite D.
  replace (Z.max (53 + (e + Zpos p) - 53) (3 - 1024 - 53) - (e + Zpos p))
    with 0 by lia.
  cbn [shr shr_m].
  destruct (e + Zpos p <=? 1024 - 53) eqn:L; [reflexivity |].
  apply Z.leb_gt in L. lia.
Qed.

Lemma scaled_iter (P n : positive) (K : positive) :
  Zpos P = Zpos n * 2 ^ Zpos K -> P = Pos.iter xO n K.
Proof.
  intros H. rewrite <- iter_xO_value in H. now inversion H.
Qed.

(** The float64 of a whole number that is not zero and below 2^53. *)
Lemma of_Z_form (z : Z) :
  z <> 0 -> - 2 ^ 53 < z < 2 ^ 53 ->
  exists mz k,
    of_Z Float64 z = S754_finite (z <? 0) mz (- k) /\
    0 <= k <= 52 /\ Zpos mz = Z.abs z * 2 ^ k /\
    digits2_pos mz = 53%positive.
Proof.
  intros N B. unfold of_Z, binary_normalize. cbn [prec emax].
  assert (K : forall (m mz : positive) (k : Z),
             0 <= k -> Zpos mz = Zpos m * 2 ^ k ->
             digits2_pos mz = 53%positive -> k <= 52).
  { intros m mz k K V D. apply digits_53 in D. rewrite V in D.
    destruct (Z_le_gt_dec k 52) as [| G]; [assumption | exfalso].
    assert (2 ^ 53 <= 2 ^ k) by (apply Z.pow_le_mono_r; lia).
    assert (0 < 2 ^ k) by (apply Z.pow_pos_nonneg; lia).
    nia. }
  destruct z as [| m | m]; [now elim N | |].
  - destruct (of_Z_normal false m) as (mz & k & -> & K0 & V & D); [lia |].
    exists mz, k. repeat split; try assumption; try lia. now apply (K m mz).
  - destruct (of_Z_normal true m) as (mz & k & -> & K0 & V & D);
      [change (Zneg m) with (- Zpos m) in B; lia |].
    exists mz, k. repeat split; try assumption; try lia. now apply (K m mz).
Qed.

(** Rounding a positive whole number below 2^53 that comes shifted left, with
    the exponent that makes up for the shift, gives its float64. *)
Lemma binary_round_scaled (s : bool) (n P : positive) (K : Z) :
  Zpos n < 2 ^ 53 -> 0 <= K <= 1000 -> Zpos P = Zpos n * 2 ^ K ->
  binary_round 53 1024 s P (- K) = binary_round 53 1024 s n 0.
Proof.
  intros B HK V.
  destruct (of_Z_normal s n B) as (mz & k & -> & K0 & Vz & D).
  assert (Dn : Zpos (digits2_pos n) + k = 53).
  { destruct k as [| k |]; try lia.
    - change (2 ^ 0) with 1 in Vz. rewrite Z.mul_1_r in Vz.
      inversion Vz; subst. lia.
    - apply scaled_iter in Vz. subst mz. rewrite iter_xO_digits in D. lia. }
  assert (DP : Zpos (digits2_pos P) = Zpos (digits2_pos n) + K).
  { destruct K as [| K |]; try lia.
    - change (2 ^ 0) with 1 in V. rewrite Z.mul_1_r in V.
      inversion V; subst. lia.
    - apply scaled_iter in V. subst P. rewrite iter_xO_digits. lia. }
  unfold binary_round, fexp, emin. rewrite DP.
  replace (Z.max (Zpos (digits2_pos n) + K + - K - 53) (3 - 1024 - 53))
    with (- k) by lia.
  unfold shl_align.
  destruct (- k - - K) as [| q | q] eqn:Q.
  - assert (K = k) by lia. subst K.
    assert (P = mz) by (rewrite <- V in Vz; now inversion Vz). subst P.
    apply round_exact; [assumption | lia].
  - assert (Zpos mz * 2 ^ Zpos q = Zpos P).
    { rewrite Vz, V. replace K with (k + Zpos q) by lia.
      rewrite Z.pow_add_r by lia. ring. }
    symmetry in H. apply scaled_iter in H. subst P.
    rewrite round_shifted by (assumption || lia). f_equal. lia.
  - assert (Zpos P * 2 ^ Zpos q = Zpos mz).
    { rewrite Vz, V. replace k with (K + Zpos q) by lia.
      rewrite Z.pow_add_r by lia. ring. }
    symmetry in H. apply scaled_iter in H. subst mz.
    apply round_exact; [assumption | lia].
Qed.

Lemma binary_round_normal (s : bool) (m : positive) (e : Z) :
  digits2_pos m = 53%positive -> -1074 <= e <= 971 ->
  binary_round 53 1024 s m e = S754_finite s m e.
Proof.
  intros D E. unfold binary_round, fexp, emin. rewrite D.
  replace (Z.max (53 + e - 53) (3 - 1024 - 53)) with e by lia.
  unfold shl_align. rewrite Z.sub_diag. now apply round_exact.
Qed.

Lemma normalize_scaled (z K : Z) :
  - 2 ^ 53 < z < 2 ^ 53 -> 0 <= K <= 1000 ->
  binary_normalize 53 1024 (z * 2 ^ K) (- K) false = of_Z Float64 z.
Proof.
  intros B HK. unfold of_Z. cbn [prec emax].
  assert (P2 : 0 < 2 ^ K) by (apply Z.pow_pos_nonneg; lia).
  destruct z as [| c | c].
  - reflexivity.
  - destruct (Zpos c * 2 ^ K) as [| P | P] eqn:V; try lia.
    cbn [binary_normalize]. apply binary_round_scaled; [lia | lia | now symmetry].
  - destruct (Zneg c * 2 ^ K) as [| P | P] eqn:V; try lia.
    cbn [binary_normalize]. apply binary_round_scaled; [| lia |].
    + change (Zneg c) with (- Zpos c) in B. lia.
    + change (Zneg c) with (- Zpos c) in V.
      change (Zneg P) with (- Zpos P) in V. lia.
Qed.

Lemma of_Z_opp (z : Z) :
  z <> 0 -> - 2 ^ 53 < z < 2 ^ 53 -> of_Z Float64 (- z) = SFopp (of_Z Float64 z).
Proof.
  intros N B. destruct (of_Z_form z N B) as (mz & k & E & K & V & D).
  rewrite E. cbn [SFopp].
  rewrite <- (normalize_scaled (- z) k) by lia.
  assert (S : - z * 2 ^ k = cond_Zopp (negb (z <? 0)) (Zpos mz)).
  { rewrite V. destruct (Z.ltb_spec z 0); cbn [negb cond_Zopp]; lia. }
  rewrite S.
  destruct (negb (z <? 0)); cbn [cond_Zopp Z.opp binary_normalize];
    apply binary_round_normal; (assumption || lia).
Qed.

Lemma shl_align_value (m : positive) (ex ez : Z) :
  ez <= ex -> Zpos (fst (shl_align m ex ez)) = Zpos m * 2 ^ (ex - ez).
Proof.
  intros L. unfold shl_align.
  destruct (ez - ex) as [| d | d] eqn:E; try lia; cbn [fst].
  - replace (ex - ez) with 0 by lia. change (2 ^ 0) with 1. lia.
  - rewrite iter_xO_value. f_equal. f_equal. lia.
Qed.

Lemma signed_mantissa (z : Z) (mz : positive) (k K : Z) :
  Zpos mz = Z.abs z * 2 ^ k -> 0 <= k <= K ->
  cond_Zopp (z <? 0) (Zpos mz * 2 ^ (K - k)) = z * 2 ^ K.
Proof.
  intros V HK. rewrite V.
  replace K with (k + (K - k)) at 2 by lia. rewrite Z.pow_add_r by lia.
  destruct (Z.ltb_spec z 0); cbn [cond_Zopp]; [rewrite Z.abs_neq by lia |
    rewrite Z.abs_eq by lia]; ring.
Qed.

(** Sums, differences and products of whole numbers are exact in float64
    while they stay below 2^53. *)
Lemma fadd_whole (a b : Z) :
  - 2 ^ 53 < a < 2 ^ 53 -> - 2 ^ 53 < b < 2 ^ 53 ->
  - 2 ^ 53 < a + b < 2 ^ 53 ->
  fadd Float64 (of_Z Float64 a) (of_Z Float64 b) = of_Z Float64 (a + b).
Proof.
  intros Ba Bb Bs. unfold fadd. cbn [prec emax].
  destruct (Z.eq_dec a 0) as [-> | Na].
  { destruct (Z.eq_dec b 0) as [-> | Nb]; [reflexivity |].
    destruct (of_Z_form b Nb Bb) as (mb & kb & Eb & _). cbn [Z.add].
    rewrite Eb. reflexivity. }
  destruct (Z.eq_dec b 0) as [-> | Nb].
  { destruct (of_Z_form a Na Ba) as (ma & ka & Ea & _). rewrite Z.add_0_r.
    rewrite Ea. reflexivity. }
  destruct (of_Z_form a Na Ba) as (ma & ka & Ea & Ka & Va & Da).
  destruct (of_Z_form b Nb Bb) as (mb & kb & Eb & Kb & Vb & Db).
  rewrite Ea, Eb. cbn [SFadd].
  set (ez := Z.min (- ka) (- kb)).
  rewrite !shl_align_value by (unfold ez; lia).
  replace (- ka - ez) with (- ez - ka) by lia.
  replace (- kb - ez) with (- ez - kb) by lia.
  rewrite (signed_mantissa a ma ka (- ez)) by (assumption || (unfold ez; lia)).
  rewrite (signed_mantissa b mb kb (- ez)) by (assumption || (unfold ez; lia)).
  rewrite <- Z.mul_add_distr_r.
  replace ez with (- - ez) at 2 by lia.
  apply normalize_scaled; [assumption | unfold ez; lia].
Qed.

Lemma fsub_whole (a b : Z) :
  - 2 ^ 53 < a < 2 ^ 53 -> - 2 ^ 53 < b < 2 ^ 53 ->
  - 2 ^ 53 < a - b < 2 ^ 53 ->
  fsub Float64 (of_Z Float64 a) (of_Z Float64 b) = of_Z Float64 (a - b).
Proof.
  intros Ba Bb Bs. unfold fsub. cbn [prec emax].
  destruct (Z.eq_dec b 0) as [-> | Nb].
  { rewrite Z.sub_0_r. destruct (Z.eq_dec a 0) as [-> | Na]; [reflexivity |].
    destruct (of_Z_form a Na Ba) as (ma & ka & Ea & _). rewrite Ea.
    reflexivity. }
  destruct (Z.eq_dec a 0) as [-> | Na].
  { cbn [Z.sub Z.add]. rewrite (of_Z_opp b Nb Bb).
    destruct (of_Z_form b Nb Bb) as (mb & kb & Eb & _). rewrite Eb.
    reflexivity. }
  destruct (of_Z_form a Na Ba) as (ma & ka & Ea & Ka & Va & Da).
  destruct (of_Z_form b Nb Bb) as (mb & kb & Eb & Kb & Vb & Db).
  rewrite Ea, Eb. cbn [SFsub].
  set (ez := Z.min (- ka) (- kb)).
  rewrite !shl_align_value by (unfold ez; lia).
  replace (- ka - ez) with (- ez - ka) by lia.
  replace (- kb - ez) with (- ez - kb) by lia.
  rewrite (signed_mantissa a ma ka (- ez)) by (assumption || (unfold ez; lia)).
  rewrite (signed_mantissa b mb kb (- ez)) by (assumption || (unfold ez; lia)).
  rewrite <- Z.mul_sub_distr_r.
  replace ez with (- - ez) at 2 by lia.
  apply normalize_scaled; [assumption | unfold ez; lia].
Qed.

Lemma fmul_whole (a b : Z) :
  a <> 0 -> b <> 0 ->
  - 2 ^ 53 < a < 2 ^ 53 -> - 2 ^ 53 < b < 2 ^ 53 ->
  - 2 ^ 53 < a * b < 2 ^ 53 ->
  fmul Float64 (of_Z Float64 a) (of_Z Float64 b) = of_Z Float64 (a * b).
Proof.
  intros Na Nb Ba Bb Bp. unfold fmul. cbn [prec emax].
  assert (Np : a * b <> 0) by nia.
  destruct (of_Z_form a Na Ba) as (ma & ka & Ea & Ka & Va & Da).
  destruct (of_Z_form b Nb Bb) as (mb & kb & Eb & Kb & Vb & Db).
  destruct (of_Z_form (a * b) Np Bp) as (mz & k & Ez & Kz & Vz & Dz).
  rewrite Ea, Eb, Ez. cbn [SFmul].
  apply digits_53 in Da, Db. pose proof (digits_53 mz Dz) as Dz'.
  assert (P : 0 < 2 ^ k) by (apply Z.pow_pos_nonneg; lia).
  assert (V : Zpos (ma * mb) * 2 ^ k = Zpos mz * 2 ^ (ka + kb)).
  { rewrite Pos2Z.inj_mul, Va, Vb, Vz, Z.abs_mul, Z.pow_add_r by lia. ring. }
  assert (L : k < ka + kb).
  { destruct (Z_lt_ge_dec k (ka + kb)) as [| G]; [assumption | exfalso].
    replace k with (ka + kb + (k - (ka + kb))) in V by lia.
    rewrite Z.pow_add_r in V by lia.
    assert (0 < 2 ^ (ka + kb)) by (apply Z.pow_pos_nonneg; lia).
    assert (1 <= 2 ^ (k - (ka + kb)))
      by (change 1 with (2 ^ 0); apply Z.pow_le_mono_r; lia).
    assert (M : Zpos (ma * mb) * 2 ^ (k - (ka + kb)) = Zpos mz) by nia.
    rewrite Pos2Z.inj_mul in M.
    change (2 ^ 53) with 9007199254740992 in *.
    change (2 ^ 52) with 4503599627370496 in *. nia. }
  assert (W : Zpos (ma * mb) = Zpos mz * 2 ^ Zpos (Z.to_pos (ka + kb - k))).
  { rewrite Z2Pos.id by lia.
    replace (ka + kb) with (ka + kb - k + k) in V by lia.
    rewrite Z.pow_add_r in V by lia. nia. }
  apply scaled_iter in W. rewrite W.
  rewrite round_shifted by (assumption || (rewrite Z2Pos.id; lia)).
  rewrite Z2Pos.id by lia. f_equal; [| lia].
  destruct (Z.ltb_spec a 0), (Z.ltb_spec b 0), (Z.ltb_spec (a * b) 0);
    try reflexivity; nia.
Qed.

(** X29: sums, differences and products of whole numbers are exact on the
    tree-walking evaluator while the operands and the result stay below 2^53,
    for literals and for integers of the host, though the evaluator computes
    in float64; the helpers of the machine return the same number as an
    integer while it is in the range of the kind. *)
Theorem whole_number_arithmetic (nl nr : node) (env : any) (x y : value)
  (a b : Z) :
  expr.Eval nl env = Ok (Val x) -> expr.Eval nr env = Ok (Val y) ->
  notions.whole x a -> notions.whole y b ->
  (- 2 ^ 53 < a + b < 2 ^ 53 ->
   expr.Eval (binaryNode "+" nl nr) env
   = Ok (Val (VFloat Float64 (of_Z Float64 (a + b))))) /\
  (- 2 ^ 53 < a - b < 2 ^ 53 ->
   expr.Eval (binaryNode "-" nl nr) env
   = Ok (Val (VFloat Float64 (of_Z Float64 (a - b))))) /\
  (a <> 0 -> b <> 0 -> - 2 ^ 53 < a * b < 2 ^ 53 ->
   expr.Eval (binaryNode "*" nl nr) env
   = Ok (Val (VFloat Float64 (of_Z Float64 (a * b))))) /\
  (forall k,
      (notions.in_range k (a + b) ->
       vm.add (Some (VInt k a)) (Some (VInt k b))
       = Ok (Some (VInt k (a + b)))) /\
      (notions.in_range k (a - b) ->
       vm.subtract (Some (VInt k a)) (Some (VInt k b))
       = Ok (Some (VInt k (a - b)))) /\
      (notions.in_range k (a * b) ->
       vm.multiply (Some (VInt k a)) (Some (VInt k b))
       = Ok (Some (VInt k (a * b))))).
Proof.
  intros Hl Hr Wx Wy.
  destruct (whole_number x a Wx) as (Nx & Ex & _).
  destruct (whole_number y b Wy) as (Ny & Ey & _).
  destruct Wx as [Ba _], Wy as [Bb _].
  split; [| split; [| split]].
  - intros B. numbers Hl Hr Nx Ny. rewrite Ex, Ey.
    unfold expr.number_operator.
    cbn [expr.op_is String.eqb Ascii.eqb Bool.eqb].
    now rewrite fadd_whole.
  - intros B. numbers Hl Hr Nx Ny. rewrite Ex, Ey.
    unfold expr.number_operator.
    cbn [expr.op_is String.eqb Ascii.eqb Bool.eqb].
    now rewrite fsub_whole.
  - intros Na Nb B. numbers Hl Hr Nx Ny. rewrite Ex, Ey.
    unfold expr.number_operator.
    cbn [expr.op_is String.eqb Ascii.eqb Bool.eqb].
    now rewrite fmul_whole.
  - intros k. unfold vm.add, vm.subtract, vm.multiply, vm.binary.
    rewrite ikind_eqb_refl. cbn [bind].
    repeat split; intros R; now rewrite (wrap_in_range k _ R).
Qed.

Lemma whole_number_arithmetic_witness :
  expr.Eval (binaryNode "*" (nameNode "Count") (scenario.num (-3)))
            (Some (VStruct "Env" [("Count", VInt Int 7)]))
  = Ok (Val (VFloat Float64 (of_Z Float64 (-21)))).
Proof.
  refine (proj1 (proj2 (proj2 (whole_number_arithmetic
                   (nameNode "Count") (scenario.num (-3))
                   (Some (VStruct "Env" [("Count", VInt Int 7)]))
                   (VInt Int 7) (VFloat Float64 (of_Z Float64 (-3))) 7 (-3)
                   eq_refl eq_refl _ _))) _ _ _).
  - split; [split; reflexivity | right; now exists Int].
  - split; [split; reflexivity | now left].
  - discriminate.
  - discriminate.
  - split; reflexivity.
Defined.

(** ** Fields of a struct: the checker and the evaluator (type.go, eval.go) *)

Lemma field_named_typeof (name : string) (vs : list (string * value)) :
  expr.field_named name (map (fun p => (fst p, typeof (snd p))) vs)
  = match field name vs with
    | Val x => Some (typeof x)
    | Zero => None
    end.
Proof.
  induction vs as [| [f x] vs IH]; [reflexivity |].
  cbn [map fst snd expr.field_named field].
  destruct (String.eqb f name); [reflexivity | exact IH].
Qed.

(** X30: a property of a struct, when the checker has the type of the
    struct: a field the struct has is accepted with the type of its value,
    and evaluates to that value; a field it lacks is rejected by the checker,
    while the evaluator, asked all the same, returns the zero Value and no
    error. *)
Theorem struct_fields_checked (types : expr.typesTable) (node : node)
  (env : any) (name : string) (vs : list (string * value))
  (property : string) :
  expr.Eval node env = Ok (Val (VStruct name vs)) ->
  expr.TypeCheck types node = Ok (Some (typeof (VStruct name vs))) ->
  (forall x, field property vs = Val x ->
             expr.TypeCheck types (propertyNode node property)
             = Ok (Some (typeof x)) /\
             expr.Eval (propertyNode node property) env = Ok (Val x)) /\
  (field property vs = Zero ->
   expr.TypeCheck types (propertyNode node property)
   = Errorf "%v undefined (type %v has no field %v)"
            [ANode (propertyNode node property);
             AType (Some (typeof (VStruct name vs))); AString property] /\
   expr.Eval (propertyNode node property) env = Ok Zero).
Proof.
  intros He Ht.
  assert (E : expr.Eval (propertyNode node property) env
              = Ok (field property vs)).
  { cbn [expr.Eval]. rewrite He. reflexivity. }
  assert (T : expr.fieldType (Some (typeof (VStruct name vs))) property
              = match field property vs with
                | Val x => (Some (typeof x), true)
                | Zero => (None, false)
                end).
  { cbn [typeof]. unfold expr.fieldType.
    cbn [expr.dereference expr.dereference_].
    rewrite field_named_typeof. now destruct (field property vs). }
  split.
  - intros x F. rewrite E, F. split; [| reflexivity].
    cbn [expr.TypeCheck]. rewrite Ht. cbn [bind]. now rewrite T, F.
  - intros F. rewrite E, F. split; [| reflexivity].
    cbn [expr.TypeCheck]. rewrite Ht. cbn [bind]. now rewrite T, F.
Qed.

Lemma struct_fields_checked_witness :
  expr.TypeCheck [("User", TStruct "User" [("Name", TString)])]
                 (propertyNode (nameNode "User") "Age")
  = Errorf "%v undefined (type %v has no field %v)"
           [ANode (propertyNode (nameNode "User") "Age");
            AType (Some (TStruct "User" [("Name", TString)])); AString "Age"] /\
  expr.Eval (propertyNode (nameNode "User") "Age")
            (Some (VStruct "Env"
                     [("User", VStruct "User" [("Name", VString "x")])]))
  = Ok Zero.
Proof.
  exact (proj2 (struct_fields_checked
                  [("User", TStruct "User" [("Name", TString)])]
                  (nameNode "User")
                  (Some (VStruct "Env"
                           [("User", VStruct "User" [("Name", VString "x")])]))
                  "User" [("Name", VString "x")] "Age" eq_refl eq_refl)
               eq_refl).
Defined.

(** * The two evaluators on their common fragment *)

Section Agreement.
Import machine fragment.

(** ** Names and fields *)







(** ** Number literals *)






(** ** The constant pool *)





(** ** Single instructions *)






(** ** Whole numbers with a zero of either sign *)












(** ** Operators *)










(** ** The code of an expression of the fragment *)








(** ** The checker accepts the fragment *)



(** ** The values of the fragment *)



(** ** What the fragment leaves out *)

(** Why [/] on integers is kept out: the machine divides integers, the
    tree-walking evaluator float64. *)
Lemma integer_division_truncates :
  expr.Run scenario.seven_halves None
  = Ok (Some (VFloat Float64
                (fdiv Float64 (scenario.float64 7) (scenario.float64 2)))) /\
  exists p, Compile scenario.seven_halves = Ok p /\
            Run 3 p None = Some (Ok (Some (VInt Int64 3))).
Proof. split; [reflexivity |]. eexists. split; reflexivity. Qed.

(** Why the integers of an operator are of one kind: the helpers of the
    machine take no [int] with an [int64]. *)
Lemma kinds_do_not_mix :
  expr.Run scenario.I_plus_one scenario.env_numbers
  = Ok (Some (VFloat Float64 (scenario.float64 8))) /\
  exists p, Compile scenario.I_plus_one = Ok p /\
            exists e, Run 3 p scenario.env_numbers = Some (Error e).
Proof.
  split; [reflexivity |]. eexists. split; [reflexivity |].
  eexists. reflexivity.
Qed.

(** Why an operand has a type of its own: the tree-walking evaluator does
    not look into an interface, the machine does. *)
Lemma interface_operand_panics :
  (exists e, expr.Run scenario.A_plus_A scenario.env_numbers = Error e) /\
  exists p, Compile scenario.A_plus_A = Ok p /\
            Run 3 p scenario.env_numbers = Some (Ok (Some (VInt Int 2))).
Proof. split; [eexists; reflexivity |]. eexists. split; reflexivity. Qed.

(** Why an integer result is in the range of its kind: the machine wraps
    around. *)
Lemma narrow_kind_wraps :
  expr.Run scenario.B_plus_B scenario.env_numbers
  = Ok (Some (VFloat Float64 (scenario.float64 200))) /\
  exists p, Compile scenario.B_plus_B = Ok p /\
            Run 3 p scenario.env_numbers = Some (Ok (Some (VInt Int8 (-56)))).
Proof. split; [reflexivity |]. eexists. split; reflexivity. Qed.

(** Why an integer is less than 2^53 in magnitude: float64 does not tell
    2^53 + 1 from 2^53. *)
Lemma beyond_exact_float64 :
  expr.Run scenario.Big_is_2_53 scenario.env_numbers = Ok (Some (VBool true)) /\
  exists p, Compile scenario.Big_is_2_53 = Ok p /\
            Run 3 p scenario.env_numbers = Some (Ok (Some (VBool false))).
Proof. split; [reflexivity |]. eexists. split; reflexivity. Qed.

(** Why float32 is kept out: the tree-walking evaluator adds in float64, the
    machine rounds the sum to float32. *)
Lemma float32_rounds :
  expr.Run scenario.X_plus_Y_is_X scenario.env_float32
  = Ok (Some (VBool false)) /\
  exists p, Compile scenario.X_plus_Y_is_X = Ok p /\
            Run 5 p scenario.env_float32 = Some (Ok (Some (VBool true))).
Proof. split; [reflexivity |]. eexists. split; reflexivity. Qed.

(** Why the values of a map environment have a type of their own: an entry
    of a [map[string]interface{}] is held in an interface. *)
Lemma interface_environment_panics :
  (exists e, expr.Run scenario.ok_and_true scenario.env_flags = Error e) /\
  exists p, Compile scenario.ok_and_true = Ok p /\
            Run 4 p scenario.env_flags = Some (Ok (Some (VBool true))).
Proof. split; [eexists; reflexivity |]. eexists. split; reflexivity. Qed.

(** ** Agreement *)




End Agreement.
